(** * mr_proc-ppmi: description classifier and manifest builder

    A shallow embedding of [tabular/filter_image_descriptions.py] and
    [tabular/generate_manifest.py], and the properties of the two pipelines.

    Conventions of the embedding.
    - A pandas data frame is a list of records, in row order.  Where the
      source relies on the index labels (the manifest, after the merge), the
      labels are kept next to the rows.
    - Cells are strings; a cell that pandas would read as NaN is [None] where
      the source tests for it (the protocol column, the group column, the
      session column after mapping).
    - [str.contains] receives a regular expression.  The patterns are built
      by ['|'.join(words).lower()]; the embedding reads such a pattern as
      the alternation of the pieces between the bars and searches each piece
      literally.  Words holding other regular-expression operators are outside
      the embedding.
    - [str.lower] acts on the ASCII letters; text with other letters is
      outside the embedding.
    - The cells of the description and modality columns are filled.  The
      [.str] accessor needs a column that pandas read as text: on a protocol
      column with no text in it, it raises [AttributeError].
    - [ClassifierSpec.modelled] collects what the last three points ask of a
      call of [filter_descriptions]; the properties that depend on how a
      pattern is matched are stated under it.
    - Printing and [logger.info] are left out; [logger.warn] is recorded. *)

From Stdlib Require Import String Ascii List Bool Arith Lia Permutation.
From stdpp Require Import gmap strings list fin_maps sorting.

Set Warnings "-register-all".
Local Open Scope string_scope.
Local Open Scope list_scope.

(* ===================================================================== *)
(** * Strings: what the source asks of Python and pandas                  *)
(* ===================================================================== *)

Module Str.

(** [c.lower()] on one ASCII character. *)
Definition lower_ascii (c : ascii) : ascii :=
  let n := nat_of_ascii c in
  if ((65 <=? n)%nat && (n <=? 90)%nat)%bool then ascii_of_nat (n + 32) else c.

(** [s.lower()], on text of ASCII. *)
Fixpoint lower (s : string) : string :=
  match s with
  | EmptyString => EmptyString
  | String c s' => String (lower_ascii c) (lower s')
  end.

(** [sep.join(words)]. *)
Fixpoint join (sep : string) (words : list string) : string :=
  match words with
  | [] => EmptyString
  | [w] => w
  | w :: ws => (w ++ sep ++ join sep ws)%string
  end.

(** The alternatives of a pattern: the pieces between the bars. *)
Fixpoint alternatives (pat : string) : list string :=
  match pat with
  | EmptyString => [EmptyString]
  | String c pat' =>
      if Ascii.eqb c "|" then EmptyString :: alternatives pat'
      else match alternatives pat' with
           | [] => [String c EmptyString]
           | a :: alts => String c a :: alts
           end
  end.

(** [word in s]: [word] occurs in [s] as a contiguous piece. *)
Fixpoint occurs (word s : string) : bool :=
  String.prefix word s ||
  match s with
  | EmptyString => false
  | String _ s' => occurs word s'
  end.

(** [re.search(pat, s) is not None] for a pattern of literal alternatives:
    one whose pieces between the bars hold no operator of regular
    expressions. *)
Definition search (pat s : string) : bool :=
  existsb (fun alt => occurs alt s) (alternatives pat).

(** [series.str.lower().str.contains('|'.join(words).lower())] at one cell. *)
Definition lower_contains (words : list string) (s : string) : bool :=
  search (lower (join "|" words)) (lower s).

(** [x in xs] and [series.isin(xs)] at one cell. *)
Definition isin (x : string) (xs : list string) : bool :=
  existsb (String.eqb x) xs.

(** [drop_duplicates(subset)], [value_counts().index] and
    [index.duplicated()] all keep the first row of each key. *)
Fixpoint drop_duplicates_from {K A : Type} `{EqDecision K}
    (key : A -> K) (seen : list K) (l : list A) : list A :=
  match l with
  | [] => []
  | x :: l' =>
      if decide (key x ∈ seen) then drop_duplicates_from key seen l'
      else x :: drop_duplicates_from key (key x :: seen) l'
  end.

Definition drop_duplicates_on {K A : Type} `{EqDecision K}
    (key : A -> K) (l : list A) : list A :=
  drop_duplicates_from key [] l.

Definition drop_duplicates (l : list string) : list string :=
  drop_duplicates_on (fun x => x) l.

(** Python orders strings by code point, character by character; tuples
    of strings, and the rows of a frame sorted on several columns, by the
    first component and then by the rest. *)
Definition pair_leb {A : Type} (leb : A -> A -> bool) (p q : string * A) : bool :=
  match String.compare (fst p) (fst q) with
  | Lt => true
  | Eq => leb (snd p) (snd q)
  | Gt => false
  end.

(** [sorted(l)] and [sort_values()]: a stable sort, here by insertion. *)
Section Sorting.
Context {A : Type} (leb : A -> A -> bool).

Fixpoint insert_sorted (x : A) (l : list A) : list A :=
  match l with
  | [] => [x]
  | y :: l' => if leb x y then x :: l else y :: insert_sorted x l'
  end.

Fixpoint sort_by (l : list A) : list A :=
  match l with
  | [] => []
  | x :: l' => insert_sorted x (sort_by l')
  end.
End Sorting.

Definition sorted (l : list string) : list string := sort_by String.leb l.

End Str.

(* ===================================================================== *)
(** * tabular/filter_image_descriptions.py                                *)
(* ===================================================================== *)

Module filter_image_descriptions.

(** One row of the imaging information file: the columns the classifier
    reads.  An empty protocol cell is [None]. *)
Record ImagingInfo := {
  info_description : string;
  info_modality : string;
  info_protocol : option string;
}.

(** The keys of [DATATYPE_MODALITY_MAP]. *)
Inductive Key :=
| DATATYPE_DWI | DATATYPE_FUNC | DATATYPE_ANAT
| SUFFIX_T1 | SUFFIX_T2 | SUFFIX_T2_STAR | SUFFIX_FLAIR.

(** The keyword arguments a call of [filter_descriptions] receives from the
    [FILTERS] table. *)
Record Kwargs := {
  common_substrings : list string;
  reject_substrings : option (list string);
  reject_substrings_exceptions : option (list string);
  exclude_in : option (list string);
  exclude_out : option (list string);
  protocol_include : option (list string);
  protocol_exclude : option (list string);
}.

(** What the module imports from [tabular.filters] and [tabular.ppmi_utils],
    neither of which is among the sources at hand: the modality labels, the
    exclusion lists, the names of the keys and the filter table.  For an
    anatomical subtype, [FILTERS k] stands for the two entries the source
    unpacks together, [FILTERS[DATATYPE_ANAT]] and [FILTERS[k]], and [run]
    supplies [exclude_in] itself. *)
Record Tables := {
  MODALITY_ANAT : string;
  MODALITY_DWI : string;
  MODALITY_FUNC : string;
  EXCLUDE_IN_ANAT : list string;
  EXCLUDE_IN_ANAT_T1 : list string;
  key_name : Key -> string;
  FILTERS : Key -> Kwargs;
}.

Definition DATATYPE_MODALITY_MAP (T : Tables) (k : Key) : string :=
  match k with
  | DATATYPE_DWI => MODALITY_DWI T
  | DATATYPE_FUNC => MODALITY_FUNC T
  | DATATYPE_ANAT => MODALITY_ANAT T
  | SUFFIX_T1 => MODALITY_ANAT T
  | SUFFIX_T2 => MODALITY_ANAT T
  | SUFFIX_T2_STAR => MODALITY_ANAT T
  | SUFFIX_FLAIR => MODALITY_ANAT T
  end.

(** [df[COL_PROTOCOL_IMAGING].str.lower().str.contains(pat, na=False)]. *)
Definition protocol_contains (words : list string) (r : ImagingInfo) : bool :=
  match info_protocol r with
  | Some p => Str.lower_contains words p
  | None => false
  end.

(** The two protocol filters at the head of [filter_descriptions]. *)
Definition protocol_filter (protocol_include protocol_exclude : option (list string))
    (df : list ImagingInfo) : list ImagingInfo :=
  let df :=
    match protocol_include with
    | Some words => List.filter (protocol_contains words) df
    | None => df
    end in
  match protocol_exclude with
  | Some words => List.filter (fun r => negb (protocol_contains words r)) df
  | None => df
  end.

Definition in_modality (modality : string) (r : ImagingInfo) : bool :=
  String.eqb (info_modality r) modality.

(** [df_modality[COL_DESCRIPTION_IMAGING].value_counts()]: the distinct
    descriptions of the rows of the modality.  The counts, and the order
    they give, are only printed. *)
Definition value_counts (descriptions : list string) : list string :=
  Str.drop_duplicates descriptions.

(** The removal of the descriptions listed in [exclude_in]. *)
Definition remove_excluded (exclude_in : option (list string))
    (descriptions : list string) : list string :=
  match exclude_in with
  | Some ((_ :: _) as excluded) =>
      List.filter (fun d => negb (Str.isin d excluded)) descriptions
  | _ => descriptions
  end.

(** The rejection step: the descriptions holding a rejected substring go,
    those matching the exceptions are put back. *)
Definition reject (reject_substrings reject_substrings_exceptions : option (list string))
    (descriptions : list string) : list string :=
  match reject_substrings with
  | Some ((_ :: _) as rejected) =>
      let descriptions_keep :=
        match reject_substrings_exceptions with
        | Some exceptions => List.filter (Str.lower_contains exceptions) descriptions
        | None => []
        end in
      let descriptions :=
        List.filter (fun d => negb (Str.lower_contains rejected d)) descriptions in
      Str.drop_duplicates (descriptions ++ descriptions_keep)
  | _ => descriptions
  end.

(** The descriptions kept from the rows of the modality. *)
Definition within_modality (modality : string) (df : list ImagingInfo)
    (reject_substrings reject_substrings_exceptions exclude_in : option (list string))
    : list string :=
  let df_modality := List.filter (in_modality modality) df in
  let descriptions := value_counts (map info_description df_modality) in
  let descriptions := remove_excluded exclude_in descriptions in
  reject reject_substrings reject_substrings_exceptions descriptions.

(** [df_other_modalities]: the rows outside the modality (the index of a
    frame read from a file has no repeated label), less those whose
    description is listed in [exclude_out]. *)
Definition other_modalities (modality : string) (exclude_out : option (list string))
    (df : list ImagingInfo) : list ImagingInfo :=
  let df_other_modalities := List.filter (fun r => negb (in_modality modality r)) df in
  match exclude_out with
  | Some ((_ :: _) as excluded) =>
      List.filter (fun r => negb (Str.isin (info_description r) excluded)) df_other_modalities
  | _ => df_other_modalities
  end.

(** [descriptions_new]: the descriptions of other modalities that hold a
    common substring and are not selected yet. *)
Definition descriptions_new (common_substrings descriptions : list string)
    (df_other_modalities : list ImagingInfo) : list string :=
  value_counts (map info_description
    (List.filter
       (fun r => Str.lower_contains common_substrings (info_description r)
                 && negb (Str.isin (info_description r) descriptions))
       df_other_modalities)).

Definition filter_descriptions (T : Tables) (df : list ImagingInfo) (datatype : Key)
    (common_substrings : list string)
    (reject_substrings reject_substrings_exceptions exclude_in exclude_out
       protocol_include protocol_exclude : option (list string)) : list string :=
  let modality := DATATYPE_MODALITY_MAP T datatype in
  let df := protocol_filter protocol_include protocol_exclude df in
  let descriptions :=
    within_modality modality df reject_substrings reject_substrings_exceptions exclude_in in
  let df_other_modalities := other_modalities modality exclude_out df in
  let descriptions_new := descriptions_new common_substrings descriptions df_other_modalities in
  Str.sorted (Str.drop_duplicates (descriptions ++ descriptions_new)).

(** [filter_descriptions(df=df, datatype=k, exclude_in=e, **FILTERS[...])]. *)
Definition call (T : Tables) (df : list ImagingInfo) (datatype : Key)
    (exclude_in : option (list string)) : list string :=
  let kw := FILTERS T datatype in
  filter_descriptions T df datatype (common_substrings kw)
    (reject_substrings kw) (reject_substrings_exceptions kw) exclude_in
    (exclude_out kw) (protocol_include kw) (protocol_exclude kw).

(** The mapping written to the JSON file: a list of descriptions, or a
    dictionary of such mappings, in insertion order. *)
Inductive Json :=
| JList (descriptions : list string)
| JDict (items : list (string * Json)).

(** [get_all_descriptions]: the inner function extends the list it is
    handed and hands it back. *)
Fixpoint _get_all_descriptions (descriptions_dict_or_list : Json)
    (descriptions : list string) : list string :=
  match descriptions_dict_or_list with
  | JDict items =>
      (fix over_items (items : list (string * Json)) (descriptions : list string) :=
         match items with
         | [] => descriptions
         | (_, sub) :: items' => over_items items' (_get_all_descriptions sub descriptions)
         end) items descriptions
  | JList l => descriptions ++ l
  end.

Definition get_all_descriptions (descriptions_dict : Json) : list string :=
  _get_all_descriptions descriptions_dict [].

(** The six lists [run] computes. *)
Record Descriptions := {
  dwi : list string;
  func : list string;
  T1 : list string;
  T2 : list string;
  T2_star : list string;
  FLAIR : list string;
}.

(** The classification calls of [run], in the order of the source. *)
Definition classify (T : Tables) (df_imaging : list ImagingInfo) : Descriptions :=
  let d_dwi := call T df_imaging DATATYPE_DWI (exclude_in (FILTERS T DATATYPE_DWI)) in
  let d_func := call T df_imaging DATATYPE_FUNC (exclude_in (FILTERS T DATATYPE_FUNC)) in
  let d_t1 := call T df_imaging SUFFIX_T1 (Some (EXCLUDE_IN_ANAT_T1 T)) in
  let d_t2 := call T df_imaging SUFFIX_T2 (Some (EXCLUDE_IN_ANAT T ++ d_t1)) in
  let d_t2_star :=
    call T df_imaging SUFFIX_T2_STAR (Some (EXCLUDE_IN_ANAT T ++ d_t1 ++ d_t2)) in
  let d_flair :=
    call T df_imaging SUFFIX_FLAIR (Some (EXCLUDE_IN_ANAT T ++ d_t1 ++ d_t2)) in
  {| dwi := d_dwi; func := d_func; T1 := d_t1; T2 := d_t2;
     T2_star := d_t2_star; FLAIR := d_flair |}.

(** The [descriptions] dictionary as [run] fills it. *)
Definition to_json (T : Tables) (d : Descriptions) : Json :=
  JDict [ (key_name T DATATYPE_DWI, JList (dwi d));
          (key_name T DATATYPE_FUNC, JList (func d));
          (key_name T DATATYPE_ANAT,
           JDict [ (key_name T SUFFIX_T1, JList (T1 d));
                   (key_name T SUFFIX_T2, JList (T2 d));
                   (key_name T SUFFIX_T2_STAR, JList (T2_star d));
                   (key_name T SUFFIX_FLAIR, JList (FLAIR d)) ]) ].

(** The second output of [run]: the descriptions of the file that no list
    holds. *)
Definition ignored (descriptions_all : list string) (df_imaging : list ImagingInfo)
    : list string :=
  Str.sorted (Str.drop_duplicates
    (List.filter (fun d => negb (Str.isin d descriptions_all))
       (map info_description df_imaging))).

(** [run], from the loaded frame to the two values it saves: the mapping
    and the ignored descriptions.  The files are written only if they do not
    exist yet or the overwrite flag is set; that check is not part of the
    embedding. *)
Definition run (T : Tables) (df_imaging : list ImagingInfo) : Json * list string :=
  let descriptions := to_json T (classify T df_imaging) in
  let descriptions_all := get_all_descriptions descriptions in
  (descriptions, ignored descriptions_all df_imaging).

End filter_image_descriptions.

(* ===================================================================== *)
(** * tabular/generate_manifest.py                                        *)
(* ===================================================================== *)

Module generate_manifest.

Import filter_image_descriptions.

(** ** Constants of the module *)

Definition GROUPS_KEEP : list string :=
  ["Parkinson's Disease"; "Prodromal"; "Healthy Control"; "SWEDD"; "GenReg Unaff"].

Definition VISIT_IMAGING_MAP : gmap string string :=
  list_to_map
    [ ("Baseline", "BL"); ("Month 6", "R01"); ("Month 12", "V04");
      ("Month 24", "V06"); ("Month 36", "V08"); ("Month 48", "V10");
      ("Screening", "SC"); ("Premature Withdrawal", "PW");
      ("Symptomatic Therapy", "ST"); ("Unscheduled Visit 01", "U01");
      ("Unscheduled Visit 02", "U02") ].

Definition GROUP_IMAGING_MAP : gmap string string :=
  list_to_map
    [ ("PD", "Parkinson's Disease"); ("Prodromal", "Prodromal");
      ("Control", "Healthy Control"); ("Phantom", "Phantom");
      ("SWEDD", "SWEDD"); ("GenReg Unaff", "GenReg Unaff") ].

Definition VISIT_SESSION_MAP : gmap string string :=
  list_to_map
    [ ("BL", "1"); ("V04", "5"); ("V06", "7"); ("V08", "9"); ("V10", "11");
      ("PW", "30"); ("ST", "21"); ("U02", "91"); ("U01", "90"); ("SC", "0");
      ("R01", "3") ].

(** [DATATYPES = [DATATYPE_ANAT, DATATYPE_DWI, DATATYPE_FUNC]]; the three
    names come from the classifier's tables. *)
Definition DATATYPES (T : Tables) : list string :=
  [key_name T DATATYPE_ANAT; key_name T DATATYPE_DWI; key_name T DATATYPE_FUNC].

Definition PATTERN_BIDS_SESSION (session : string) : string :=
  ("ses-" ++ session)%string.

(** ** Frames *)

(** A row of the imaging file as read: subject, visit, research group and
    description. *)
Record ImagingRow := {
  Subject_ID : string;
  Visit : string;
  Research_Group : string;
  Description : string;
}.

(** A row of the imaging frame once its columns are renamed and mapped.  The
    description sits in the column that will hold the datatypes. *)
Record Imaging := {
  img_participant_id : string;
  img_visit : string;
  img_session : option string;
  img_group : string;
  img_description : string;
}.

(** A row of a tabular file: the subject and the visit (the other columns do
    not reach the manifest). *)
Record Tabular := {
  PATNO : string;
  EVENT_ID : string;
}.

(** A row of the participant status file. *)
Record Status := {
  status_PATNO : string;
  COHORT_DEFINITION : option string;
}.

(** A row of the tabular frame after the group is merged in. *)
Record TabularGroup := {
  tab_participant_id : string;
  tab_visit : string;
  tab_group : option string;
}.

(** A row of the imaging frame after [groupby(...).aggregate(...)]. *)
Record ImagingAvailability := {
  av_participant_id : string;
  av_visit : string;
  av_session : string;
  av_datatype : list string;
}.

Inductive MergeIndicator := left_only | right_only | both.

(** A row of the outer merge. *)
Record Merged := {
  mg_participant_id : string;
  mg_visit : string;
  mg_session : option string;
  mg_datatype : option (list string);
  mg_merge : MergeIndicator;
}.

(** A row of the manifest, in the order of [COLS_MANIFEST]. *)
Record ManifestRow := {
  participant_id : string;
  participant_dicom_dir : option string;
  visit : string;
  session : option string;
  datatype : list string;
  bids_id : option string;
}.

(** A frame whose index labels matter: the labels next to the rows. *)
Definition Frame (A : Type) : Type := list (nat * A).

Definition range_index {A : Type} (rows : list A) : Frame A :=
  combine (seq 0 (length rows)) rows.

Definition reset_index {A : Type} (df : Frame A) : Frame A :=
  range_index (map snd df).

Global Instance ManifestRow_eq_dec : EqDecision ManifestRow.
Proof. solve_decision. Defined.

(** ** Errors and warnings *)

Inductive Exception :=
| ValueError_invalid_visit_session_map
| RuntimeError_visit_without_mapping (visit : string)
| RuntimeError_group_without_mapping (group : string)
| RuntimeError_bids_id
| KeyError_index (label : nat)
| AttributeError_NoneType
| FileExistsError.

Inductive Warning :=
| duplicate_description (description : string)
| missing_session_mappings (visits : gset string)
| subjects_without_group (subjects : list string)
| groups_not_filled
| sessions_not_encountered (sessions : gset string)
| groups_not_encountered (groups : gset string)
| datatypes_not_encountered (datatypes : gset string)
| imaging_without_tabular (rows : list Merged).

(** The run either raises or goes on, and logs warnings on its way. *)
Definition M (A : Type) : Type := list Warning -> (Exception + A) * list Warning.

Definition ret {A : Type} (a : A) : M A := fun log => (inr a, log).

Definition bind {A B : Type} (m : M A) (f : A -> M B) : M B :=
  fun log =>
    match m log with
    | (inl e, log') => (inl e, log')
    | (inr a, log') => f a log'
    end.

Definition raise {A : Type} (e : Exception) : M A := fun log => (inl e, log).

Definition warn (w : Warning) : M unit := fun log => (inr tt, log ++ [w]).

Definition warn_if (b : bool) (w : Warning) : M unit :=
  if b then warn w else ret tt.

Definition warn_all (ws : list Warning) : M unit := fun log => (inr tt, log ++ ws).

Global Instance M_ret : MRet M := @ret.
Global Instance M_bind : MBind M := fun A B f m => bind m f.

(** ** The steps of [run] *)

Definition validate_visit_session_map (visit_session_map : gmap string string)
    (SESSIONS : list string) : M unit :=
  let values : gset string := list_to_set (map snd (map_to_list visit_session_map)) in
  if decide (list_to_set SESSIONS ∖ values = (∅ : gset string)) then ret tt
  else raise ValueError_invalid_visit_session_map.

(** The tabular files, one below the other, less the repeated
    (subject, visit) pairs.  A file is a list of rows that have the two
    columns; [run] rejects a file that lacks one of them before this point. *)
Definition load_tabular (files : list (list Tabular)) : list Tabular :=
  Str.drop_duplicates_on (fun r => (PATNO r, EVENT_ID r)) (concat files).

(** [df_tabular = None], the loop of [pd.concat] over the files, then
    [df_tabular.drop_duplicates(...)]: with no file [df_tabular] is still
    [None] there, and the call raises [AttributeError]. *)
Definition read_tabular (files : list (list Tabular)) : M (list Tabular) :=
  match files with
  | [] => raise AttributeError_NoneType
  | _ :: _ => ret (load_tabular files)
  end.

(** What [for description in descriptions] runs over: the elements of a
    list, the keys of a dictionary. *)
Definition iterate (descriptions : Json) : list string :=
  match descriptions with
  | JList l => l
  | JDict items => map fst items
  end.

(** The body of the inner loop of the reversal. *)
Definition reverse_step (datatype : string)
    (st : gmap string string * list Warning) (description : string)
    : gmap string string * list Warning :=
  let '(description_datatype_map, log) := st in
  let log :=
    if decide (is_Some (description_datatype_map !! description))
    then log ++ [duplicate_description description] else log in
  (<[description := datatype]> description_datatype_map, log).

(** The reversal of the mapping, with the warnings it logs. *)
Definition reverse_mapping (datatypes : list string)
    (datatype_descriptions_map : list (string * Json))
    : gmap string string * list Warning :=
  foldl (fun st '(datatype, descriptions) =>
           if Str.isin datatype datatypes
           then foldl (reverse_step datatype) st (iterate descriptions)
           else st)
        (∅, []) datatype_descriptions_map.

(** [df_imaging[col].apply(lambda x: table[x])]: the first missing key
    raises. *)
Fixpoint lookup_all (table : gmap string string) (xs : list string)
    : string + list string :=
  match xs with
  | [] => inr []
  | x :: xs' =>
      match table !! x with
      | None => inl x
      | Some y =>
          match lookup_all table xs' with
          | inl x' => inl x'
          | inr ys => inr (y :: ys)
          end
      end
  end.

(** The normalisation of the imaging frame: visits, sessions, groups. *)
Definition normalize_imaging
    (visit_imaging_map visit_session_map group_imaging_map : gmap string string)
    (df_imaging : list ImagingRow) : M (list Imaging) :=
  match lookup_all visit_imaging_map (map Visit df_imaging) with
  | inl visit => raise (RuntimeError_visit_without_mapping visit)
  | inr visits =>
      let missing : gset string := list_to_set visits ∖ dom visit_session_map in
      warn_if (bool_decide (missing ≠ ∅)) (missing_session_mappings missing) ;;
      match lookup_all group_imaging_map (map Research_Group df_imaging) with
      | inl group => raise (RuntimeError_group_without_mapping group)
      | inr groups =>
          ret (map (fun '(r, visit, group) =>
                      {| img_participant_id := Subject_ID r;
                         img_visit := visit;
                         img_session := visit_session_map !! visit;
                         img_group := group;
                         img_description := Description r |})
                   (combine (combine df_imaging visits) groups))
      end
  end.

(** [df_tabular.merge(df_group[[subject, group]], on=subject, how='left')]. *)
Definition merge_group (df_tabular : list Tabular) (df_group : list Status)
    : list TabularGroup :=
  flat_map
    (fun t =>
       let row g := {| tab_participant_id := PATNO t; tab_visit := EVENT_ID t;
                       tab_group := g |} in
       match List.filter (fun s => String.eqb (status_PATNO s) (PATNO t)) df_group with
       | [] => [row None]
       | matches => map (fun s => row (COHORT_DEFINITION s)) matches
       end)
    df_tabular.

(** The body of the loop that looks a missing group up in the imaging
    frame: [group.item()] succeeds on exactly one value. *)
Definition fill_group (df_imaging : list Imaging) (row : TabularGroup) : TabularGroup :=
  match tab_group row with
  | Some _ => row
  | None =>
      match Str.drop_duplicates
              (map img_group
                 (List.filter
                    (fun r => String.eqb (img_participant_id r) (tab_participant_id row))
                    df_imaging)) with
      | [group] => {| tab_participant_id := tab_participant_id row;
                      tab_visit := tab_visit row; tab_group := Some group |}
      | _ => row
      end
  end.

Definition isna {A : Type} (x : option A) : bool :=
  match x with None => true | Some _ => false end.

Definition add_group (df_tabular : list Tabular) (df_group : list Status)
    (df_imaging : list Imaging) : M (list TabularGroup) :=
  let df_tabular := merge_group df_tabular df_group in
  if existsb (fun r => isna (tab_group r)) df_tabular then
    warn (subjects_without_group
            (map tab_participant_id
               (List.filter (fun r => isna (tab_group r)) df_tabular))) ;;
    let df_tabular := map (fill_group df_imaging) df_tabular in
    warn_if (existsb (fun r => isna (tab_group r)) df_tabular) groups_not_filled ;;
    ret df_tabular
  else ret df_tabular.

Definition isin_option (x : option string) (xs : list string) : bool :=
  match x with Some s => Str.isin s xs | None => false end.

(** The sessions and groups kept in the imaging frame. *)
Definition keep_imaging (SESSIONS : list string) (df_imaging : list Imaging)
    : M (list Imaging) :=
  let diff_sessions : gset string :=
    list_to_set SESSIONS ∖ list_to_set (omap img_session df_imaging) in
  warn_if (bool_decide (diff_sessions ≠ ∅)) (sessions_not_encountered diff_sessions) ;;
  let df_imaging :=
    List.filter (fun r => isin_option (img_session r) SESSIONS) df_imaging in
  let diff_groups : gset string :=
    list_to_set GROUPS_KEEP ∖ list_to_set (map img_group df_imaging) in
  warn_if (bool_decide (diff_groups ≠ ∅)) (groups_not_encountered diff_groups) ;;
  ret (List.filter (fun r => Str.isin (img_group r) GROUPS_KEEP) df_imaging).

Definition get_datatype_list (descriptions : list string)
    (description_datatype_map : gmap string string) : list string :=
  Str.sorted (Str.drop_duplicates
    (omap (fun d => description_datatype_map !! d) descriptions)).

(** The key of the [groupby]; a row with a missing session belongs to no
    group. *)
Definition group_key (r : Imaging) : option (string * (string * string)) :=
  match img_session r with
  | Some s => Some (img_participant_id r, (img_visit r, s))
  | None => None
  end.

Definition key_leb : string * (string * string) -> string * (string * string) -> bool :=
  Str.pair_leb (Str.pair_leb String.leb).

(** [df_imaging.groupby([subject, visit, session])[datatype].aggregate(...)]
    and [reset_index()]: one row per key, the keys in order. *)
Definition aggregate (description_datatype_map : gmap string string)
    (df_imaging : list Imaging) : list ImagingAvailability :=
  let keys :=
    Str.sort_by key_leb (Str.drop_duplicates_on (fun k => k) (omap group_key df_imaging)) in
  map (fun k =>
         {| av_participant_id := fst k;
            av_visit := fst (snd k);
            av_session := snd (snd k);
            av_datatype :=
              get_datatype_list
                (map img_description
                   (List.filter (fun r => bool_decide (group_key r = Some k)) df_imaging))
                description_datatype_map |})
      keys.

Definition aggregate_imaging (datatypes : list string)
    (description_datatype_map : gmap string string) (df_imaging : list Imaging)
    : M (list ImagingAvailability) :=
  let df := aggregate description_datatype_map df_imaging in
  let seen_datatypes : gset string := list_to_set (concat (map av_datatype df)) in
  let diff_datatypes : gset string := list_to_set datatypes ∖ seen_datatypes in
  warn_if (bool_decide (diff_datatypes ≠ ∅)) (datatypes_not_encountered diff_datatypes) ;;
  ret df.

Definition keep_tabular (df_tabular : list TabularGroup) : list TabularGroup :=
  List.filter (fun r => isin_option (tab_group r) GROUPS_KEEP) df_tabular.

Definition same_key (t : TabularGroup) (i : ImagingAvailability) : bool :=
  String.eqb (tab_participant_id t) (av_participant_id i)
  && String.eqb (tab_visit t) (av_visit i).

(** [df_tabular.merge(df_imaging, how='outer', on=[subject, visit],
    indicator=True)].  The rows are sorted on the same two columns before
    anything reads their order. *)
Definition merge_outer (df_tabular : list TabularGroup)
    (df_imaging : list ImagingAvailability) : list Merged :=
  flat_map
    (fun t =>
       match List.filter (same_key t) df_imaging with
       | [] => [ {| mg_participant_id := tab_participant_id t;
                    mg_visit := tab_visit t; mg_session := None;
                    mg_datatype := None; mg_merge := left_only |} ]
       | matches =>
           map (fun i => {| mg_participant_id := tab_participant_id t;
                            mg_visit := tab_visit t;
                            mg_session := Some (av_session i);
                            mg_datatype := Some (av_datatype i);
                            mg_merge := both |})
               matches
       end)
    df_tabular
  ++ map (fun i => {| mg_participant_id := av_participant_id i;
                      mg_visit := av_visit i;
                      mg_session := Some (av_session i);
                      mg_datatype := Some (av_datatype i);
                      mg_merge := right_only |})
         (List.filter (fun i => negb (existsb (fun t => same_key t i) df_tabular))
            df_imaging).

Definition is_right_only (r : Merged) : bool :=
  match mg_merge r with right_only => true | _ => false end.

(** The datatype and session columns as the manifest wants them, and the
    columns of [COLS_MANIFEST]; the two columns the merge does not bring are
    filled with NaN. *)
Definition manifest_row (r : Merged) : ManifestRow :=
  {| participant_id := mg_participant_id r;
     participant_dicom_dir := None;
     visit := mg_visit r;
     session := option_map PATTERN_BIDS_SESSION (mg_session r);
     datatype := match mg_datatype r with Some l => l | None => [] end;
     bids_id := None |}.

Definition manifest_leb (a b : nat * ManifestRow) : bool :=
  Str.pair_leb String.leb
    (participant_id (snd a), visit (snd a)) (participant_id (snd b), visit (snd b)).

(** [sort_values([subject, visit])] and [reset_index(drop=True)]. *)
Definition sort_manifest (rows : list ManifestRow) : Frame ManifestRow :=
  reset_index (Str.sort_by manifest_leb (range_index rows)).

(** [df_manifest.loc[labels, COL_BIDS_ID_MANIFEST] = values]: every label
    has to be in the index. *)
Fixpoint set_bids_id (updates : list (nat * option string))
    (df_manifest : Frame ManifestRow) : M (Frame ManifestRow) :=
  match updates with
  | [] => ret df_manifest
  | (label, value) :: updates' =>
      if existsb (Nat.eqb label) (map fst df_manifest) then
        set_bids_id updates'
          (map (fun '(i, r) =>
                  if Nat.eqb i label
                  then (i, {| participant_id := participant_id r;
                              participant_dicom_dir := participant_dicom_dir r;
                              visit := visit r; session := session r;
                              datatype := datatype r; bids_id := value |})
                  else (i, r))
               df_manifest)
      else raise (KeyError_index label)
  end.

(** The catalog, [workflow.catalog.read_manifest]: from the snapshot of the
    manifest and a session, the labels of some rows with their identifiers. *)
Definition Catalog : Type := list ManifestRow -> string -> list (nat * option string).

(** The loop over the sessions that fills the identifier column. *)
Fixpoint populate_bids_id (read_manifest : Catalog) (snapshot : list ManifestRow)
    (sessions : list string) (df_manifest : Frame ManifestRow)
    : M (Frame ManifestRow) :=
  match sessions with
  | [] => ret df_manifest
  | session :: sessions' =>
      let df_manifest_with_bids_id := read_manifest snapshot session in
      match df_manifest_with_bids_id with
      | [] => raise RuntimeError_bids_id
      | _ =>
          df_manifest ← set_bids_id df_manifest_with_bids_id df_manifest;
          populate_bids_id read_manifest snapshot sessions' df_manifest
      end
  end.

(** From the loaded files to the frame [run] is about to save. *)
Definition build_manifest (T : Tables) (read_manifest : Catalog)
    (SESSIONS : list string) (df_imaging : list ImagingRow)
    (tabular_files : list (list Tabular)) (df_group : list Status)
    (datatype_descriptions_map : list (string * Json)) : M (Frame ManifestRow) :=
  validate_visit_session_map VISIT_SESSION_MAP SESSIONS ;;
  df_tabular ← read_tabular tabular_files;
  let '(description_datatype_map, warnings) :=
    reverse_mapping (DATATYPES T) datatype_descriptions_map in
  warn_all warnings ;;
  df_imaging ←
    normalize_imaging VISIT_IMAGING_MAP VISIT_SESSION_MAP GROUP_IMAGING_MAP df_imaging;
  df_tabular ← add_group df_tabular df_group df_imaging;
  df_imaging ← keep_imaging SESSIONS df_imaging;
  df_imaging ← aggregate_imaging (DATATYPES T) description_datatype_map df_imaging;
  let df_tabular := keep_tabular df_tabular in
  let df_merged := merge_outer df_tabular df_imaging in
  warn_if (existsb is_right_only df_merged)
    (imaging_without_tabular (List.filter is_right_only df_merged)) ;;
  let sessions_without_bids_prefix := Str.drop_duplicates (omap mg_session df_merged) in
  let df_manifest := sort_manifest (map manifest_row df_merged) in
  populate_bids_id read_manifest (map snd df_manifest) sessions_without_bids_prefix
    df_manifest.

(** ** The manifest file *)

(** The reading and writing of the manifest file: [to_csv] drops the index,
    [read_csv] gives the rows a fresh one. *)
Record CsvIO (File : Type) := {
  to_csv : list ManifestRow -> File;
  read_csv : File -> list ManifestRow;
}.
Arguments to_csv {File}.
Arguments read_csv {File}.

Inductive Outcome := found_same_manifest | file_written.

(** The end of [run]: compare with the file that is there, then write. *)
Definition save_manifest {File : Type} (io : CsvIO File) (overwrite : bool)
    (df_manifest : Frame ManifestRow) (fpath_manifest : option File)
    : (Exception + Outcome) * option File :=
  let write := (inr file_written, Some (to_csv io (map snd df_manifest))) in
  match fpath_manifest with
  | Some file =>
      let df_manifest_old := range_index (read_csv io file) in
      if bool_decide (df_manifest = df_manifest_old)
      then (inr found_same_manifest, fpath_manifest)
      else if negb overwrite then (inl FileExistsError, fpath_manifest)
      else write
  | None => write
  end.

(** [run]: the outcome, the manifest file afterwards, and the warnings. *)
Definition run {File : Type} (io : CsvIO File) (T : Tables) (read_manifest : Catalog)
    (SESSIONS : list string) (df_imaging : list ImagingRow)
    (tabular_files : list (list Tabular)) (df_group : list Status)
    (datatype_descriptions_map : list (string * Json))
    (overwrite : bool) (fpath_manifest : option File)
    : (Exception + Outcome) * option File * list Warning :=
  match build_manifest T read_manifest SESSIONS df_imaging tabular_files df_group
          datatype_descriptions_map [] with
  | (inl e, log) => (inl e, fpath_manifest, log)
  | (inr df_manifest, log) =>
      (save_manifest io overwrite df_manifest fpath_manifest, log)
  end.

End generate_manifest.

(* ===================================================================== *)
(** * Vocabulary of the properties, and sample inputs                     *)
(* ===================================================================== *)

(** A list of strings in ascending order. *)
Definition ascending (l : list string) : Prop :=
  StronglySorted (fun a b => String.leb a b = true) l.

(** A description holds one of the words, whatever the case of the
    letters. *)
Definition contains_any (words : list string) (description : string) : bool :=
  existsb (fun w => Str.occurs (Str.lower w) (Str.lower description)) words.

(** A word without a bar. *)
Fixpoint bar_free (w : string) : bool :=
  match w with
  | EmptyString => true
  | String c w' => negb (Ascii.eqb c "|") && bar_free w'
  end.

(** The four lists of the anatomical subtypes share no description. *)
Definition subtypes_disjoint (c : filter_image_descriptions.Descriptions) : Prop :=
  let t1 := filter_image_descriptions.T1 c in
  let t2 := filter_image_descriptions.T2 c in
  let t2_star := filter_image_descriptions.T2_star c in
  let flair := filter_image_descriptions.FLAIR c in
  t1 ## t2 /\ t1 ## t2_star /\ t1 ## flair /\
  t2 ## t2_star /\ t2 ## flair /\ t2_star ## flair.

Module Samples.

Import filter_image_descriptions.

Definition names (k : Key) : string :=
  match k with
  | DATATYPE_DWI => "dwi"
  | DATATYPE_FUNC => "func"
  | DATATYPE_ANAT => "anat"
  | SUFFIX_T1 => "T1w"
  | SUFFIX_T2 => "T2w"
  | SUFFIX_T2_STAR => "T2starw"
  | SUFFIX_FLAIR => "FLAIR"
  end.

Definition rule (common : list string) (rejected : option (list string)) : Kwargs :=
  {| common_substrings := common;
     reject_substrings := rejected;
     reject_substrings_exceptions := None;
     exclude_in := None;
     exclude_out := None;
     protocol_include := None;
     protocol_exclude := None |}.

(** A small filter table in the shape of the example of the
    specification. *)
Definition tables : Tables :=
  {| MODALITY_ANAT := "MRI";
     MODALITY_DWI := "DTI";
     MODALITY_FUNC := "fMRI";
     EXCLUDE_IN_ANAT := [];
     EXCLUDE_IN_ANAT_T1 := [];
     key_name := names;
     FILTERS := fun k =>
       match k with
       | DATATYPE_DWI => rule ["dti"] (Some ["calibration"])
       | DATATYPE_FUNC => rule ["bold"] None
       | DATATYPE_ANAT => rule ["t1"; "t2"; "flair"] None
       | SUFFIX_T1 => rule ["t1"] (Some ["t2"; "flair"; "star"])
       | SUFFIX_T2 => rule ["t2"] (Some ["t1"; "flair"; "star"])
       | SUFFIX_T2_STAR => rule ["star"] None
       | SUFFIX_FLAIR => rule ["flair"] None
       end |}.

Definition info (description modality : string) : ImagingInfo :=
  {| info_description := description; info_modality := modality;
     info_protocol := None |}.

(** The records of the example of the specification. *)
Definition df_spec_example : list ImagingInfo :=
  [ info "dti_32dir" "DTI"; info "dti_calibration" "DTI"; info "t1_mprage" "T1" ].

(** A scan filed under the diffusion modality whose description names two
    anatomical contrasts. *)
Definition df_two_contrasts : list ImagingInfo :=
  [ info "T1_T2_ratio" "DTI"; info "T1 MPRAGE" "MRI" ].

(** An anatomical scan whose description names both T2-star and FLAIR. *)
Definition df_star_flair : list ImagingInfo :=
  [ info "FLAIR_star" "MRI" ].

End Samples.

Module ReversalSpec.

Import filter_image_descriptions generate_manifest.

(** The assignments the reversal performs, in the order it performs
    them: description and datatype. *)
Definition writes (datatypes : list string)
    (datatype_descriptions_map : list (string * Json)) : list (string * string) :=
  flat_map (fun '(datatype, descriptions) =>
              if Str.isin datatype datatypes
              then map (fun description => (description, datatype)) (iterate descriptions)
              else [])
           datatype_descriptions_map.

(** One assignment of the reversal, on the pair it assigns. *)
Definition assign (st : gmap string string * list Warning) (w : string * string)
    : gmap string string * list Warning :=
  reverse_step w.2 st w.1.

(** The datatype a description is left with after a run of assignments. *)
Fixpoint last_write (description : string) (ws : list (string * string))
    (current : option string) : option string :=
  match ws with
  | [] => current
  | (d, datatype) :: ws' =>
      last_write description ws'
        (if decide (d = description) then Some datatype else current)
  end.

(** C2 as it is stated: every description listed under a recognised
    datatype, at any depth, is mapped to that datatype. *)
Definition maps_every_listed (datatypes : list string)
    (datatype_descriptions_map : list (string * Json)) : Prop :=
  forall datatype descriptions d,
    (datatype, descriptions) ∈ datatype_descriptions_map ->
    datatype ∈ datatypes ->
    d ∈ get_all_descriptions descriptions ->
    (reverse_mapping datatypes datatype_descriptions_map).1 !! d = Some datatype.

(** A mapping that lists one description under two datatypes. *)
Definition listed_twice : list (string * Json) :=
  [ ("dwi", JList ["DTI_gated"; "ep2d_diff"]); ("func", JList ["ep2d_bold"; "ep2d_diff"]) ].

(** What [json.load] hands to the builder when the file is the one the
    classifier wrote for [Samples.df_two_contrasts]: the items of the
    dictionary. *)
Definition classifier_output : list (string * Json) :=
  match (filter_image_descriptions.run Samples.tables Samples.df_two_contrasts).1 with
  | JDict items => items
  | JList _ => []
  end.

(** A mapping in the shape the classifier writes: the anatomical
    descriptions sit one level down, under the subtypes. *)
Definition nested_anat : list (string * Json) :=
  [ ("dwi", JList ["DTI_gated"]);
    ("func", JList ["ep2d_bold"]);
    ("anat", JDict [ ("T1w", JList ["MPRAGE"]); ("T2w", JList []);
                     ("T2starw", JList []); ("FLAIR", JList []) ]) ].

End ReversalSpec.

Module ManifestSamples.

Import filter_image_descriptions generate_manifest.

(** A visit table with a visit whose code has no session. *)
Definition visit_map_with_month_60 : gmap string string :=
  <["Month 60" := "V12"]> VISIT_IMAGING_MAP.

Definition imaging_row (subject visit group description : string) : ImagingRow :=
  {| Subject_ID := subject; Visit := visit; Research_Group := group;
     Description := description |}.

Definition df_imaging : list ImagingRow :=
  [ imaging_row "3001" "Baseline" "PD" "DTI_gated";
    imaging_row "3001" "Month 12" "PD" "ep2d_bold";
    imaging_row "3002" "Baseline" "Control" "ep2d_diff" ].

Definition df_imaging_month_60 : list ImagingRow :=
  [ imaging_row "3001" "Baseline" "PD" "DTI_gated";
    imaging_row "3001" "Month 60" "PD" "DTI_gated" ].

Definition df_imaging_unknown_visit : list ImagingRow :=
  [ imaging_row "3001" "Baseline" "PD" "DTI_gated";
    imaging_row "3001" "Week 2" "PD" "DTI_gated" ].

Definition df_imaging_unknown_group : list ImagingRow :=
  [ imaging_row "3001" "Baseline" "PD" "DTI_gated";
    imaging_row "3005" "Baseline" "Early Imaging" "DTI_gated" ].

Definition tabular_files : list (list Tabular) :=
  [ [ {| PATNO := "3001"; EVENT_ID := "BL" |};
      {| PATNO := "3003"; EVENT_ID := "BL" |} ];
    [ {| PATNO := "3001"; EVENT_ID := "BL" |};
      {| PATNO := "3001"; EVENT_ID := "V04" |} ] ].

Definition df_group : list Status :=
  [ {| status_PATNO := "3001"; COHORT_DEFINITION := Some "Parkinson's Disease" |};
    {| status_PATNO := "3003"; COHORT_DEFINITION := Some "Prodromal" |} ].

(** A participant status file that lists a subject twice. *)
Definition df_group_repeated : list Status :=
  [ {| status_PATNO := "3001"; COHORT_DEFINITION := Some "Parkinson's Disease" |};
    {| status_PATNO := "3003"; COHORT_DEFINITION := Some "Prodromal" |};
    {| status_PATNO := "3003"; COHORT_DEFINITION := Some "Prodromal" |} ].

Definition SESSIONS : list string := ["1"; "5"].

(** A catalog that knows the first row of the snapshot. *)
Definition catalog : Catalog :=
  fun snapshot session =>
    match snapshot with
    | r :: _ => [(0, Some ("sub-" ++ participant_id r)%string)]
    | [] => []
    end.

(** A manifest file that holds the rows as they are. *)
Definition rows_io : CsvIO (list ManifestRow) :=
  {| to_csv := fun rows => rows; read_csv := fun file => file |}.

(** A manifest file with a detail of layout that reading ignores (how the
    fields are quoted, say): the flag is the detail, writing leaves it
    off. *)
Definition layout_io : CsvIO (bool * list ManifestRow) :=
  {| to_csv := fun rows => (false, rows); read_csv := fun file => file.2 |}.

End ManifestSamples.

Module ManifestSpec.

Import filter_image_descriptions generate_manifest.

(** The rows of the normalised frame, one for each row read. *)
Definition normalised (visit_imaging_map visit_session_map group_imaging_map
    : gmap string string) (r : ImagingRow) (row : Imaging) : Prop :=
  visit_imaging_map !! Visit r = Some (img_visit row)
  /\ group_imaging_map !! Research_Group r = Some (img_group row)
  /\ img_session row = visit_session_map !! img_visit row
  /\ img_participant_id row = Subject_ID r
  /\ img_description row = Description r.

(** The (subject, visit) pair of a row, in each of the frames. *)
Definition tab_key (t : TabularGroup) : string * string :=
  (tab_participant_id t, tab_visit t).
Definition img_key (r : Imaging) : string * string :=
  (img_participant_id r, img_visit r).
Definition av_key (i : ImagingAvailability) : string * string :=
  (av_participant_id i, av_visit i).
Definition mg_key (x : Merged) : string * string :=
  (mg_participant_id x, mg_visit x).
Definition row_key (r : ManifestRow) : string * string :=
  (participant_id r, visit r).

(** The number of rows of the manifest that carry a pair. *)
Definition occurrences (p : string * string) (df_manifest : Frame ManifestRow) : nat :=
  length (List.filter (fun x => bool_decide (row_key x.2 = p)) df_manifest).

(** The tabular frame as it enters the merge: groups merged in and filled,
    rows of the groups to keep. *)
Definition filtered_tabular (tabular_files : list (list Tabular))
    (df_group : list Status) (df_imaging : list Imaging) : list TabularGroup :=
  keep_tabular
    (map (fill_group df_imaging) (merge_group (load_tabular tabular_files) df_group)).

(** The imaging frame after the two filters, before the aggregation. *)
Definition filtered_imaging (SESSIONS : list string) (df_imaging : list Imaging)
    : list Imaging :=
  List.filter (fun r => Str.isin (img_group r) GROUPS_KEEP)
    (List.filter (fun r => isin_option (img_session r) SESSIONS) df_imaging).

(** The imaging frame as it enters the merge. *)
Definition aggregated_imaging (T : Tables) (SESSIONS : list string)
    (datatype_descriptions_map : list (string * Json)) (df_imaging : list Imaging)
    : list ImagingAvailability :=
  aggregate (reverse_mapping (DATATYPES T) datatype_descriptions_map).1
    (filtered_imaging SESSIONS df_imaging).

(** The manifest before the catalog fills the identifiers in. *)
Definition sorted_manifest (df_tabular : list TabularGroup)
    (df_imaging : list ImagingAvailability) : Frame ManifestRow :=
  sort_manifest (map manifest_row (merge_outer df_tabular df_imaging)).

(** A row without its identifier: what the catalog does not touch. *)
Definition without_bids_id (x : nat * ManifestRow) : nat * ManifestRow :=
  (x.1, {| participant_id := participant_id x.2;
           participant_dicom_dir := participant_dicom_dir x.2;
           visit := visit x.2; session := session x.2;
           datatype := datatype x.2; bids_id := None |}).

(** Rows in ascending order of subject, then of visit. *)
Definition in_key_order (rows : list ManifestRow) : Prop :=
  StronglySorted
    (fun a b => Str.pair_leb String.leb (row_key a) (row_key b) = true) rows.

(** C3 as it is stated, for one set of inputs: whenever the manifest is
    built, each pair of the filtered frames is carried by one row. *)
Definition one_row_per_pair (T : Tables) (read_manifest : Catalog)
    (SESSIONS : list string) (df_imaging : list ImagingRow)
    (tabular_files : list (list Tabular)) (df_group : list Status)
    (datatype_descriptions_map : list (string * Json)) : Prop :=
  forall df_manifest log normalised_imaging,
    build_manifest T read_manifest SESSIONS df_imaging tabular_files df_group
      datatype_descriptions_map [] = (inr df_manifest, log) ->
    (normalize_imaging VISIT_IMAGING_MAP VISIT_SESSION_MAP GROUP_IMAGING_MAP
       df_imaging []).1 = inr normalised_imaging ->
    forall p,
      p ∈ map tab_key (filtered_tabular tabular_files df_group normalised_imaging)
      \/ p ∈ map img_key (filtered_imaging SESSIONS normalised_imaging) ->
      occurrences p df_manifest = 1.

(** C4 as it is stated, for one set of inputs: a file that is there and is
    not byte for byte what writing the new manifest gives makes [run] raise,
    when the overwrite flag is not set. *)
Definition raises_unless_same_bytes {File : Type} (io : CsvIO File) (T : Tables)
    (read_manifest : Catalog) (SESSIONS : list string)
    (df_imaging : list ImagingRow) (tabular_files : list (list Tabular))
    (df_group : list Status) (datatype_descriptions_map : list (string * Json))
    : Prop :=
  forall df_manifest log file,
    build_manifest T read_manifest SESSIONS df_imaging tabular_files df_group
      datatype_descriptions_map [] = (inr df_manifest, log) ->
    file <> to_csv io (map snd df_manifest) ->
    run io T read_manifest SESSIONS df_imaging tabular_files df_group
      datatype_descriptions_map false (Some file)
    = (inl FileExistsError, Some file, log).

End ManifestSpec.

Module ClassifierFiles.

Import filter_image_descriptions.

(** The two files [run] writes, each missing or holding what was saved. *)
Record OutputFiles := {
  fpath_out_descriptions : option Json;
  fpath_out_ignored : option (list string);
}.

Inductive OutputFile := file_descriptions | file_ignored.

(** [FileExistsError(f'File exists: {fpath}. ...')], with the file named. *)
Inductive FileExistsError := File_exists (fpath : OutputFile).

(** [fpath.exists()]. *)
Definition file_exists {A : Type} (fpath : option A) : bool :=
  match fpath with Some _ => true | None => false end.

(** The end of [run]: the check of the two paths, then the two writes. *)
Definition save (overwrite : bool) (descriptions : Json) (df_ignored : list string)
    (files : OutputFiles) : (FileExistsError + unit) * OutputFiles :=
  if file_exists (fpath_out_descriptions files) && negb overwrite
  then (inl (File_exists file_descriptions), files)
  else if file_exists (fpath_out_ignored files) && negb overwrite
  then (inl (File_exists file_ignored), files)
  else (inr tt, {| fpath_out_descriptions := Some descriptions;
                   fpath_out_ignored := Some df_ignored |}).

(** [run] with its files. *)
Definition run_files (T : Tables) (df_imaging : list ImagingInfo) (overwrite : bool)
    (files : OutputFiles) : (FileExistsError + unit) * OutputFiles :=
  let '(descriptions, df_ignored) := run T df_imaging in
  save overwrite descriptions df_ignored files.

End ClassifierFiles.

Module ClassifierSpec.

Import filter_image_descriptions.

(** A description passes the rejection step: there is nothing to reject,
    or it matches no rejected pattern, or it matches the exceptions. *)
Definition survives (reject_substrings reject_substrings_exceptions : option (list string))
    (d : string) : bool :=
  match reject_substrings with
  | Some ((_ :: _) as rejected) =>
      negb (Str.lower_contains rejected d)
      || match reject_substrings_exceptions with
         | Some exceptions => Str.lower_contains exceptions d
         | None => false
         end
  | _ => true
  end.

(** A list of excluded descriptions that may be absent. *)
Definition listed (d : string) (excluded : option (list string)) : bool :=
  match excluded with
  | Some l => Str.isin d l
  | None => false
  end.

(** A row passes the protocol filters. *)
Definition passes_protocol (protocol_include protocol_exclude : option (list string))
    (r : ImagingInfo) : bool :=
  match protocol_include with
  | Some words => protocol_contains words r
  | None => true
  end
  && match protocol_exclude with
     | Some words => negb (protocol_contains words r)
     | None => true
     end.

(** The protocol cell of a row is not empty. *)
Definition has_protocol (r : ImagingInfo) : bool :=
  match info_protocol r with Some _ => true | None => false end.

(** ** The inputs the string operations are modelled on

    [str.contains] compiles its argument as a regular expression and
    [str.lower] knows the letters of Unicode; [Str.search] reads a pattern
    as literal alternatives and [Str.lower] knows the letters of ASCII.
    The two agree on text of ASCII and on words made of characters that a
    regular expression reads as themselves. *)

Definition is_ascii (c : ascii) : bool := (nat_of_ascii c <? 128)%nat.

(** The characters with a meaning of their own in a regular expression,
    the bar apart: the bar separates the alternatives, as in
    [Str.alternatives]. *)
Definition metacharacters : list ascii := list_ascii_of_string ".^$*+?{}[]\()".

Definition literal_char (c : ascii) : bool :=
  is_ascii c && negb (existsb (Ascii.eqb c) metacharacters).

Definition ascii_text (s : string) : bool :=
  forallb is_ascii (list_ascii_of_string s).

Definition literal_words (words : list string) : bool :=
  forallb (fun word => forallb literal_char (list_ascii_of_string word)) words.

Definition literal_option (words : option (list string)) : bool :=
  match words with
  | Some l => literal_words l
  | None => true
  end.

(** The descriptions and the protocol cells of a frame are text of ASCII. *)
Definition ascii_frame (df : list ImagingInfo) : bool :=
  forallb (fun r => ascii_text (info_description r)
                    && match info_protocol r with
                       | Some protocol => ascii_text protocol
                       | None => true
                       end)
          df.

(** [df[COL_PROTOCOL_IMAGING].str] is there: pandas reads a column with no
    text in it as numbers, and [.str] on it raises [AttributeError].  The
    accessor is only asked for when a protocol filter is given. *)
Definition protocol_is_text (protocol_include protocol_exclude : option (list string))
    (df : list ImagingInfo) : bool :=
  match protocol_include, protocol_exclude with
  | None, None => true
  | _, _ => existsb has_protocol df
  end.

(** The calls of [filter_descriptions] that the embedding follows. *)
Definition modelled (df : list ImagingInfo) (common_substrings : list string)
    (reject_substrings reject_substrings_exceptions
     protocol_include protocol_exclude : option (list string)) : bool :=
  literal_words common_substrings
  && literal_option reject_substrings
  && literal_option reject_substrings_exceptions
  && literal_option protocol_include
  && literal_option protocol_exclude
  && ascii_frame df
  && protocol_is_text protocol_include protocol_exclude df.

End ClassifierSpec.

Module ClassifierSamples.

Import filter_image_descriptions.

Definition scan (description modality protocol : string) : ImagingInfo :=
  {| info_description := description; info_modality := modality;
     info_protocol := Some protocol |}.

(** Rows with an acquisition type, and one without. *)
Definition df_protocols : list ImagingInfo :=
  [ scan "DTI_gated" "DTI" "2D"; scan "DTI_calibration" "DTI" "2D";
    scan "ep2d_DTI_rest" "fMRI" "2D"; scan "DTI_3D" "DTI" "3D";
    Samples.info "DTI_localizer" "DTI" ].

End ClassifierSamples.

Module BuilderSamples.

Import filter_image_descriptions generate_manifest.

(** A catalog that finds nothing. *)
Definition empty_catalog : Catalog := fun _ _ => [].

(** A catalog that knows the second row of the snapshot. *)
Definition other_catalog : Catalog := fun _ _ => [(1, Some "sub-0001")].

End BuilderSamples.

(* ===================================================================== *)
(** * Facts about the string and list operations                          *)
(* ===================================================================== *)

Section StringOrder.

Lemma ascii_compare_refl (c : ascii) : Ascii.compare c c = Eq.
Proof. unfold Ascii.compare. apply N.compare_refl. Qed.

Lemma ascii_compare_lt_trans (a b c : ascii) :
  Ascii.compare a b = Lt -> Ascii.compare b c = Lt -> Ascii.compare a c = Lt.
Proof.
  unfold Ascii.compare. rewrite !N.compare_lt_iff. apply N.lt_trans.
Qed.

Lemma string_compare_refl (s : string) : String.compare s s = Eq.
Proof.
  induction s as [|c s IH]; simpl; [reflexivity|].
  now rewrite ascii_compare_refl.
Qed.

Lemma string_compare_eq (s1 s2 : string) : String.compare s1 s2 = Eq -> s1 = s2.
Proof. apply String.compare_eq_iff. Qed.

Lemma string_compare_lt_trans (s1 s2 s3 : string) :
  String.compare s1 s2 = Lt -> String.compare s2 s3 = Lt -> String.compare s1 s3 = Lt.
Proof.
  revert s2 s3.
  induction s1 as [|a s1 IH]; intros [|b s2] [|c s3]; simpl; try congruence.
  destruct (Ascii.compare a b) eqn:Hab; try discriminate.
  - apply Ascii.compare_eq_iff in Hab. subst b.
    destruct (Ascii.compare a c); try congruence. apply IH.
  - destruct (Ascii.compare b c) eqn:Hbc; try discriminate.
    + apply Ascii.compare_eq_iff in Hbc. subst c. now rewrite Hab.
    + now rewrite (ascii_compare_lt_trans a b c).
Qed.

Lemma string_compare_gt_lt (s1 s2 : string) :
  String.compare s1 s2 = Gt -> String.compare s2 s1 = Lt.
Proof.
  intros H. rewrite String.compare_antisym, H. reflexivity.
Qed.

Lemma string_leb_refl (s : string) : String.leb s s = true.
Proof. unfold String.leb. now rewrite string_compare_refl. Qed.

Lemma string_leb_trans (s1 s2 s3 : string) :
  String.leb s1 s2 = true -> String.leb s2 s3 = true -> String.leb s1 s3 = true.
Proof.
  unfold String.leb.
  destruct (String.compare s1 s2) eqn:H12; try discriminate; intros _.
  - apply string_compare_eq in H12. now subst s2.
  - destruct (String.compare s2 s3) eqn:H23; try discriminate; intros _.
    + apply string_compare_eq in H23. subst s3. now rewrite H12.
    + now rewrite (string_compare_lt_trans s1 s2 s3).
Qed.

(** The order on pairs inherits totality and transitivity. *)
Context {A : Type} (leb : A -> A -> bool).
Hypothesis leb_total : forall x y, leb x y = true \/ leb y x = true.
Hypothesis leb_trans : forall x y z, leb x y = true -> leb y z = true -> leb x z = true.

Lemma pair_leb_total (p q : string * A) :
  Str.pair_leb leb p q = true \/ Str.pair_leb leb q p = true.
Proof.
  unfold Str.pair_leb.
  destruct (String.compare p.1 q.1) eqn:H.
  - apply string_compare_eq in H. rewrite H, string_compare_refl. apply leb_total.
  - now left.
  - right. now rewrite (string_compare_gt_lt _ _ H).
Qed.

Lemma pair_leb_trans (p q r : string * A) :
  Str.pair_leb leb p q = true -> Str.pair_leb leb q r = true ->
  Str.pair_leb leb p r = true.
Proof.
  unfold Str.pair_leb.
  destruct (String.compare p.1 q.1) eqn:Hpq; try discriminate.
  - apply string_compare_eq in Hpq. rewrite Hpq.
    destruct (String.compare q.1 r.1); try discriminate; eauto.
  - intros _.
    destruct (String.compare q.1 r.1) eqn:Hqr; try discriminate.
    + apply string_compare_eq in Hqr. rewrite <- Hqr, Hpq. reflexivity.
    + intros _. now rewrite (string_compare_lt_trans _ _ _ Hpq Hqr).
Qed.

End StringOrder.

Section SortBy.

Context {A : Type} (leb : A -> A -> bool).
Hypothesis leb_total : forall x y, leb x y = true \/ leb y x = true.
Hypothesis leb_trans : forall x y z, leb x y = true -> leb y z = true -> leb x z = true.

Local Abbreviation R := (fun x y : A => leb x y = true).

Lemma insert_sorted_Permutation (x : A) (l : list A) :
  Permutation (Str.insert_sorted leb x l) (x :: l).
Proof.
  induction l as [|y l IH]; simpl; [reflexivity|].
  destruct (leb x y); [reflexivity|].
  rewrite IH. apply perm_swap.
Qed.

Lemma sort_by_Permutation (l : list A) : Permutation (Str.sort_by leb l) l.
Proof.
  induction l as [|x l IH]; simpl; [reflexivity|].
  rewrite insert_sorted_Permutation. now constructor.
Qed.

Lemma elem_of_sort_by (x : A) (l : list A) : x ∈ Str.sort_by leb l <-> x ∈ l.
Proof. now rewrite sort_by_Permutation. Qed.

Lemma length_sort_by (l : list A) : length (Str.sort_by leb l) = length l.
Proof. apply Permutation_length, sort_by_Permutation. Qed.

Lemma insert_sorted_StronglySorted (x : A) (l : list A) :
  StronglySorted R l -> StronglySorted R (Str.insert_sorted leb x l).
Proof.
  induction 1 as [|y l Hl IH Hy]; simpl.
  - repeat constructor.
  - destruct (leb x y) eqn:Hxy.
    + constructor; [now constructor|].
      constructor; [exact Hxy|].
      eapply Forall_impl; [exact Hy|]. intros z Hz. exact (leb_trans _ _ _ Hxy Hz).
    + constructor; [exact IH|].
      rewrite insert_sorted_Permutation. constructor; [|exact Hy].
      destruct (leb_total x y) as [H|H]; [congruence|exact H].
Qed.

Lemma sort_by_StronglySorted (l : list A) : StronglySorted R (Str.sort_by leb l).
Proof.
  induction l as [|x l IH]; simpl; [constructor|].
  now apply insert_sorted_StronglySorted.
Qed.

End SortBy.

Section DropDuplicates.

Context {K A : Type} `{EqDecision K} (key : A -> K).

Lemma elem_of_drop_duplicates_from (seen : list K) (l : list A) (x : A) :
  x ∈ Str.drop_duplicates_from key seen l -> x ∈ l /\ key x ∉ seen.
Proof.
  revert seen. induction l as [|y l IH]; intros seen; simpl.
  - intros H. inversion H.
  - destruct (decide (key y ∈ seen)) as [Hy|Hy].
    + intros H. apply IH in H as [H1 H2]. split; [now right|exact H2].
    + intros H. apply elem_of_cons in H as [->|H].
      * split; [now left|exact Hy].
      * apply IH in H as [H1 H2]. split; [now right|].
        intros Hin. apply H2. now right.
Qed.

Lemma key_drop_duplicates_from (seen : list K) (l : list A) (k : K) :
  k ∈ map key (Str.drop_duplicates_from key seen l) <-> k ∈ map key l /\ k ∉ seen.
Proof.
  revert seen. induction l as [|y l IH]; intros seen; simpl.
  - split; [intros H; inversion H|intros [H _]; inversion H].
  - destruct (decide (key y ∈ seen)) as [Hy|Hy].
    + rewrite IH, elem_of_cons. split; [tauto|].
      intros [[->|H] Hk]; tauto.
    + simpl. rewrite !elem_of_cons, IH, elem_of_cons.
      destruct (decide (k = key y)) as [->|Hne]; [tauto|]. tauto.
Qed.

Lemma NoDup_drop_duplicates_from (seen : list K) (l : list A) :
  NoDup (map key (Str.drop_duplicates_from key seen l)).
Proof.
  revert seen. induction l as [|y l IH]; intros seen; simpl.
  - constructor.
  - destruct (decide (key y ∈ seen)); [apply IH|].
    simpl. constructor; [|apply IH].
    rewrite key_drop_duplicates_from. intros [_ H]. apply H. now left.
Qed.

Lemma key_drop_duplicates_on (l : list A) (k : K) :
  k ∈ map key (Str.drop_duplicates_on key l) <-> k ∈ map key l.
Proof.
  unfold Str.drop_duplicates_on. rewrite key_drop_duplicates_from.
  split; [tauto|]. intros H. split; [exact H|]. intros H'. inversion H'.
Qed.

Lemma NoDup_drop_duplicates_on (l : list A) :
  NoDup (map key (Str.drop_duplicates_on key l)).
Proof. apply NoDup_drop_duplicates_from. Qed.

Lemma elem_of_drop_duplicates_on (l : list A) (x : A) :
  x ∈ Str.drop_duplicates_on key l -> x ∈ l.
Proof. intros H. now apply elem_of_drop_duplicates_from in H. Qed.

End DropDuplicates.

Lemma elem_of_drop_duplicates (l : list string) (x : string) :
  x ∈ Str.drop_duplicates l <-> x ∈ l.
Proof.
  unfold Str.drop_duplicates.
  rewrite <- (map_id (Str.drop_duplicates_on (fun x => x) l)) at 1.
  rewrite key_drop_duplicates_on. now rewrite map_id.
Qed.

Lemma NoDup_drop_duplicates (l : list string) : NoDup (Str.drop_duplicates l).
Proof.
  unfold Str.drop_duplicates.
  rewrite <- (map_id (Str.drop_duplicates_on (fun x => x) l)).
  apply NoDup_drop_duplicates_on.
Qed.

Lemma isin_true (x : string) (xs : list string) : Str.isin x xs = true <-> x ∈ xs.
Proof.
  unfold Str.isin. rewrite existsb_exists. split.
  - intros (y & Hy & Heq). apply String.eqb_eq in Heq. subst y.
    now apply list_elem_of_In.
  - intros H. exists x. split; [now apply list_elem_of_In|apply String.eqb_refl].
Qed.

Lemma isin_false (x : string) (xs : list string) : Str.isin x xs = false <-> x ∉ xs.
Proof.
  rewrite <- isin_true. destruct (Str.isin x xs); split; congruence.
Qed.

Lemma elem_of_filter_bool {A : Type} (f : A -> bool) (l : list A) (x : A) :
  x ∈ List.filter f l <-> x ∈ l /\ f x = true.
Proof. rewrite !list_elem_of_In. apply filter_In. Qed.

Lemma elem_of_sorted (l : list string) (x : string) : x ∈ Str.sorted l <-> x ∈ l.
Proof. apply elem_of_sort_by. Qed.

Lemma NoDup_sorted (l : list string) : NoDup l -> NoDup (Str.sorted l).
Proof.
  intros H. unfold Str.sorted. now rewrite sort_by_Permutation.
Qed.

(* ===================================================================== *)
(** * The description classifier                                          *)
(* ===================================================================== *)

Section Classifier.

Import filter_image_descriptions.

Variable T : Tables.

Lemma string_leb_total (s1 s2 : string) :
  String.leb s1 s2 = true \/ String.leb s2 s1 = true.
Proof. apply String.leb_total. Qed.

Lemma ascending_sorted (l : list string) : ascending (Str.sorted l).
Proof.
  apply sort_by_StronglySorted; [apply string_leb_total|apply string_leb_trans].
Qed.

(** What a call returns is what it kept within the modality together
    with what it recovered from the other modalities. *)
Lemma elem_of_filter_descriptions (df : list ImagingInfo) (datatype : Key)
    (common : list string) (rej exc ein eout pin pex : option (list string))
    (d : string) :
  d ∈ filter_descriptions T df datatype common rej exc ein eout pin pex <->
  d ∈ within_modality (DATATYPE_MODALITY_MAP T datatype)
        (protocol_filter pin pex df) rej exc ein
  \/ d ∈ descriptions_new common
          (within_modality (DATATYPE_MODALITY_MAP T datatype)
             (protocol_filter pin pex df) rej exc ein)
          (other_modalities (DATATYPE_MODALITY_MAP T datatype) eout
             (protocol_filter pin pex df)).
Proof.
  unfold filter_descriptions.
  now rewrite elem_of_sorted, elem_of_drop_duplicates, elem_of_app.
Qed.

Lemma elem_of_reject (rej exc : option (list string)) (l : list string) (d : string) :
  d ∈ reject rej exc l -> d ∈ l.
Proof.
  unfold reject. destruct rej as [[|w ws]|]; try done.
  rewrite elem_of_drop_duplicates, elem_of_app, elem_of_filter_bool.
  intros [[H _]|H]; [exact H|].
  destruct exc; [|inversion H].
  now apply elem_of_filter_bool in H as [H _].
Qed.

Lemma elem_of_remove_excluded (ex : list string) (l : list string) (d : string) :
  d ∈ remove_excluded (Some ex) l -> d ∈ l /\ d ∉ ex.
Proof.
  unfold remove_excluded. destruct ex as [|x ex].
  - intros H. split; [exact H|]. intros H'. inversion H'.
  - rewrite elem_of_filter_bool, negb_true_iff, isin_false. tauto.
Qed.

(** A description kept within the modality is none of the excluded
    ones. *)
Lemma within_modality_not_excluded (modality : string) (df : list ImagingInfo)
    (rej exc : option (list string)) (ex : list string) (d : string) :
  d ∈ within_modality modality df rej exc (Some ex) -> d ∉ ex.
Proof.
  unfold within_modality. intros H.
  apply elem_of_reject in H. now apply elem_of_remove_excluded in H as [_ H].
Qed.

Lemma protocol_filter_subset (pin pex : option (list string))
    (df : list ImagingInfo) (r : ImagingInfo) :
  r ∈ protocol_filter pin pex df -> r ∈ df.
Proof.
  unfold protocol_filter. intros H.
  destruct pex; [apply elem_of_filter_bool in H as [H _]|];
    (destruct pin; [now apply elem_of_filter_bool in H as [H _]|exact H]).
Qed.

Lemma other_modalities_spec (modality : string) (eout : option (list string))
    (df : list ImagingInfo) (r : ImagingInfo) :
  r ∈ other_modalities modality eout df -> r ∈ df /\ info_modality r <> modality.
Proof.
  unfold other_modalities. intros H.
  assert (r ∈ List.filter (fun r => negb (in_modality modality r)) df) as H'.
  { destruct eout as [[|x ex]|]; try exact H.
    now apply elem_of_filter_bool in H as [H _]. }
  apply elem_of_filter_bool in H' as [H1 H2]. split; [exact H1|].
  unfold in_modality in H2. apply negb_true_iff in H2.
  now apply String.eqb_neq in H2.
Qed.

(** A recovered description is the description of a row outside the
    modality. *)
Lemma descriptions_new_origin (common descriptions : list string)
    (rows : list ImagingInfo) (d : string) :
  d ∈ descriptions_new common descriptions rows ->
  exists r, r ∈ rows /\ info_description r = d /\ d ∉ descriptions.
Proof.
  unfold descriptions_new, value_counts.
  rewrite elem_of_drop_duplicates, list_elem_of_fmap.
  intros (r & -> & Hr). apply elem_of_filter_bool in Hr as [Hr Hf].
  apply andb_true_iff in Hf as [_ Hf]. apply negb_true_iff, isin_false in Hf.
  now exists r.
Qed.

(** A description that a call returns although it was excluded comes from
    a row outside the modality of the call. *)
Lemma call_excluded_origin (df : list ImagingInfo) (datatype : Key)
    (ex : list string) (d : string) :
  d ∈ call T df datatype (Some ex) -> d ∈ ex ->
  exists r, r ∈ df /\ info_description r = d
            /\ info_modality r <> DATATYPE_MODALITY_MAP T datatype.
Proof.
  unfold call. rewrite elem_of_filter_descriptions. intros [H|H] Hex.
  - now apply within_modality_not_excluded in H.
  - apply descriptions_new_origin in H as (r & Hr & Hd & _).
    apply other_modalities_spec in Hr as [Hr Hm].
    apply protocol_filter_subset in Hr. now exists r.
Qed.

End Classifier.

Section PlainWords.

Import filter_image_descriptions.

Lemma lower_ascii_bar (c : ascii) :
  Ascii.eqb (Str.lower_ascii c) "|" = Ascii.eqb c "|".
Proof. destruct c as [[] [] [] [] [] [] [] []]; reflexivity. Qed.

Lemma lower_app (s1 s2 : string) :
  Str.lower (s1 ++ s2)%string = (Str.lower s1 ++ Str.lower s2)%string.
Proof. induction s1 as [|c s1 IH]; simpl; [reflexivity|]. now rewrite IH. Qed.

Lemma bar_free_lower (w : string) : bar_free (Str.lower w) = bar_free w.
Proof.
  induction w as [|c w IH]; simpl; [reflexivity|]. now rewrite lower_ascii_bar, IH.
Qed.

Lemma alternatives_not_nil (pat : string) : Str.alternatives pat <> [].
Proof.
  destruct pat as [|c pat]; simpl; [discriminate|].
  destruct (Ascii.eqb c "|"); [discriminate|].
  destruct (Str.alternatives pat); discriminate.
Qed.

Lemma alternatives_plain (w : string) : bar_free w = true -> Str.alternatives w = [w].
Proof.
  induction w as [|c w IH]; simpl; [reflexivity|].
  intros H. apply andb_true_iff in H as [Hc Hw]. apply negb_true_iff in Hc.
  now rewrite Hc, IH.
Qed.

Lemma alternatives_bar (w rest : string) :
  bar_free w = true ->
  Str.alternatives (w ++ "|" ++ rest)%string = w :: Str.alternatives rest.
Proof.
  induction w as [|c w IH]; simpl; [reflexivity|].
  intros H. apply andb_true_iff in H as [Hc Hw]. apply negb_true_iff in Hc.
  now rewrite Hc, IH.
Qed.

(** The alternatives of the pattern built from plain words are the words
    in lower case. *)
Lemma alternatives_join (w : string) (ws : list string) :
  Forall (fun w => bar_free w = true) (w :: ws) ->
  Str.alternatives (Str.lower (Str.join "|" (w :: ws))) = map Str.lower (w :: ws).
Proof.
  revert w. induction ws as [|w' ws IH]; intros w Hall.
  - simpl. apply alternatives_plain. rewrite bar_free_lower.
    now apply Forall_inv in Hall.
  - change (Str.join "|" (w :: w' :: ws))
      with (w ++ "|" ++ Str.join "|" (w' :: ws))%string.
    rewrite lower_app. change (Str.lower ("|" ++ Str.join "|" (w' :: ws)))
      with ("|" ++ Str.lower (Str.join "|" (w' :: ws)))%string.
    rewrite alternatives_bar by (rewrite bar_free_lower; now apply Forall_inv in Hall).
    rewrite IH by (now apply Forall_inv_tail in Hall). reflexivity.
Qed.

Lemma lower_contains_plain (words : list string) (s : string) :
  words <> [] -> Forall (fun w => bar_free w = true) words ->
  Str.lower_contains words s = contains_any words s.
Proof.
  intros Hne Hall. destruct words as [|w ws]; [congruence|].
  unfold Str.lower_contains, Str.search, contains_any.
  rewrite alternatives_join by exact Hall.
  generalize (w :: ws). intros l. induction l as [|x l IH]; [reflexivity|].
  simpl. now rewrite IH.
Qed.

(** With no word at all the pattern is the empty one, and that is found in
    every string. *)
Lemma lower_contains_nil (s : string) : Str.lower_contains [] s = true.
Proof.
  unfold Str.lower_contains, Str.search. simpl. rewrite orb_false_r.
  destruct (Str.lower s); reflexivity.
Qed.

(** The rejection step on plain words: a description stays when it holds
    no rejected word or holds an exception, provided the exceptions, when
    they are given, are not the empty list. *)
Lemma reject_plain_words (rejected : list string) (exceptions : option (list string))
    (descriptions : list string) (d : string) :
  rejected <> [] -> Forall (fun w => bar_free w = true) rejected ->
  match exceptions with
  | Some words => words <> [] /\ Forall (fun w => bar_free w = true) words
  | None => True
  end ->
  d ∈ reject (Some rejected) exceptions descriptions
  <-> d ∈ descriptions
      /\ (contains_any rejected d = false
          \/ contains_any (default [] exceptions) d = true).
Proof.
  intros Hne Hall Hexc. unfold reject.
  destruct rejected as [|w ws]; [congruence|].
  rewrite elem_of_drop_duplicates, elem_of_app, !elem_of_filter_bool.
  rewrite negb_true_iff, lower_contains_plain by (exact Hne || exact Hall).
  destruct exceptions as [words|]; simpl.
  - destruct Hexc as [Hne' Hall'].
    rewrite elem_of_filter_bool, lower_contains_plain by (exact Hne' || exact Hall').
    tauto.
  - split; [intros [[H1 H2]|H]; [tauto|inversion H]|].
    intros [H1 [H2|H2]]; [tauto|discriminate].
Qed.

End PlainWords.

Section ClassifierClaims.

Import filter_image_descriptions.

(** C7.  Whatever the records, the target and the rule, the list that
    [filter_descriptions] returns is in ascending order and holds no
    string twice. *)
Theorem filter_descriptions_sorted_nodup (T : Tables) (df : list ImagingInfo)
    (datatype : Key) (common : list string)
    (rej exc ein eout pin pex : option (list string)) :
  ascending (filter_descriptions T df datatype common rej exc ein eout pin pex)
  /\ NoDup (filter_descriptions T df datatype common rej exc ein eout pin pex).
Proof.
  unfold filter_descriptions. split.
  - apply ascending_sorted.
  - apply NoDup_sorted, NoDup_drop_duplicates.
Qed.

(** C1, as the code has it.  After the chain T1, T2, T2-star, FLAIR, a
    description that sits in two of the lists T1, T2, T2-star, or in FLAIR
    and one of T1, T2, is the description of a record whose modality is
    not the anatomical one: the calls exclude the earlier lists from the
    search within the modality only. *)
Theorem anat_chain_overlap_outside_modality (T : Tables) (df : list ImagingInfo)
    (d : string) :
  let c := classify T df in
  (d ∈ T1 c /\ d ∈ T2 c) \/ (d ∈ T1 c /\ d ∈ T2_star c)
  \/ (d ∈ T2 c /\ d ∈ T2_star c)
  \/ (d ∈ T1 c /\ d ∈ FLAIR c) \/ (d ∈ T2 c /\ d ∈ FLAIR c) ->
  exists r, r ∈ df /\ info_description r = d /\ info_modality r <> MODALITY_ANAT T.
Proof.
  intros c H. subst c.
  cbv beta zeta iota delta [classify T1 T2 T2_star FLAIR] in H.
  destruct H as [[H1 H2]|[[H1 H2]|[[H1 H2]|[[H1 H2]|[H1 H2]]]]];
    apply (call_excluded_origin _ _ _ _ _ H2); rewrite ?elem_of_app; auto.
Qed.

Lemma anat_chain_overlap_outside_modality_witness :
  ("T1_T2_ratio" ∈ T1 (classify Samples.tables Samples.df_two_contrasts)
   /\ "T1_T2_ratio" ∈ T2 (classify Samples.tables Samples.df_two_contrasts))
  /\ exists r, r ∈ Samples.df_two_contrasts
               /\ info_description r = "T1_T2_ratio"
               /\ info_modality r <> MODALITY_ANAT Samples.tables.
Proof.
  assert ("T1_T2_ratio" ∈ T1 (classify Samples.tables Samples.df_two_contrasts)
          /\ "T1_T2_ratio" ∈ T2 (classify Samples.tables Samples.df_two_contrasts))
    as H.
  { vm_compute. split; [apply list_elem_of_further|]; apply list_elem_of_here. }
  split; [exact H|].
  apply (anat_chain_overlap_outside_modality Samples.tables
           Samples.df_two_contrasts "T1_T2_ratio").
  left. exact H.
Defined.

(** C1, as it is stated, fails: a record filed under another modality
    whose description names two contrasts lands in both lists. *)
Lemma subtypes_not_disjoint :
  ~ subtypes_disjoint (classify Samples.tables Samples.df_two_contrasts).
Proof.
  intros (H & _). apply (H "T1_T2_ratio"); vm_compute.
  - apply list_elem_of_further, list_elem_of_here.
  - apply list_elem_of_here.
Qed.

(** When every record is of the anatomical modality, the lists the chain
    hands on are disjoint from the later ones. *)
Lemma anat_chain_disjoint_within_modality (T : Tables) (df : list ImagingInfo) :
  (forall r, r ∈ df -> info_modality r = MODALITY_ANAT T) ->
  let c := classify T df in
  T1 c ## T2 c /\ T1 c ## T2_star c /\ T2 c ## T2_star c
  /\ T1 c ## FLAIR c /\ T2 c ## FLAIR c.
Proof.
  intros Hall c. subst c.
  cbv beta zeta iota delta [classify T1 T2 T2_star FLAIR].
  repeat split; intros d H1 H2;
    (edestruct (call_excluded_origin _ _ _ _ _ H2) as (r & Hr & _ & Hm);
     [rewrite ?elem_of_app; auto|apply Hm, Hall, Hr]).
Qed.

(** The FLAIR call is handed the exclusions of the T2-star call, so a
    description can sit in both lists without leaving the modality. *)
Example star_flair_overlap :
  "FLAIR_star" ∈ T2_star (classify Samples.tables Samples.df_star_flair)
  /\ "FLAIR_star" ∈ FLAIR (classify Samples.tables Samples.df_star_flair).
Proof. vm_compute. split; apply list_elem_of_here. Qed.

Lemma get_all_descriptions_to_json (T : Tables) (c : Descriptions) :
  get_all_descriptions (to_json T c)
  = dwi c ++ func c ++ T1 c ++ T2 c ++ T2_star c ++ FLAIR c.
Proof.
  unfold get_all_descriptions, to_json. simpl. now rewrite <- !app_assoc.
Qed.

Lemma elem_of_ignored (descriptions_all : list string) (df : list ImagingInfo)
    (d : string) :
  d ∈ ignored descriptions_all df <->
  d ∈ map info_description df /\ d ∉ descriptions_all.
Proof.
  unfold ignored.
  rewrite elem_of_sorted, elem_of_drop_duplicates, elem_of_filter_bool.
  now rewrite negb_true_iff, isin_false.
Qed.

(** C9.  The ignored descriptions are the descriptions of the file that
    none of the six lists holds, each once and in ascending order. *)
Theorem ignored_is_the_difference (T : Tables) (df : list ImagingInfo) :
  let c := classify T df in
  let out := snd (run T df) in
  (forall d, d ∈ out <->
     d ∈ map info_description df
     /\ d ∉ get_all_descriptions (fst (run T df)))
  /\ (forall d, d ∈ get_all_descriptions (fst (run T df)) <->
        d ∈ dwi c \/ d ∈ func c \/ d ∈ T1 c \/ d ∈ T2 c
        \/ d ∈ T2_star c \/ d ∈ FLAIR c)
  /\ ascending out /\ NoDup out.
Proof.
  intros c out. subst c out. unfold run. cbn [fst snd].
  split; [intros d; apply elem_of_ignored|].
  split; [intros d; rewrite get_all_descriptions_to_json, !elem_of_app; tauto|].
  split; [apply ascending_sorted|].
  apply NoDup_sorted, NoDup_drop_duplicates.
Qed.

(** C6 at an empty list of exceptions: the pattern of the exceptions is
    then the empty one, which every description matches, and the rejected
    description is put back. *)
Theorem reject_with_empty_exceptions :
  let descriptions := ["dti_32dir"; "dti_calibration"] in
  reject (Some ["calibration"]) (Some []) descriptions = descriptions
  /\ contains_any ["calibration"] "dti_calibration" = true
  /\ contains_any [] "dti_calibration" = false
  /\ filter_descriptions Samples.tables Samples.df_spec_example DATATYPE_DWI
       ["dti"] (Some ["calibration"]) (Some []) None None None None
     = ["dti_32dir"; "dti_calibration"]
  /\ filter_descriptions Samples.tables Samples.df_spec_example DATATYPE_DWI
       ["dti"] (Some ["calibration"]) None None None None None
     = ["dti_32dir"].
Proof. vm_compute. repeat split. Qed.

End ClassifierClaims.

(* ===================================================================== *)
(** * The manifest builder: the reversal of the mapping                   *)
(* ===================================================================== *)

Section Reversal.

Import filter_image_descriptions generate_manifest ReversalSpec.


Lemma foldl_reverse_step (datatype : string) (l : list string)
    (st : gmap string string * list Warning) :
  foldl (reverse_step datatype) st l
  = foldl assign st (map (fun d => (d, datatype)) l).
Proof.
  revert st. induction l as [|d l IH]; intros st; simpl; [reflexivity|].
  apply IH.
Qed.

Lemma reverse_mapping_writes (datatypes : list string) (m : list (string * Json)) :
  reverse_mapping datatypes m = foldl assign (∅, []) (writes datatypes m).
Proof.
  unfold reverse_mapping, writes. generalize (∅ : gmap string string, @nil Warning).
  induction m as [|[k v] m IH]; intros st; simpl; [reflexivity|].
  rewrite foldl_app, IH.
  destruct (Str.isin k datatypes); simpl; [|reflexivity].
  now rewrite foldl_reverse_step.
Qed.

Lemma lookup_foldl_assign (ws : list (string * string))
    (st : gmap string string * list Warning) (d : string) :
  (foldl assign st ws).1 !! d = last_write d ws (st.1 !! d).
Proof.
  revert st. induction ws as [|[d' k] ws IH]; intros [m log]; simpl; [reflexivity|].
  rewrite IH. unfold assign, reverse_step. simpl.
  destruct (decide (d' = d)) as [->|Hne].
  - now rewrite lookup_insert_eq.
  - now rewrite lookup_insert_ne.
Qed.

Lemma last_write_app (d : string) (ws1 ws2 : list (string * string))
    (current : option string) :
  last_write d (ws1 ++ ws2) current = last_write d ws2 (last_write d ws1 current).
Proof.
  revert current. induction ws1 as [|[d' k] ws1 IH]; intros current; simpl;
    [reflexivity|apply IH].
Qed.

Lemma last_write_same (d k : string) (ws : list (string * string)) :
  (forall k', (d, k') ∈ ws -> k' = k) ->
  last_write d ws (Some k) = Some k.
Proof.
  induction ws as [|[d' k'] ws IH]; intros H; simpl; [reflexivity|].
  destruct (decide (d' = d)) as [->|Hne].
  - rewrite (H k') by apply list_elem_of_here.
    apply IH. intros k'' Hk. apply H. now apply list_elem_of_further.
  - apply IH. intros k'' Hk. apply H. now apply list_elem_of_further.
Qed.

Lemma last_write_listed (d k : string) (l : list string) (current : option string) :
  d ∈ l -> last_write d (map (fun d => (d, k)) l) current = Some k.
Proof.
  intros Hd. revert current.
  induction l as [|d' l IH]; intros current; [inversion Hd|]. simpl.
  destruct (decide (d' = d)) as [->|Hne].
  - apply last_write_same. intros k' Hk.
    apply list_elem_of_fmap in Hk as (x & Hx & _). congruence.
  - apply IH. apply elem_of_cons in Hd as [->|Hd]; [congruence|exact Hd].
Qed.

Lemma elem_of_writes (datatypes : list string) (m : list (string * Json))
    (d k : string) :
  (d, k) ∈ writes datatypes m <->
  exists v, (k, v) ∈ m /\ Str.isin k datatypes = true /\ d ∈ iterate v.
Proof.
  unfold writes. rewrite list_elem_of_In, in_flat_map. split.
  - intros ([k' v] & Hin & H). apply list_elem_of_In in Hin.
    destruct (Str.isin k' datatypes) eqn:Hk; [|inversion H].
    apply list_elem_of_In, list_elem_of_fmap in H as (x & Hx & Hd).
    inversion Hx; subst. now exists v.
  - intros (v & Hin & Hk & Hd). exists (k, v).
    split; [now apply list_elem_of_In|]. rewrite Hk.
    apply list_elem_of_In, list_elem_of_fmap. now exists d.
Qed.

(** The last recognised entry that lists a description decides its
    datatype. *)
Lemma reverse_mapping_last_entry (datatypes : list string)
    (pre post : list (string * Json)) (k : string) (l : list string) (d : string) :
  Str.isin k datatypes = true -> d ∈ l ->
  (forall k' v, (k', v) ∈ post -> Str.isin k' datatypes = true ->
                d ∈ iterate v -> k' = k) ->
  (reverse_mapping datatypes (pre ++ (k, JList l) :: post)).1 !! d = Some k.
Proof.
  intros Hk Hd Hpost.
  rewrite reverse_mapping_writes, lookup_foldl_assign.
  unfold writes. rewrite flat_map_app. simpl. rewrite Hk.
  rewrite !last_write_app. fold (writes datatypes post).
  rewrite (last_write_listed d k l _ Hd).
  apply last_write_same. intros k' Hk'.
  apply elem_of_writes in Hk' as (v & Hin & Hrec & Hit). eauto.
Qed.

(** Assignments only add descriptions and only add warnings. *)
Lemma foldl_assign_is_Some (ws : list (string * string))
    (st : gmap string string * list Warning) (d : string) :
  is_Some (st.1 !! d) -> is_Some ((foldl assign st ws).1 !! d).
Proof.
  revert st. induction ws as [|[d' k] ws IH]; intros [m log] H; simpl; [exact H|].
  apply IH. unfold assign, reverse_step. simpl.
  destruct (decide (d' = d)) as [->|Hne].
  - rewrite lookup_insert_eq. eauto.
  - now rewrite lookup_insert_ne.
Qed.

Lemma foldl_assign_log (ws : list (string * string))
    (st : gmap string string * list Warning) (w : Warning) :
  w ∈ st.2 -> w ∈ (foldl assign st ws).2.
Proof.
  revert st. induction ws as [|[d' k] ws IH]; intros [m log] H; simpl; [exact H|].
  apply IH. unfold assign, reverse_step. simpl.
  destruct (decide (is_Some (m !! d'))); [|exact H].
  apply elem_of_app. now left.
Qed.

Lemma foldl_assign_known (ws : list (string * string))
    (st : gmap string string * list Warning) (d k : string) :
  is_Some (st.1 !! d) -> (d, k) ∈ ws ->
  duplicate_description d ∈ (foldl assign st ws).2.
Proof.
  revert st. induction ws as [|[d' k'] ws IH]; intros [m log] H Hin;
    [inversion Hin|]. simpl in *.
  apply elem_of_cons in Hin as [Heq|Hin].
  - inversion Heq; subst d' k'. apply foldl_assign_log.
    unfold assign, reverse_step. simpl.
    destruct (decide (is_Some (m !! d))); [|contradiction].
    apply elem_of_app. right. apply list_elem_of_here.
  - apply IH; [|exact Hin]. unfold assign, reverse_step. simpl.
    destruct (decide (d' = d)) as [->|Hne].
    + rewrite lookup_insert_eq. eauto.
    + now rewrite lookup_insert_ne.
Qed.

Lemma foldl_assign_twice (ws1 ws2 : list (string * string))
    (st : gmap string string * list Warning) (d k1 k2 : string) :
  (d, k1) ∈ ws1 -> (d, k2) ∈ ws2 ->
  duplicate_description d ∈ (foldl assign st (ws1 ++ ws2)).2.
Proof.
  intros H1 H2. rewrite foldl_app.
  apply foldl_assign_known with (k := k2); [|exact H2].
  apply list_elem_of_split in H1 as (a & b & ->).
  rewrite foldl_app. simpl. apply foldl_assign_is_Some.
  destruct (foldl assign st a) as [m log]. unfold assign, reverse_step. simpl.
  rewrite lookup_insert_eq. eauto.
Qed.

End Reversal.

Section ReversalClaims.

Import filter_image_descriptions generate_manifest ReversalSpec.

Lemma writes_app (datatypes : list string) (m1 m2 : list (string * Json)) :
  writes datatypes (m1 ++ m2) = writes datatypes m1 ++ writes datatypes m2.
Proof. unfold writes. apply flat_map_app. Qed.

(** C2, as the code has it.  A description in the list of a recognised
    datatype is mapped to that datatype, unless a recognised key that is
    processed later assigns it again. *)
Theorem reversal_maps_listed_description (datatypes : list string)
    (pre post : list (string * Json)) (datatype : string)
    (descriptions : list string) (d : string) :
  datatype ∈ datatypes -> d ∈ descriptions ->
  (forall datatype' later, (datatype', later) ∈ post -> datatype' ∈ datatypes ->
     d ∈ iterate later -> datatype' = datatype) ->
  (reverse_mapping datatypes (pre ++ (datatype, JList descriptions) :: post)).1 !! d
  = Some datatype.
Proof.
  intros Hk Hd Hpost. apply reverse_mapping_last_entry; [now apply isin_true|exact Hd|].
  intros k' v Hin Hrec. apply Hpost; [exact Hin|now apply isin_true].
Qed.

Lemma reversal_maps_listed_description_witness :
  (reverse_mapping ["anat"; "dwi"; "func"] listed_twice).1 !! "ep2d_diff" = Some "func".
Proof.
  apply (reversal_maps_listed_description ["anat"; "dwi"; "func"]
           [("dwi", JList ["DTI_gated"; "ep2d_diff"])] [] "func"
           ["ep2d_bold"; "ep2d_diff"] "ep2d_diff").
  - apply list_elem_of_further, list_elem_of_further, list_elem_of_here.
  - apply list_elem_of_further, list_elem_of_here.
  - intros k' v H. inversion H.
Defined.

(** C2, as it is stated, fails: of two recognised datatypes that list a
    description, only the later one is found in the lookup. *)
Lemma listed_twice_not_mapped_to_both :
  ~ maps_every_listed ["anat"; "dwi"; "func"] listed_twice.
Proof.
  intros H.
  specialize (H "dwi" (JList ["DTI_gated"; "ep2d_diff"]) "ep2d_diff").
  assert ((reverse_mapping ["anat"; "dwi"; "func"] listed_twice).1 !! "ep2d_diff"
          = Some "func") as Hfunc by (vm_compute; reflexivity).
  rewrite Hfunc in H.
  assert (Some "func" = Some "dwi") as Habs; [|discriminate Habs].
  apply H.
  - apply list_elem_of_here.
  - apply list_elem_of_further, list_elem_of_here.
  - unfold get_all_descriptions. simpl. apply list_elem_of_further, list_elem_of_here.
Qed.

(** On a mapping in the shape the classifier writes, the loop runs over the
    keys of the anatomical dictionary: the names of the subtypes are mapped,
    the descriptions below them are not. *)
Example nested_descriptions_not_mapped :
  (reverse_mapping ["anat"; "dwi"; "func"] nested_anat).1 !! "MPRAGE" = None
  /\ (reverse_mapping ["anat"; "dwi"; "func"] nested_anat).1 !! "T1w" = Some "anat"
  /\ (reverse_mapping ["anat"; "dwi"; "func"] nested_anat).1 !! "DTI_gated" = Some "dwi".
Proof. vm_compute. repeat split. Qed.

(** When two recognised datatypes list a description, each in a list of
    its own, the reversal goes through: it returns the lookup, in which the
    description has the datatype of the last recognised key that lists it,
    and a warning about the description is logged. *)
Lemma reversal_duplicate_last_wins (datatypes : list string)
    (pre mid post : list (string * Json)) (datatype1 datatype2 : string)
    (descriptions1 descriptions2 : list string) (d : string) :
  datatype1 ∈ datatypes -> datatype2 ∈ datatypes ->
  d ∈ descriptions1 -> d ∈ descriptions2 ->
  (forall datatype' later, (datatype', later) ∈ post -> datatype' ∈ datatypes ->
     d ∉ iterate later) ->
  let datatype_descriptions_map :=
    pre ++ (datatype1, JList descriptions1) :: mid
        ++ (datatype2, JList descriptions2) :: post in
  exists description_datatype_map log,
    reverse_mapping datatypes datatype_descriptions_map = (description_datatype_map, log)
    /\ description_datatype_map !! d = Some datatype2
    /\ duplicate_description d ∈ log.
Proof.
  intros H1 H2 Hd1 Hd2 Hpost m.
  destruct (reverse_mapping datatypes m) as [ddm log] eqn:Hrev.
  exists ddm, log. split; [reflexivity|].
  apply isin_true in H1, H2. split.
  - change ddm with (ddm, log).1. rewrite <- Hrev. subst m.
    replace (pre ++ (datatype1, JList descriptions1) :: mid
               ++ (datatype2, JList descriptions2) :: post)
      with ((pre ++ (datatype1, JList descriptions1) :: mid)
              ++ (datatype2, JList descriptions2) :: post)
      by (now rewrite <- app_assoc).
    apply reverse_mapping_last_entry; [exact H2|exact Hd2|].
    intros k' v Hin Hrec Hit. exfalso.
    apply (Hpost k' v Hin); [now apply isin_true|exact Hit].
  - change log with (ddm, log).2. rewrite <- Hrev. subst m.
    rewrite reverse_mapping_writes.
    replace (pre ++ (datatype1, JList descriptions1) :: mid
               ++ (datatype2, JList descriptions2) :: post)
      with ((pre ++ [(datatype1, JList descriptions1)])
              ++ (mid ++ (datatype2, JList descriptions2) :: post))
      by (now rewrite <- app_assoc).
    rewrite writes_app.
    apply foldl_assign_twice with (k1 := datatype1) (k2 := datatype2).
    + apply elem_of_writes. exists (JList descriptions1).
      split; [|now split]. apply elem_of_app. right. apply list_elem_of_here.
    + apply elem_of_writes. exists (JList descriptions2).
      split; [|now split]. apply elem_of_app. right. apply list_elem_of_here.
Qed.

Lemma reversal_duplicate_last_wins_witness :
  exists description_datatype_map log,
    reverse_mapping ["anat"; "dwi"; "func"] listed_twice = (description_datatype_map, log)
    /\ description_datatype_map !! "ep2d_diff" = Some "func"
    /\ duplicate_description "ep2d_diff" ∈ log.
Proof.
  apply (reversal_duplicate_last_wins ["anat"; "dwi"; "func"] [] [] [] "dwi" "func"
           ["DTI_gated"; "ep2d_diff"] ["ep2d_bold"; "ep2d_diff"] "ep2d_diff").
  - apply list_elem_of_further, list_elem_of_here.
  - apply list_elem_of_further, list_elem_of_further, list_elem_of_here.
  - apply list_elem_of_further, list_elem_of_here.
  - apply list_elem_of_further, list_elem_of_here.
  - intros k' v H. inversion H.
Defined.

(** C5, on the mapping the classifier writes.  The description
    ["T1_T2_ratio"] is listed under [dwi] and, one level down, under two
    subtypes of [anat], which is processed last.  The loop over the value
    of [anat] runs over the names of its subtypes: the reversal logs no
    warning and leaves the description with [dwi]. *)
Theorem nested_duplicate_not_seen :
  classifier_output
  = [ ("dwi", JList ["T1_T2_ratio"]); ("func", JList []);
      ("anat", JDict [ ("T1w", JList ["T1 MPRAGE"; "T1_T2_ratio"]);
                       ("T2w", JList ["T1_T2_ratio"]);
                       ("T2starw", JList []); ("FLAIR", JList []) ]) ]
  /\ (reverse_mapping (DATATYPES Samples.tables) classifier_output).2 = []
  /\ (reverse_mapping (DATATYPES Samples.tables) classifier_output).1 !! "T1_T2_ratio"
     = Some "dwi"
  /\ (reverse_mapping (DATATYPES Samples.tables) classifier_output).1 !! "T1w"
     = Some "anat".
Proof. vm_compute. repeat split. Qed.

End ReversalClaims.

(* ===================================================================== *)
(** * The manifest builder: the normalisation of the imaging frame        *)
(* ===================================================================== *)

Section Normalisation.

Import generate_manifest ManifestSpec.

Lemma lookup_all_inl (table : gmap string string) (xs : list string) (x : string) :
  lookup_all table xs = inl x -> x ∈ xs /\ table !! x = None.
Proof.
  induction xs as [|y xs IH]; simpl; [discriminate|].
  destruct (table !! y) eqn:Hy.
  - destruct (lookup_all table xs); [|discriminate].
    intros [= ->]. destruct IH as [H1 H2]; [reflexivity|].
    split; [now apply list_elem_of_further|exact H2].
  - intros [= ->]. split; [apply list_elem_of_here|exact Hy].
Qed.

Lemma lookup_all_inr (table : gmap string string) (xs ys : list string) :
  lookup_all table xs = inr ys -> Forall2 (fun x y => table !! x = Some y) xs ys.
Proof.
  revert ys. induction xs as [|x xs IH]; simpl; intros ys.
  - intros [= <-]. constructor.
  - destruct (table !! x) eqn:Hx; [|discriminate].
    destruct (lookup_all table xs); [discriminate|].
    intros [= <-]. constructor; [exact Hx|now apply IH].
Qed.

Lemma lookup_all_missing (table : gmap string string) (xs : list string) (x : string) :
  x ∈ xs -> table !! x = None -> exists x', lookup_all table xs = inl x'.
Proof.
  intros Hin Hx. destruct (lookup_all table xs) as [x'|ys] eqn:H; [now exists x'|].
  apply lookup_all_inr in H.
  apply list_elem_of_lookup in Hin as [i Hi].
  destruct (Forall2_lookup_l _ _ _ _ _ H Hi) as (y & _ & Hy). congruence.
Qed.

Lemma lookup_all_total (table : gmap string string) (xs : list string) :
  (forall x, x ∈ xs -> is_Some (table !! x)) -> exists ys, lookup_all table xs = inr ys.
Proof.
  intros Hall. destruct (lookup_all table xs) as [x|ys] eqn:H; [|now exists ys].
  apply lookup_all_inl in H as [Hin Hx].
  destruct (Hall x Hin) as [y Hy]. congruence.
Qed.

Lemma normalised_rows (vm sm gm : gmap string string) (df : list ImagingRow)
    (visits groups : list string) :
  Forall2 (fun x y => vm !! x = Some y) (map Visit df) visits ->
  Forall2 (fun x y => gm !! x = Some y) (map Research_Group df) groups ->
  Forall2 (normalised vm sm gm) df
    (map (fun '(r, visit, group) =>
            {| img_participant_id := Subject_ID r;
               img_visit := visit;
               img_session := sm !! visit;
               img_group := group;
               img_description := Description r |})
         (combine (combine df visits) groups)).
Proof.
  revert visits groups. induction df as [|r df IH]; intros visits groups Hv Hg.
  - constructor.
  - simpl in Hv, Hg. inversion Hv as [|? v ? visits' Hv1 Hv2]; subst.
    inversion Hg as [|? g ? groups' Hg1 Hg2]; subst. simpl.
    constructor; [|now apply IH].
    unfold normalised. simpl. auto.
Qed.

Lemma elem_of_visits (vm : gmap string string) (df : list ImagingRow)
    (visits : list string) (rows : list Imaging) (v : string) :
  Forall2 (fun x y => vm !! x = Some y) (map Visit df) visits ->
  Forall2 (fun r row => vm !! Visit r = Some (img_visit row)) df rows ->
  v ∈ visits <-> exists row, row ∈ rows /\ img_visit row = v.
Proof.
  intros Hv Hrows. revert visits Hv.
  induction Hrows as [|r row df rows Hr Hrows IH]; intros visits Hv.
  - inversion Hv; subst. split; [intros H; inversion H|intros (? & H & _); inversion H].
  - simpl in Hv. inversion Hv as [|? y ? visits' Hy Hv']; subst.
    assert (y = img_visit row) as -> by congruence.
    rewrite elem_of_cons, (IH _ Hv'). split.
    + intros [->|(row' & Hin & Heq)].
      * exists row. split; [apply list_elem_of_here|reflexivity].
      * exists row'. split; [now apply list_elem_of_further|exact Heq].
    + intros (row' & Hin & Heq). apply elem_of_cons in Hin as [->|Hin]; [now left|].
      right. now exists row'.
Qed.

(** What [normalize_imaging] returns when every visit and every group has
    a mapping. *)
Lemma normalize_imaging_succeeds (vm sm gm : gmap string string)
    (df : list ImagingRow) (log : list Warning) :
  (forall r, r ∈ df -> is_Some (vm !! Visit r)) ->
  (forall r, r ∈ df -> is_Some (gm !! Research_Group r)) ->
  exists rows missing,
    normalize_imaging vm sm gm df log
    = (inr rows, if decide (missing = ∅) then log
                 else log ++ [missing_session_mappings missing])
    /\ Forall2 (normalised vm sm gm) df rows
    /\ (forall v, v ∈ missing <->
          (exists row, row ∈ rows /\ img_visit row = v) /\ sm !! v = None).
Proof.
  intros Hvisits Hgroups.
  destruct (lookup_all_total vm (map Visit df)) as [visits Hv].
  { intros x Hx. apply list_elem_of_fmap in Hx as (r & -> & Hr). auto. }
  destruct (lookup_all_total gm (map Research_Group df)) as [groups Hg].
  { intros x Hx. apply list_elem_of_fmap in Hx as (r & -> & Hr). auto. }
  pose proof (normalised_rows vm sm gm df visits groups
                (lookup_all_inr _ _ _ Hv) (lookup_all_inr _ _ _ Hg)) as Hrows.
  match type of Hrows with
  | Forall2 _ _ ?rows => exists rows, (list_to_set visits ∖ dom sm)
  end.
  split; [|split; [exact Hrows|]].
  - unfold normalize_imaging. rewrite Hv.
    unfold mbind, M_bind, bind, warn_if.
    destruct (decide (list_to_set visits ∖ dom sm = (∅ : gset string))) as [He|Hne].
    + rewrite bool_decide_eq_false_2 by (intros H; now apply H).
      unfold ret. now rewrite Hg.
    + rewrite bool_decide_eq_true_2 by exact Hne.
      unfold warn. now rewrite Hg.
  - intros v. rewrite elem_of_difference, elem_of_list_to_set, not_elem_of_dom.
    erewrite (elem_of_visits vm df visits _ v (lookup_all_inr _ _ _ Hv)); [reflexivity|].
    eapply Forall2_impl; [exact Hrows|]. intros r row H. apply H.
Qed.

End Normalisation.

Section NormalisationClaims.

Import generate_manifest ManifestSpec.

(** C8.  In the normalisation of the imaging records, a visit label without
    an entry in the visit table is a fatal error, and so is a group label
    without an entry in the group table; a visit code without an entry in
    the session table adds one warning to the log, the rows are returned,
    and the session of such a row is left missing. *)
Theorem normalize_imaging_policy (visit_imaging_map visit_session_map
    group_imaging_map : gmap string string) (df : list ImagingRow)
    (log : list Warning) :
  let result :=
    normalize_imaging visit_imaging_map visit_session_map group_imaging_map df log in
  (forall r, r ∈ df -> visit_imaging_map !! Visit r = None ->
     exists visit, visit ∈ map Visit df /\ visit_imaging_map !! visit = None
       /\ result = (inl (RuntimeError_visit_without_mapping visit), log))
  /\ (forall r, r ∈ df -> group_imaging_map !! Research_Group r = None ->
        exists e log', result = (inl e, log')
          /\ ((forall r, r ∈ df -> is_Some (visit_imaging_map !! Visit r)) ->
              exists group, group ∈ map Research_Group df
                /\ group_imaging_map !! group = None
                /\ e = RuntimeError_group_without_mapping group))
  /\ ((forall r, r ∈ df -> is_Some (visit_imaging_map !! Visit r)) ->
      (forall r, r ∈ df -> is_Some (group_imaging_map !! Research_Group r)) ->
      forall r visit, r ∈ df -> visit_imaging_map !! Visit r = Some visit ->
        visit_session_map !! visit = None ->
        exists rows missing,
          result = (inr rows, log ++ [missing_session_mappings missing])
          /\ Forall2 (normalised visit_imaging_map visit_session_map group_imaging_map)
               df rows
          /\ visit ∈ missing
          /\ (forall row, row ∈ rows -> visit_session_map !! img_visit row = None ->
                img_session row = None /\ img_visit row ∈ missing)).
Proof.
  intros result. subst result. split; [|split].
  - intros r Hr Hnone.
    destruct (lookup_all_missing visit_imaging_map (map Visit df) (Visit r))
      as [visit Hv]; [apply list_elem_of_fmap; now exists r|exact Hnone|].
    exists visit. destruct (lookup_all_inl _ _ _ Hv) as [H1 H2].
    split; [exact H1|split; [exact H2|]].
    unfold normalize_imaging. now rewrite Hv.
  - intros r Hr Hnone.
    destruct (lookup_all_missing group_imaging_map (map Research_Group df)
                (Research_Group r))
      as [group Hg]; [apply list_elem_of_fmap; now exists r|exact Hnone|].
    unfold normalize_imaging.
    destruct (lookup_all visit_imaging_map (map Visit df)) as [visit|visits] eqn:Hv.
    + eexists _, _. split; [reflexivity|]. intros Hall.
      apply lookup_all_inl in Hv as [Hin Hv].
      apply list_elem_of_fmap in Hin as (r' & -> & Hr').
      destruct (Hall r' Hr') as [y Hy]. congruence.
    + unfold mbind, M_bind, bind, warn_if. rewrite Hg.
      destruct (bool_decide _); simpl; eexists _, _; (split; [reflexivity|]);
        intros _; exists group; destruct (lookup_all_inl _ _ _ Hg); auto.
  - intros Hvisits Hgroups r visit Hr Hvisit Hsession.
    destruct (normalize_imaging_succeeds visit_imaging_map visit_session_map
                group_imaging_map df log Hvisits Hgroups)
      as (rows & missing & Heq & Hrows & Hmissing).
    assert (visit ∈ missing) as Hin.
    { apply Hmissing. split; [|exact Hsession].
      apply list_elem_of_lookup in Hr as [i Hi].
      destruct (Forall2_lookup_l _ _ _ _ _ Hrows Hi) as (row & Hrow & Hn).
      exists row. split; [apply list_elem_of_lookup; now exists i|].
      destruct Hn as (Hn & _). congruence. }
    exists rows, missing. rewrite Heq.
    destruct (decide (missing = ∅)) as [->|_]; [now apply not_elem_of_empty in Hin|].
    split; [reflexivity|]. split; [exact Hrows|]. split; [exact Hin|].
    intros row Hrow Hnone.
    apply list_elem_of_lookup in Hrow as [i Hi].
    destruct (Forall2_lookup_r _ _ _ _ _ Hrows Hi) as (r' & Hr' & Hn).
    destruct Hn as (_ & _ & Hs & _). split; [congruence|].
    apply Hmissing. split; [|exact Hnone].
    exists row. split; [apply list_elem_of_lookup; now exists i|reflexivity].
Qed.

Lemma normalize_imaging_policy_witness :
  (exists visit,
     normalize_imaging VISIT_IMAGING_MAP VISIT_SESSION_MAP GROUP_IMAGING_MAP
       ManifestSamples.df_imaging_unknown_visit []
     = (inl (RuntimeError_visit_without_mapping visit), []))
  /\ (exists e log',
        normalize_imaging VISIT_IMAGING_MAP VISIT_SESSION_MAP GROUP_IMAGING_MAP
          ManifestSamples.df_imaging_unknown_group []
        = (inl e, log'))
  /\ (exists rows missing,
        normalize_imaging ManifestSamples.visit_map_with_month_60 VISIT_SESSION_MAP
          GROUP_IMAGING_MAP ManifestSamples.df_imaging_month_60 []
        = (inr rows, [] ++ [missing_session_mappings missing])
        /\ "V12" ∈ missing).
Proof.
  split; [|split].
  - destruct (normalize_imaging_policy VISIT_IMAGING_MAP VISIT_SESSION_MAP
                GROUP_IMAGING_MAP ManifestSamples.df_imaging_unknown_visit [])
      as (H & _ & _).
    destruct (H (ManifestSamples.imaging_row "3001" "Week 2" "PD" "DTI_gated"))
      as (visit & _ & _ & Heq).
    + apply list_elem_of_further, list_elem_of_here.
    + vm_compute. reflexivity.
    + exists visit. exact Heq.
  - destruct (normalize_imaging_policy VISIT_IMAGING_MAP VISIT_SESSION_MAP
                GROUP_IMAGING_MAP ManifestSamples.df_imaging_unknown_group [])
      as (_ & H & _).
    destruct (H (ManifestSamples.imaging_row "3005" "Baseline" "Early Imaging" "DTI_gated"))
      as (e & log' & Heq & _).
    + apply list_elem_of_further, list_elem_of_here.
    + vm_compute. reflexivity.
    + exists e, log'. exact Heq.
  - destruct (normalize_imaging_policy ManifestSamples.visit_map_with_month_60
                VISIT_SESSION_MAP GROUP_IMAGING_MAP
                ManifestSamples.df_imaging_month_60 [])
      as (_ & _ & H).
    destruct (H) with (r := ManifestSamples.imaging_row "3001" "Month 60" "PD" "DTI_gated")
                      (visit := "V12")
      as (rows & missing & Heq & _ & Hin & _).
    + intros r Hr.
      repeat (apply elem_of_cons in Hr as [->|Hr]; [vm_compute; eauto|]).
      inversion Hr.
    + intros r Hr.
      repeat (apply elem_of_cons in Hr as [->|Hr]; [vm_compute; eauto|]).
      inversion Hr.
    + apply list_elem_of_further, list_elem_of_here.
    + vm_compute. reflexivity.
    + vm_compute. reflexivity.
    + exists rows, missing. split; [exact Heq|exact Hin].
Defined.

(** With the tables of the module, every visit code has a session: the
    warning about missing sessions is not reached. *)
Lemma visit_codes_have_sessions (label code : string) :
  VISIT_IMAGING_MAP !! label = Some code -> is_Some (VISIT_SESSION_MAP !! code).
Proof.
  intros H. unfold VISIT_IMAGING_MAP in H. apply elem_of_list_to_map_2 in H.
  repeat (apply elem_of_cons in H as [[= -> ->]|H]; [vm_compute; eauto|]).
  inversion H.
Qed.

End NormalisationClaims.

(* ===================================================================== *)
(** * The manifest builder: from the frames to the manifest               *)
(* ===================================================================== *)

Section Monad.

Import generate_manifest.

Lemma bind_inr {A B : Type} (m : M A) (f : A -> M B) (log log' : list Warning) (b : B) :
  (m ≫= f) log = (inr b, log') ->
  exists a log1, m log = (inr a, log1) /\ f a log1 = (inr b, log').
Proof.
  unfold mbind, M_bind, bind. destruct (m log) as [[e|a] log1]; [discriminate|].
  intros H. now exists a, log1.
Qed.

Lemma warn_if_inr (b : bool) (w : Warning) (log : list Warning) :
  exists log1, warn_if b w log = (inr tt, log1).
Proof. destruct b; simpl; eauto. Qed.

End Monad.

Section Keys.

Context {A K : Type} `{EqDecision K} (key : A -> K).

(** Among rows with distinct keys, a test that fixes the key selects one
    row at most. *)
Lemma filter_fixed_key (g : A -> bool) (k : K) (l : list A) :
  NoDup (map key l) -> (forall x, g x = true -> key x = k) ->
  List.filter g l = [] \/ exists x, List.filter g l = [x].
Proof.
  intros Hnd Hg. induction l as [|y l IH]; [now left|].
  simpl in Hnd. apply NoDup_cons in Hnd as [Hy Hnd]. simpl.
  destruct (g y) eqn:Hgy; [|now apply IH].
  right. exists y. f_equal.
  destruct (List.filter g l) as [|z l'] eqn:Hf; [reflexivity|]. exfalso.
  assert (z ∈ List.filter g l) as Hz by (rewrite Hf; apply list_elem_of_here).
  apply elem_of_filter_bool in Hz as [Hz Hgz].
  apply Hy. rewrite (Hg y Hgy), <- (Hg z Hgz).
  apply list_elem_of_fmap. now exists z.
Qed.

Lemma NoDup_map_filter (g : A -> bool) (l : list A) :
  NoDup (map key l) -> NoDup (map key (List.filter g l)).
Proof.
  induction l as [|y l IH]; simpl; [done|].
  intros Hnd. apply NoDup_cons in Hnd as [Hy Hnd].
  destruct (g y); [|now apply IH]. simpl. apply NoDup_cons. split; [|now apply IH].
  intros Hin. apply Hy. apply list_elem_of_fmap in Hin as (x & -> & Hx).
  apply elem_of_filter_bool in Hx as [Hx _]. apply list_elem_of_fmap. now exists x.
Qed.

(** A key that occurs among distinct keys is carried by one row. *)
Lemma one_row_of_key (k : K) (l : list A) :
  NoDup (map key l) -> k ∈ map key l ->
  length (List.filter (fun x => bool_decide (key x = k)) l) = 1.
Proof.
  induction l as [|y l IH]; simpl; intros Hnd Hin; [inversion Hin|].
  apply NoDup_cons in Hnd as [Hy Hnd].
  destruct (bool_decide (key y = k)) eqn:Hk.
  - apply bool_decide_eq_true in Hk. simpl. f_equal.
    destruct (List.filter (fun x => bool_decide (key x = k)) l) as [|z l'] eqn:Hf;
      [reflexivity|]. exfalso.
    assert (z ∈ List.filter (fun x => bool_decide (key x = k)) l) as Hz
      by (rewrite Hf; apply list_elem_of_here).
    apply elem_of_filter_bool in Hz as [Hz Hkz]. apply bool_decide_eq_true in Hkz.
    apply Hy. rewrite Hk, <- Hkz. apply list_elem_of_fmap. now exists z.
  - apply bool_decide_eq_false in Hk. apply IH; [exact Hnd|].
    apply elem_of_cons in Hin as [Heq|Hin]; [congruence|exact Hin].
Qed.

Lemma length_filter_Permutation (g : A -> bool) (l1 l2 : list A) :
  Permutation l1 l2 -> length (List.filter g l1) = length (List.filter g l2).
Proof.
  induction 1 as [|x l1 l2 _ IH|x y l|l1 l2 l3 _ IH1 _ IH2]; simpl.
  - reflexivity.
  - destruct (g x); simpl; congruence.
  - destruct (g x), (g y); reflexivity.
  - congruence.
Qed.

End Keys.

Lemma one_occurrence {K : Type} `{EqDecision K} (k : K) (l : list K) :
  NoDup l -> k ∈ l -> length (List.filter (fun x => bool_decide (x = k)) l) = 1.
Proof.
  intros Hnd Hin. apply (one_row_of_key (fun x : K => x)).
  - clear Hin. induction Hnd as [|x l Hx Hnd IH]; simpl; [constructor|].
    constructor; [|exact IH]. intros H. apply Hx.
    apply list_elem_of_fmap in H as (y & -> & Hy). exact Hy.
  - apply list_elem_of_fmap. now exists k.
Qed.

Lemma map_flat_map_one {A B C : Type} (f : A -> list B) (g : B -> C) (h : A -> C)
    (l : list A) :
  (forall t, map g (f t) = [h t]) -> map g (flat_map f l) = map h l.
Proof.
  intros H. induction l as [|t l IH]; [reflexivity|].
  cbn [flat_map]. rewrite map_app, H, IH. reflexivity.
Qed.

Section TabularSide.

Import generate_manifest ManifestSpec.

Lemma NoDup_load_tabular (files : list (list Tabular)) :
  NoDup (map (fun r => (PATNO r, EVENT_ID r)) (load_tabular files)).
Proof. apply NoDup_drop_duplicates_on. Qed.

(** When the status file lists each subject once, the merge keeps one row
    for each row of the tabular frame. *)
Lemma merge_group_keys (df_tabular : list Tabular) (df_group : list Status) :
  NoDup (map status_PATNO df_group) ->
  map tab_key (merge_group df_tabular df_group)
  = map (fun r => (PATNO r, EVENT_ID r)) df_tabular.
Proof.
  intros Hnd. unfold merge_group. apply map_flat_map_one. intros t.
  destruct (filter_fixed_key status_PATNO
              (fun s => String.eqb (status_PATNO s) (PATNO t)) (PATNO t) df_group Hnd)
    as [->|[s ->]]; try reflexivity.
  intros x Hx. now apply String.eqb_eq in Hx.
Qed.

Lemma fill_group_key (df_imaging : list Imaging) (row : TabularGroup) :
  tab_key (fill_group df_imaging row) = tab_key row.
Proof.
  unfold fill_group. destruct (tab_group row); [reflexivity|].
  destruct (Str.drop_duplicates _) as [|g [|g' l]]; reflexivity.
Qed.

Lemma fill_group_present (df_imaging : list Imaging) (row : TabularGroup) :
  isna (tab_group row) = false -> fill_group df_imaging row = row.
Proof. unfold fill_group. now destruct (tab_group row). Qed.

Lemma NoDup_filtered_tabular (files : list (list Tabular)) (df_group : list Status)
    (df_imaging : list Imaging) :
  NoDup (map status_PATNO df_group) ->
  NoDup (map tab_key (filtered_tabular files df_group df_imaging)).
Proof.
  intros Hnd. unfold filtered_tabular, keep_tabular.
  apply NoDup_map_filter. rewrite map_map.
  rewrite (map_ext _ tab_key) by (intros; apply fill_group_key).
  rewrite merge_group_keys by exact Hnd. apply NoDup_load_tabular.
Qed.

(** [add_group] returns the merged frame with the missing groups looked
    up. *)
Lemma add_group_value (df_tabular : list Tabular) (df_group : list Status)
    (df_imaging : list Imaging) (log : list Warning) :
  exists log',
    add_group df_tabular df_group df_imaging log
    = (inr (map (fill_group df_imaging) (merge_group df_tabular df_group)), log').
Proof.
  unfold add_group.
  destruct (existsb _ (merge_group df_tabular df_group)) eqn:Hna.
  - unfold mbind, M_bind, bind, warn.
    destruct (warn_if_inr
                (existsb (fun r => isna (tab_group r))
                   (map (fill_group df_imaging) (merge_group df_tabular df_group)))
                groups_not_filled
                (log ++ [subjects_without_group
                           (map tab_participant_id
                              (List.filter (fun r => isna (tab_group r))
                                 (merge_group df_tabular df_group)))]))
      as [log1 Hw].
    rewrite Hw. now exists log1.
  - exists log. unfold ret. do 2 f_equal.
    induction (merge_group df_tabular df_group) as [|r l IH]; [reflexivity|].
    simpl in Hna. apply orb_false_iff in Hna as [Hr Hl].
    simpl. now rewrite fill_group_present, <- IH.
Qed.

End TabularSide.

Section ImagingSide.

Import generate_manifest ManifestSpec.

Lemma elem_of_aggregate_keys (rows : list Imaging) (k : string * (string * string)) :
  k ∈ Str.sort_by key_leb (Str.drop_duplicates_on (fun k => k) (omap group_key rows))
  <-> exists r, r ∈ rows /\ group_key r = Some k.
Proof.
  rewrite elem_of_sort_by.
  rewrite <- (map_id (Str.drop_duplicates_on _ _)), key_drop_duplicates_on, map_id.
  apply list_elem_of_omap.
Qed.

Lemma NoDup_aggregate_keys (rows : list Imaging) :
  NoDup (Str.sort_by key_leb
           (Str.drop_duplicates_on (fun k => k) (omap group_key rows))).
Proof.
  rewrite sort_by_Permutation.
  rewrite <- (map_id (Str.drop_duplicates_on _ _)).
  apply NoDup_drop_duplicates_on.
Qed.

Lemma aggregate_keys (ddm : gmap string string) (rows : list Imaging) :
  map av_key (aggregate ddm rows)
  = map (fun k : string * (string * string) => (k.1, k.2.1))
      (Str.sort_by key_leb (Str.drop_duplicates_on (fun k => k) (omap group_key rows))).
Proof. unfold aggregate. now rewrite map_map. Qed.

(** The pairs of the aggregated frame are those of the rows that have a
    session. *)
Lemma elem_of_aggregate (ddm : gmap string string) (rows : list Imaging)
    (p : string * string) :
  p ∈ map av_key (aggregate ddm rows)
  <-> exists r, r ∈ rows /\ img_key r = p /\ is_Some (img_session r).
Proof.
  rewrite aggregate_keys, list_elem_of_fmap. split.
  - intros (k & -> & Hk). apply elem_of_aggregate_keys in Hk as (r & Hr & Hkey).
    exists r. split; [exact Hr|]. unfold group_key in Hkey.
    destruct (img_session r) as [s|]; [|discriminate].
    injection Hkey as <-. split; [reflexivity|eauto].
  - intros (r & Hr & <- & [s Hs]).
    exists (img_participant_id r, (img_visit r, s)). split; [reflexivity|].
    apply elem_of_aggregate_keys. exists r. split; [exact Hr|].
    unfold group_key. now rewrite Hs.
Qed.

(** When the session of a row is a function of its visit, the aggregated
    frame has one row for each pair. *)
Lemma NoDup_aggregate (ddm sm : gmap string string) (rows : list Imaging) :
  (forall r, r ∈ rows -> img_session r = sm !! img_visit r) ->
  NoDup (map av_key (aggregate ddm rows)).
Proof.
  intros Hfun. rewrite aggregate_keys.
  apply (NoDup_fmap_2_strong (fun k : string * (string * string) => (k.1, k.2.1)));
    [|apply NoDup_aggregate_keys].
  intros [s1 [v1 e1]] [s2 [v2 e2]] H1 H2 Heq. simpl in Heq.
  injection Heq as -> ->.
  apply elem_of_aggregate_keys in H1 as (r1 & Hr1 & Hk1).
  apply elem_of_aggregate_keys in H2 as (r2 & Hr2 & Hk2).
  unfold group_key in Hk1, Hk2.
  pose proof (Hfun r1 Hr1) as Hs1. pose proof (Hfun r2 Hr2) as Hs2.
  destruct (img_session r1) as [x1|]; [|discriminate].
  destruct (img_session r2) as [x2|]; [|discriminate].
  injection Hk1 as _ Hv1 ->. injection Hk2 as _ Hv2 ->.
  rewrite Hv1 in Hs1. rewrite Hv2 in Hs2. congruence.
Qed.

Lemma filtered_imaging_spec (SESSIONS : list string) (rows : list Imaging) (r : Imaging) :
  r ∈ filtered_imaging SESSIONS rows ->
  r ∈ rows /\ is_Some (img_session r).
Proof.
  unfold filtered_imaging. rewrite !elem_of_filter_bool.
  intros [[Hr Hs] _]. split; [exact Hr|].
  unfold isin_option in Hs. destruct (img_session r); [eauto|discriminate].
Qed.

Lemma elem_of_aggregated_imaging (T : filter_image_descriptions.Tables)
    (SESSIONS : list string)
    (js : list (string * filter_image_descriptions.Json)) (rows : list Imaging)
    (p : string * string) :
  p ∈ map av_key (aggregated_imaging T SESSIONS js rows)
  <-> p ∈ map img_key (filtered_imaging SESSIONS rows).
Proof.
  unfold aggregated_imaging. rewrite elem_of_aggregate, list_elem_of_fmap. split.
  - intros (r & Hr & <- & _). now exists r.
  - intros (r & -> & Hr). exists r. split; [exact Hr|]. split; [reflexivity|].
    now apply filtered_imaging_spec in Hr as [_ Hs].
Qed.

Lemma NoDup_aggregated_imaging (T : filter_image_descriptions.Tables)
    (SESSIONS : list string)
    (js : list (string * filter_image_descriptions.Json)) (sm : gmap string string)
    (rows : list Imaging) :
  (forall r, r ∈ rows -> img_session r = sm !! img_visit r) ->
  NoDup (map av_key (aggregated_imaging T SESSIONS js rows)).
Proof.
  intros Hfun. unfold aggregated_imaging. apply (NoDup_aggregate _ sm).
  intros r Hr. apply Hfun. now apply filtered_imaging_spec in Hr as [Hr _].
Qed.

End ImagingSide.

Section OuterMerge.

Import generate_manifest ManifestSpec.

Lemma same_key_true (t : TabularGroup) (i : ImagingAvailability) :
  same_key t i = true <-> av_key i = tab_key t.
Proof.
  unfold same_key, av_key, tab_key.
  rewrite andb_true_iff, !String.eqb_eq. split.
  - intros [-> ->]. reflexivity.
  - intros [= -> ->]. split; reflexivity.
Qed.

Lemma unmatched_spec (df_tabular : list TabularGroup) (i : ImagingAvailability) :
  negb (existsb (fun t => same_key t i) df_tabular) = true
  <-> av_key i ∉ map tab_key df_tabular.
Proof.
  rewrite negb_true_iff, <- not_true_iff_false, existsb_exists.
  split; intros H Hin; apply H.
  - apply list_elem_of_fmap in Hin as (t & Ht & Hin).
    exists t. split; [now apply list_elem_of_In|]. now apply same_key_true.
  - destruct Hin as (t & Hin & Ht). apply same_key_true in Ht. rewrite Ht.
    apply list_elem_of_fmap. exists t. split; [reflexivity|now apply list_elem_of_In].
Qed.

(** The pairs of the merged frame: those of the tabular frame, then those
    of the imaging frame that the tabular frame lacks. *)
Lemma merge_outer_keys (df_tabular : list TabularGroup)
    (df_imaging : list ImagingAvailability) :
  NoDup (map av_key df_imaging) ->
  map mg_key (merge_outer df_tabular df_imaging)
  = map tab_key df_tabular
    ++ map av_key
         (List.filter (fun i => negb (existsb (fun t => same_key t i) df_tabular))
            df_imaging).
Proof.
  intros Hnd. unfold merge_outer. rewrite map_app, map_map. f_equal.
  apply map_flat_map_one. intros t.
  destruct (filter_fixed_key av_key (same_key t) (tab_key t) df_imaging Hnd)
    as [->|[i ->]]; try reflexivity.
  intros i Hi. now apply same_key_true.
Qed.

Lemma NoDup_merge_outer (df_tabular : list TabularGroup)
    (df_imaging : list ImagingAvailability) :
  NoDup (map tab_key df_tabular) -> NoDup (map av_key df_imaging) ->
  NoDup (map mg_key (merge_outer df_tabular df_imaging)).
Proof.
  intros Ht Hi. rewrite merge_outer_keys by exact Hi.
  apply NoDup_app. split; [exact Ht|]. split; [|now apply NoDup_map_filter].
  intros p Hp Hin. apply list_elem_of_fmap in Hin as (i & -> & Hin).
  apply elem_of_filter_bool in Hin as [_ Hin]. now apply unmatched_spec in Hin.
Qed.

Lemma elem_of_merge_outer (df_tabular : list TabularGroup)
    (df_imaging : list ImagingAvailability) (p : string * string) :
  NoDup (map av_key df_imaging) ->
  p ∈ map mg_key (merge_outer df_tabular df_imaging)
  <-> p ∈ map tab_key df_tabular \/ p ∈ map av_key df_imaging.
Proof.
  intros Hnd. rewrite merge_outer_keys by exact Hnd. rewrite elem_of_app.
  split; intros [H|H]; auto.
  - right. apply list_elem_of_fmap in H as (i & -> & Hin).
    apply elem_of_filter_bool in Hin as [Hin _].
    apply list_elem_of_fmap. now exists i.
  - destruct (decide (p ∈ map tab_key df_tabular)) as [Hp|Hp]; [now left|right].
    apply list_elem_of_fmap in H as (i & -> & Hin).
    apply list_elem_of_fmap. exists i. split; [reflexivity|].
    apply elem_of_filter_bool. split; [exact Hin|]. now apply unmatched_spec.
Qed.

(** A merged row that brings a list of datatypes has its pair in the
    imaging frame. *)
Lemma merge_outer_datatype (df_tabular : list TabularGroup)
    (df_imaging : list ImagingAvailability) (x : Merged) :
  x ∈ merge_outer df_tabular df_imaging ->
  mg_datatype x = None \/ mg_key x ∈ map av_key df_imaging.
Proof.
  unfold merge_outer. rewrite elem_of_app. intros [H|H].
  - apply list_elem_of_In, in_flat_map in H as (t & _ & H).
    destruct (List.filter (same_key t) df_imaging) as [|i0 l] eqn:Hf.
    + apply list_elem_of_In, list_elem_of_singleton in H. subst x. now left.
    + apply list_elem_of_In, list_elem_of_fmap in H as (i & -> & Hi). right.
      rewrite <- Hf in Hi. apply elem_of_filter_bool in Hi as [Hi Hk].
      apply same_key_true in Hk. unfold mg_key. simpl.
      change (tab_participant_id t, tab_visit t) with (tab_key t). rewrite <- Hk.
      apply list_elem_of_fmap. now exists i.
  - apply list_elem_of_fmap in H as (i & -> & Hi). right.
    apply elem_of_filter_bool in Hi as [Hi _].
    apply list_elem_of_fmap. now exists i.
Qed.

End OuterMerge.

Section SortedManifest.

Import generate_manifest ManifestSpec.

Lemma combine_fst_snd {A B : Type} (l1 : list A) (l2 : list B) :
  length l1 = length l2 ->
  map fst (combine l1 l2) = l1 /\ map snd (combine l1 l2) = l2.
Proof.
  revert l2. induction l1 as [|x l1 IH]; intros [|y l2] Hlen; try discriminate.
  - now split.
  - simpl in Hlen. destruct (IH l2) as [H1 H2]; [lia|].
    simpl. now rewrite H1, H2.
Qed.

Lemma range_index_fst {A : Type} (rows : list A) :
  map fst (range_index rows) = seq 0 (length rows).
Proof. unfold range_index. apply combine_fst_snd. now rewrite length_seq. Qed.

Lemma range_index_snd {A : Type} (rows : list A) :
  map snd (range_index rows) = rows.
Proof. unfold range_index. apply combine_fst_snd. now rewrite length_seq. Qed.

Lemma manifest_leb_total (a b : nat * ManifestRow) :
  manifest_leb a b = true \/ manifest_leb b a = true.
Proof. apply pair_leb_total, String.leb_total. Qed.

Lemma manifest_leb_trans (a b c : nat * ManifestRow) :
  manifest_leb a b = true -> manifest_leb b c = true -> manifest_leb a c = true.
Proof. apply pair_leb_trans, string_leb_trans. Qed.

Lemma sort_manifest_snd (rows : list ManifestRow) :
  map snd (sort_manifest rows)
  = map snd (Str.sort_by manifest_leb (range_index rows)).
Proof. unfold sort_manifest, reset_index. apply range_index_snd. Qed.

Lemma sort_manifest_Permutation (rows : list ManifestRow) :
  Permutation (map snd (sort_manifest rows)) rows.
Proof.
  rewrite sort_manifest_snd, sort_by_Permutation. now rewrite range_index_snd.
Qed.

Lemma sort_manifest_index (rows : list ManifestRow) :
  map fst (sort_manifest rows) = seq 0 (length rows).
Proof.
  unfold sort_manifest, reset_index. rewrite range_index_fst, length_map.
  now rewrite length_sort_by, <- (length_map fst), range_index_fst, length_seq.
Qed.

Lemma length_sort_manifest (rows : list ManifestRow) :
  length (sort_manifest rows) = length rows.
Proof.
  rewrite <- (length_map fst), sort_manifest_index. apply length_seq.
Qed.

Lemma sort_manifest_in_key_order (rows : list ManifestRow) :
  in_key_order (map snd (sort_manifest rows)).
Proof.
  rewrite sort_manifest_snd. unfold in_key_order.
  pose proof (sort_by_StronglySorted manifest_leb manifest_leb_total manifest_leb_trans
                (range_index rows)) as H.
  induction H as [|x l Hl IH Hx]; simpl; constructor; [exact IH|].
  apply Forall_forall. intros y Hy.
  apply list_elem_of_fmap in Hy as (z & -> & Hz).
  apply (proj1 (Forall_forall _ _) Hx z Hz).
Qed.

(** The catalog changes the identifiers and nothing else, and logs
    nothing. *)
Lemma set_bids_id_preserves (updates : list (nat * option string))
    (df df' : Frame ManifestRow) (log log' : list Warning) :
  set_bids_id updates df log = (inr df', log') ->
  map without_bids_id df' = map without_bids_id df /\ log' = log.
Proof.
  revert df. induction updates as [|[label value] updates IH]; intros df; simpl.
  - unfold ret. intros [= <- <-]. now split.
  - destruct (existsb (Nat.eqb label) (map fst df)); [|discriminate].
    intros H. apply IH in H as [H ->]. split; [|reflexivity].
    rewrite H, map_map. apply map_ext. intros [i r]. now destruct (Nat.eqb i label).
Qed.

Lemma populate_bids_id_preserves (read_manifest : Catalog)
    (snapshot : list ManifestRow) (sessions : list string)
    (df df' : Frame ManifestRow) (log log' : list Warning) :
  populate_bids_id read_manifest snapshot sessions df log = (inr df', log') ->
  map without_bids_id df' = map without_bids_id df /\ log' = log.
Proof.
  revert df. induction sessions as [|session sessions IH]; intros df; simpl.
  - unfold ret. intros [= <- <-]. now split.
  - destruct (read_manifest snapshot session) as [|u updates]; [discriminate|].
    intros H. apply bind_inr in H as (df1 & log1 & H1 & H2).
    apply set_bids_id_preserves in H1 as [H1 ->].
    apply IH in H2 as [H2 ->]. split; [congruence|reflexivity].
Qed.

Lemma without_bids_id_fst (df : Frame ManifestRow) :
  map fst (map without_bids_id df) = map fst df.
Proof. rewrite map_map. now apply map_ext. Qed.

Lemma without_bids_id_key (df : Frame ManifestRow) :
  map (fun x => row_key x.2) (map without_bids_id df)
  = map (fun x => row_key x.2) df.
Proof. rewrite map_map. now apply map_ext. Qed.

Lemma without_bids_id_datatype (df : Frame ManifestRow) :
  map (fun x => (row_key x.2, datatype x.2)) (map without_bids_id df)
  = map (fun x => (row_key x.2, datatype x.2)) df.
Proof. rewrite map_map. now apply map_ext. Qed.

End SortedManifest.

Section BuildManifest.

Import filter_image_descriptions generate_manifest ManifestSpec.

Lemma normalize_imaging_inr (vm sm gm : gmap string string) (df : list ImagingRow)
    (log log' : list Warning) (rows : list Imaging) :
  normalize_imaging vm sm gm df log = (inr rows, log') ->
  Forall2 (normalised vm sm gm) df rows
  /\ forall log0, (normalize_imaging vm sm gm df log0).1 = inr rows.
Proof.
  unfold normalize_imaging.
  destruct (lookup_all vm (map Visit df)) as [v|visits] eqn:Hv; [discriminate|].
  intros H. apply bind_inr in H as ([] & log1 & _ & H).
  destruct (lookup_all gm (map Research_Group df)) as [g|groups] eqn:Hg;
    [discriminate|].
  unfold ret in H. injection H as <- _. split.
  - apply normalised_rows; now apply lookup_all_inr.
  - intros log0. unfold mbind, M_bind, bind.
    destruct (warn_if_inr (bool_decide (list_to_set visits ∖ dom sm ≠ (∅ : gset string)))
                (missing_session_mappings (list_to_set visits ∖ dom sm)) log0)
      as [log2 ->].
    reflexivity.
Qed.

Lemma keep_imaging_value (SESSIONS : list string) (rows : list Imaging)
    (log : list Warning) :
  exists log', keep_imaging SESSIONS rows log
               = (inr (filtered_imaging SESSIONS rows), log').
Proof.
  unfold keep_imaging, mbind, M_bind, bind.
  destruct (warn_if_inr
              (bool_decide
                 (list_to_set SESSIONS ∖ list_to_set (omap img_session rows)
                  ≠ (∅ : gset string)))
              (sessions_not_encountered
                 (list_to_set SESSIONS ∖ list_to_set (omap img_session rows))) log)
    as [log1 ->].
  match goal with
  | |- context [warn_if ?b ?w log1] => destruct (warn_if_inr b w log1) as [log2 ->]
  end.
  now exists log2.
Qed.

Lemma aggregate_imaging_value (datatypes : list string) (ddm : gmap string string)
    (rows : list Imaging) (log : list Warning) :
  exists log', aggregate_imaging datatypes ddm rows log
               = (inr (aggregate ddm rows), log').
Proof.
  unfold aggregate_imaging, mbind, M_bind, bind.
  match goal with
  | |- context [warn_if ?b ?w log] => destruct (warn_if_inr b w log) as [log1 ->]
  end.
  now exists log1.
Qed.

Lemma read_tabular_inr (files : list (list Tabular)) (df_tabular : list Tabular)
    (log log' : list Warning) :
  read_tabular files log = (inr df_tabular, log') ->
  files <> [] /\ df_tabular = load_tabular files /\ log' = log.
Proof.
  destruct files as [|file files]; [discriminate|].
  unfold read_tabular, ret. intros [= <- <-]. now repeat split.
Qed.

Lemma read_tabular_value (files : list (list Tabular)) (log : list Warning) :
  files <> [] -> read_tabular files log = (inr (load_tabular files), log).
Proof. now destruct files. Qed.

(** What [build_manifest] returns, when it returns: the sorted outer merge
    of the two filtered frames, with identifiers from the catalog. *)
Lemma build_manifest_inr (T : Tables) (read_manifest : Catalog)
    (SESSIONS : list string) (df_imaging : list ImagingRow)
    (tabular_files : list (list Tabular)) (df_group : list Status)
    (js : list (string * Json)) (log log' : list Warning)
    (df_manifest : Frame ManifestRow) :
  build_manifest T read_manifest SESSIONS df_imaging tabular_files df_group js log
  = (inr df_manifest, log') ->
  exists rows,
    (forall log0,
       (normalize_imaging VISIT_IMAGING_MAP VISIT_SESSION_MAP GROUP_IMAGING_MAP
          df_imaging log0).1 = inr rows)
    /\ Forall2 (normalised VISIT_IMAGING_MAP VISIT_SESSION_MAP GROUP_IMAGING_MAP)
         df_imaging rows
    /\ map without_bids_id df_manifest
       = map without_bids_id
           (sorted_manifest (filtered_tabular tabular_files df_group rows)
              (aggregated_imaging T SESSIONS js rows)).
Proof.
  unfold build_manifest. intros H.
  apply bind_inr in H as ([] & log1 & _ & H). cbv beta in H.
  apply bind_inr in H as (df_tabular & log1' & Hread & H). cbv beta in H.
  apply read_tabular_inr in Hread as (_ & -> & ->).
  unfold aggregated_imaging.
  destruct (reverse_mapping (DATATYPES T) js) as [ddm warnings].
  apply bind_inr in H as ([] & log2 & _ & H). cbv beta in H.
  apply bind_inr in H as (rows & log3 & Hnorm & H). cbv beta in H.
  apply bind_inr in H as (tab & log4 & Htab & H). cbv beta in H.
  apply bind_inr in H as (img1 & log5 & Hkeep & H). cbv beta in H.
  apply bind_inr in H as (img2 & log6 & Hagg & H). cbv beta in H.
  apply bind_inr in H as ([] & log7 & _ & H). cbv beta in H.
  apply populate_bids_id_preserves in H as [H _].
  apply normalize_imaging_inr in Hnorm as [Hrows Hvalue].
  destruct (add_group_value (load_tabular tabular_files) df_group rows log3)
    as [log4' Htab'].
  rewrite Htab' in Htab. injection Htab as <- _.
  destruct (keep_imaging_value SESSIONS rows log4) as [log5' Hkeep'].
  rewrite Hkeep' in Hkeep. injection Hkeep as <- _.
  destruct (aggregate_imaging_value (DATATYPES T) ddm
              (filtered_imaging SESSIONS rows) log5) as [log6' Hagg'].
  rewrite Hagg' in Hagg. injection Hagg as <- _.
  exists rows. split; [exact Hvalue|]. split; [exact Hrows|]. exact H.
Qed.

End BuildManifest.

Section ManifestFacts.

Import filter_image_descriptions generate_manifest ManifestSpec.

Lemma occurrences_keys (p : string * string) (df : Frame ManifestRow) :
  occurrences p df
  = length (List.filter (fun k => bool_decide (k = p))
              (map (fun x : nat * ManifestRow => row_key x.2) df)).
Proof.
  unfold occurrences. induction df as [|x df IH]; [reflexivity|]. simpl.
  destruct (bool_decide (row_key x.2 = p)); simpl; now rewrite IH.
Qed.

Lemma in_key_order_keys (rows : list ManifestRow) :
  in_key_order rows
  <-> StronglySorted (fun k1 k2 => Str.pair_leb String.leb k1 k2 = true)
        (map row_key rows).
Proof.
  unfold in_key_order. induction rows as [|r rows IH]; simpl.
  - split; constructor.
  - split; intros H; apply StronglySorted_inv in H as [H1 H2];
      (constructor; [now apply IH|]).
    + apply Forall_forall. intros k Hk.
      apply list_elem_of_fmap in Hk as (r' & -> & Hr').
      apply (proj1 (Forall_forall _ _) H2 r' Hr').
    + apply Forall_forall. intros r' Hr'.
      apply (proj1 (Forall_forall _ _) H2 (row_key r')).
      apply list_elem_of_fmap. now exists r'.
Qed.

Lemma combine_map_fst_snd {A B : Type} (l : list (A * B)) :
  combine (map fst l) (map snd l) = l.
Proof. induction l as [|[a b] l IH]; [reflexivity|]. simpl. now rewrite IH. Qed.

Lemma range_index_of_frame {A : Type} (df : Frame A) :
  map fst df = seq 0 (length df) -> range_index (map snd df) = df.
Proof.
  intros H. unfold range_index. rewrite length_map, <- H. apply combine_map_fst_snd.
Qed.

Variables (T : Tables) (read_manifest : Catalog) (SESSIONS : list string)
  (df_imaging : list ImagingRow) (tabular_files : list (list Tabular))
  (df_group : list Status) (js : list (string * Json)).

(** The manifest carries the index 0, 1, 2, ... *)
Lemma build_manifest_index (log log' : list Warning) (df_manifest : Frame ManifestRow) :
  build_manifest T read_manifest SESSIONS df_imaging tabular_files df_group js log
  = (inr df_manifest, log') ->
  map fst df_manifest = seq 0 (length df_manifest).
Proof.
  intros H. apply build_manifest_inr in H as (rows & _ & _ & H).
  assert (length df_manifest
          = length (map manifest_row
                      (merge_outer (filtered_tabular tabular_files df_group rows)
                         (aggregated_imaging T SESSIONS js rows)))) as Hlen.
  { rewrite <- (length_map without_bids_id df_manifest), H, length_map.
    apply length_sort_manifest. }
  rewrite Hlen, <- (without_bids_id_fst df_manifest), H, without_bids_id_fst.
  apply sort_manifest_index.
Qed.

(** The rows of the manifest are in the order of their keys. *)
Lemma build_manifest_in_key_order (log log' : list Warning)
    (df_manifest : Frame ManifestRow) :
  build_manifest T read_manifest SESSIONS df_imaging tabular_files df_group js log
  = (inr df_manifest, log') ->
  in_key_order (map snd df_manifest).
Proof.
  intros H. apply build_manifest_inr in H as (rows & _ & _ & H).
  apply in_key_order_keys. rewrite map_map.
  rewrite <- (without_bids_id_key df_manifest), H, without_bids_id_key.
  rewrite <- (map_map snd row_key). apply in_key_order_keys.
  apply sort_manifest_in_key_order.
Qed.

(** The pairs of the manifest are those of the outer merge, in another
    order. *)
Lemma build_manifest_keys (rows : list Imaging) (df_manifest : Frame ManifestRow) :
  map without_bids_id df_manifest
  = map without_bids_id
      (sorted_manifest (filtered_tabular tabular_files df_group rows)
         (aggregated_imaging T SESSIONS js rows)) ->
  Permutation (map (fun x : nat * ManifestRow => row_key x.2) df_manifest)
    (map mg_key (merge_outer (filtered_tabular tabular_files df_group rows)
                   (aggregated_imaging T SESSIONS js rows))).
Proof.
  intros H. rewrite <- (without_bids_id_key df_manifest), H, without_bids_id_key.
  rewrite <- (map_map snd row_key). unfold sorted_manifest.
  rewrite sort_manifest_Permutation, map_map. reflexivity.
Qed.

End ManifestFacts.

Section ManifestClaims.

Import filter_image_descriptions generate_manifest ManifestSpec.

(** C3, as the code has it.  When the participant status file lists each
    subject once, every (subject, visit) pair of the filtered tabular frame
    or of the filtered imaging frame is carried by exactly one row of the
    manifest, and a row whose pair has no imaging record has the empty list
    of datatypes. *)
Theorem manifest_one_row_per_pair (T : Tables) (read_manifest : Catalog)
    (SESSIONS : list string) (df_imaging : list ImagingRow)
    (tabular_files : list (list Tabular)) (df_group : list Status)
    (js : list (string * Json)) (df_manifest : Frame ManifestRow)
    (log : list Warning) :
  NoDup (map status_PATNO df_group) ->
  build_manifest T read_manifest SESSIONS df_imaging tabular_files df_group js []
  = (inr df_manifest, log) ->
  exists rows,
    (normalize_imaging VISIT_IMAGING_MAP VISIT_SESSION_MAP GROUP_IMAGING_MAP
       df_imaging []).1 = inr rows
    /\ (forall p,
          p ∈ map tab_key (filtered_tabular tabular_files df_group rows)
          \/ p ∈ map img_key (filtered_imaging SESSIONS rows) ->
          occurrences p df_manifest = 1)
    /\ (forall i r, (i, r) ∈ df_manifest ->
          row_key r ∉ map img_key (filtered_imaging SESSIONS rows) ->
          datatype r = []).
Proof.
  intros Hgroup H. apply build_manifest_inr in H as (rows & Hnorm & Hrows & H).
  exists rows. split; [apply Hnorm|].
  assert (NoDup (map av_key (aggregated_imaging T SESSIONS js rows))) as Hnd.
  { apply (NoDup_aggregated_imaging T SESSIONS js VISIT_SESSION_MAP).
    intros r Hr. apply list_elem_of_lookup in Hr as [i Hi].
    destruct (Forall2_lookup_r _ _ _ _ _ Hrows Hi) as (r0 & _ & Hn).
    apply Hn. }
  pose proof (build_manifest_keys T SESSIONS tabular_files df_group js rows
                df_manifest H) as Hperm.
  split.
  - intros p Hp. rewrite occurrences_keys.
    rewrite (length_filter_Permutation _ _ _ Hperm).
    apply one_occurrence.
    + apply NoDup_merge_outer; [|exact Hnd].
      now apply NoDup_filtered_tabular.
    + apply elem_of_merge_outer; [exact Hnd|].
      rewrite elem_of_aggregated_imaging. exact Hp.
  - intros i r Hin Hkey.
    assert ((row_key r, datatype r)
            ∈ map (fun x : nat * ManifestRow => (row_key x.2, datatype x.2)) df_manifest)
      as Hpair by (apply list_elem_of_fmap; now exists (i, r)).
    rewrite <- (without_bids_id_datatype df_manifest), H, without_bids_id_datatype
      in Hpair.
    apply list_elem_of_fmap in Hpair as ([j r'] & Heq & Hr').
    pose proof (f_equal fst Heq) as Hk. pose proof (f_equal snd Heq) as Hd.
    cbn [fst snd] in Hk, Hd. rewrite Hd. rewrite Hk in Hkey.
    assert (r' ∈ map snd (sorted_manifest
                            (filtered_tabular tabular_files df_group rows)
                            (aggregated_imaging T SESSIONS js rows))) as Hsnd
      by (apply list_elem_of_fmap; now exists (j, r')).
    unfold sorted_manifest in Hsnd. rewrite sort_manifest_Permutation in Hsnd.
    apply list_elem_of_fmap in Hsnd as (x & -> & Hx).
    destruct (merge_outer_datatype _ _ x Hx) as [Hnone|Hsome].
    + simpl. now rewrite Hnone.
    + exfalso. apply Hkey. apply elem_of_aggregated_imaging in Hsome. exact Hsome.
Qed.

Lemma manifest_one_row_per_pair_witness :
  exists df_manifest rows,
    (build_manifest Samples.tables ManifestSamples.catalog ManifestSamples.SESSIONS
       ManifestSamples.df_imaging ManifestSamples.tabular_files
       ManifestSamples.df_group ReversalSpec.listed_twice []).1 = inr df_manifest
    /\ (normalize_imaging VISIT_IMAGING_MAP VISIT_SESSION_MAP GROUP_IMAGING_MAP
          ManifestSamples.df_imaging []).1 = inr rows
    /\ occurrences ("3003", "BL") df_manifest = 1
    /\ occurrences ("3002", "BL") df_manifest = 1.
Proof.
  destruct (build_manifest Samples.tables ManifestSamples.catalog
              ManifestSamples.SESSIONS ManifestSamples.df_imaging
              ManifestSamples.tabular_files ManifestSamples.df_group
              ReversalSpec.listed_twice []) as [[e|df_manifest] log] eqn:Hbuild;
    [vm_compute in Hbuild; discriminate Hbuild|].
  destruct (manifest_one_row_per_pair Samples.tables ManifestSamples.catalog
              ManifestSamples.SESSIONS ManifestSamples.df_imaging
              ManifestSamples.tabular_files ManifestSamples.df_group
              ReversalSpec.listed_twice df_manifest log)
    as (rows & Hnorm & Hone & _).
  - apply (bool_decide_unpack _). vm_compute. exact I.
  - exact Hbuild.
  - exists df_manifest, rows. split; [reflexivity|]. split; [exact Hnorm|].
    vm_compute in Hnorm. injection Hnorm as <-.
    split; apply Hone.
    + left. apply list_elem_of_In. vm_compute. tauto.
    + right. apply list_elem_of_In. vm_compute. tauto.
Defined.

(** C3, as it is stated, fails: a status file that lists a subject twice
    doubles the rows of that subject in the tabular frame, and in the
    manifest. *)
Lemma repeated_status_row_doubles_pair :
  ~ one_row_per_pair Samples.tables ManifestSamples.catalog ManifestSamples.SESSIONS
      ManifestSamples.df_imaging ManifestSamples.tabular_files
      ManifestSamples.df_group_repeated ReversalSpec.listed_twice.
Proof.
  intros H.
  destruct (build_manifest Samples.tables ManifestSamples.catalog
              ManifestSamples.SESSIONS ManifestSamples.df_imaging
              ManifestSamples.tabular_files ManifestSamples.df_group_repeated
              ReversalSpec.listed_twice []) as [[e|df_manifest] log] eqn:Hbuild;
    [vm_compute in Hbuild; discriminate Hbuild|].
  destruct (normalize_imaging VISIT_IMAGING_MAP VISIT_SESSION_MAP GROUP_IMAGING_MAP
              ManifestSamples.df_imaging []) as [[e|rows] log0] eqn:Hnorm;
    [vm_compute in Hnorm; discriminate Hnorm|].
  specialize (H df_manifest log rows Hbuild (f_equal fst Hnorm) ("3003", "BL")).
  vm_compute in Hnorm. injection Hnorm as <- _.
  vm_compute in Hbuild. injection Hbuild as <- _.
  assert (occurrences ("3003", "BL")
            [(0, {| participant_id := "3001"; participant_dicom_dir := None;
                    visit := "BL"; session := Some "ses-1"; datatype := ["dwi"];
                    bids_id := Some "sub-3001" |});
             (1, {| participant_id := "3001"; participant_dicom_dir := None;
                    visit := "V04"; session := Some "ses-5"; datatype := ["func"];
                    bids_id := None |});
             (2, {| participant_id := "3002"; participant_dicom_dir := None;
                    visit := "BL"; session := Some "ses-1"; datatype := ["func"];
                    bids_id := None |});
             (3, {| participant_id := "3003"; participant_dicom_dir := None;
                    visit := "BL"; session := None; datatype := [];
                    bids_id := None |});
             (4, {| participant_id := "3003"; participant_dicom_dir := None;
                    visit := "BL"; session := None; datatype := [];
                    bids_id := None |})] = 2) as Htwo
    by (vm_compute; reflexivity).
  rewrite H in Htwo; [discriminate Htwo|].
  left. apply list_elem_of_In. vm_compute. tauto.
Qed.

(** C10.  The rows of every manifest that is built are in ascending order
    of subject and then of visit, and its index is 0, 1, 2, ... *)
Theorem manifest_sorted_and_reindexed (T : Tables) (read_manifest : Catalog)
    (SESSIONS : list string) (df_imaging : list ImagingRow)
    (tabular_files : list (list Tabular)) (df_group : list Status)
    (js : list (string * Json)) (df_manifest : Frame ManifestRow)
    (log log' : list Warning) :
  build_manifest T read_manifest SESSIONS df_imaging tabular_files df_group js log
  = (inr df_manifest, log') ->
  in_key_order (map snd df_manifest)
  /\ map fst df_manifest = seq 0 (length df_manifest).
Proof.
  intros H. split.
  - exact (build_manifest_in_key_order _ _ _ _ _ _ _ _ _ _ H).
  - exact (build_manifest_index _ _ _ _ _ _ _ _ _ _ H).
Qed.

Lemma manifest_sorted_and_reindexed_witness :
  exists df_manifest,
    (build_manifest Samples.tables ManifestSamples.catalog ManifestSamples.SESSIONS
       ManifestSamples.df_imaging ManifestSamples.tabular_files
       ManifestSamples.df_group ReversalSpec.listed_twice []).1 = inr df_manifest
    /\ in_key_order (map snd df_manifest)
    /\ map fst df_manifest = [0; 1; 2; 3].
Proof.
  destruct (build_manifest Samples.tables ManifestSamples.catalog
              ManifestSamples.SESSIONS ManifestSamples.df_imaging
              ManifestSamples.tabular_files ManifestSamples.df_group
              ReversalSpec.listed_twice []) as [[e|df_manifest] log] eqn:Hbuild;
    [vm_compute in Hbuild; discriminate Hbuild|].
  destruct (manifest_sorted_and_reindexed _ _ _ _ _ _ _ _ _ _ Hbuild) as [Hs Hi].
  exists df_manifest. split; [reflexivity|]. split; [exact Hs|].
  rewrite Hi. vm_compute in Hbuild. injection Hbuild as <- _. reflexivity.
Defined.

End ManifestClaims.

Section ManifestFileClaims.

Import filter_image_descriptions generate_manifest ManifestSpec.

Context {File : Type} (io : CsvIO File).

Lemma save_manifest_same (overwrite : bool) (df : Frame ManifestRow) (file : File) :
  df = range_index (read_csv io file) ->
  save_manifest io overwrite df (Some file) = (inr found_same_manifest, Some file).
Proof.
  intros H. unfold save_manifest. now rewrite bool_decide_eq_true_2.
Qed.

Lemma save_manifest_differs (df : Frame ManifestRow) (file : File) :
  df <> range_index (read_csv io file) ->
  save_manifest io false df (Some file) = (inl FileExistsError, Some file).
Proof.
  intros H. unfold save_manifest. now rewrite bool_decide_eq_false_2.
Qed.

Lemma save_manifest_overwrite (df : Frame ManifestRow) (file : File) :
  df <> range_index (read_csv io file) ->
  save_manifest io true df (Some file)
  = (inr file_written, Some (to_csv io (map snd df))).
Proof.
  intros H. unfold save_manifest. now rewrite bool_decide_eq_false_2.
Qed.

(** After [save_manifest], a second call with the same frame writes
    nothing, provided the file that writing the frame gives reads back as
    its rows and the frame carries the index 0, 1, 2, ... *)
Lemma save_manifest_twice (overwrite : bool) (df : Frame ManifestRow)
    (fpath : option File) :
  read_csv io (to_csv io (map snd df)) = map snd df ->
  map fst df = seq 0 (length df) ->
  let first := save_manifest io overwrite df fpath in
  let second := save_manifest io overwrite df first.2 in
  second.2 = first.2 /\ second.1 <> inr file_written.
Proof.
  intros Hround Hindex.
  assert (save_manifest io overwrite df (Some (to_csv io (map snd df)))
          = (inr found_same_manifest, Some (to_csv io (map snd df)))) as Hwritten.
  { apply save_manifest_same. rewrite Hround. symmetry.
    now apply range_index_of_frame. }
  cbv zeta. destruct fpath as [file|].
  - destruct (decide (df = range_index (read_csv io file))) as [Heq|Hne].
    + rewrite (save_manifest_same overwrite df file Heq). cbn [fst snd].
      rewrite (save_manifest_same overwrite df file Heq). cbn [fst snd].
      split; [reflexivity|discriminate].
    + destruct overwrite.
      * rewrite (save_manifest_overwrite df file Hne). cbn [fst snd].
        rewrite Hwritten. cbn [fst snd]. split; [reflexivity|discriminate].
      * rewrite (save_manifest_differs df file Hne). cbn [fst snd].
        rewrite (save_manifest_differs df file Hne). cbn [fst snd].
        split; [reflexivity|discriminate].
  - change (save_manifest io overwrite df None)
      with (@inr Exception Outcome file_written, Some (to_csv io (map snd df))).
    cbn [fst snd]. rewrite Hwritten. cbn [fst snd].
    split; [reflexivity|discriminate].
Qed.

(** C4, as the code has it.  When a manifest file exists: if the frame
    read back from it equals the manifest that was just built, [run]
    returns without writing; if it does not and the overwrite flag is not
    set, [run] raises [FileExistsError] and the file stays as it was.
    Where the file that writing the manifest gives reads back as the rows
    written, a file that is byte for byte that file is found equal, and a
    second [run] on the same inputs writes nothing, whatever file was there
    before the first.  A [run] that builds no manifest writes nothing. *)
Theorem existing_manifest_policy (T : Tables) (read_manifest : Catalog)
    (SESSIONS : list string) (df_imaging : list ImagingRow)
    (tabular_files : list (list Tabular)) (df_group : list Status)
    (js : list (string * Json)) :
  let build :=
    build_manifest T read_manifest SESSIONS df_imaging tabular_files df_group js [] in
  let run_on :=
    run io T read_manifest SESSIONS df_imaging tabular_files df_group js in
  (forall overwrite file df_manifest log,
     build = (inr df_manifest, log) ->
     df_manifest = range_index (read_csv io file) ->
     run_on overwrite (Some file) = (inr found_same_manifest, Some file, log))
  /\ (forall file df_manifest log,
        build = (inr df_manifest, log) ->
        df_manifest <> range_index (read_csv io file) ->
        run_on false (Some file) = (inl FileExistsError, Some file, log))
  /\ (forall df_manifest log,
        build = (inr df_manifest, log) ->
        read_csv io (to_csv io (map snd df_manifest)) = map snd df_manifest ->
        (forall overwrite,
           run_on overwrite (Some (to_csv io (map snd df_manifest)))
           = (inr found_same_manifest, Some (to_csv io (map snd df_manifest)), log))
        /\ (forall overwrite fpath_manifest,
              let first := run_on overwrite fpath_manifest in
              let second := run_on overwrite first.1.2 in
              second.1.2 = first.1.2 /\ second.1.1 <> inr file_written))
  /\ (forall e log overwrite fpath_manifest,
        build = (inl e, log) ->
        run_on overwrite fpath_manifest = (inl e, fpath_manifest, log)).
Proof.
  intros build run_on. subst build run_on. unfold run.
  split; [|split; [|split]].
  - intros overwrite file df log -> Heq. now rewrite save_manifest_same.
  - intros file df log -> Hne. now rewrite save_manifest_differs.
  - intros df log Hbuild Hround. rewrite Hbuild.
    pose proof (build_manifest_index _ _ _ _ _ _ _ _ _ _ Hbuild) as Hindex.
    split.
    + intros overwrite. rewrite save_manifest_same; [reflexivity|].
      rewrite Hround. symmetry. now apply range_index_of_frame.
    + intros overwrite fpath.
      pose proof (save_manifest_twice overwrite df fpath Hround Hindex) as Htwice.
      simpl in Htwice. simpl.
      destruct (save_manifest io overwrite df fpath) as [o1 f1]. simpl in *.
      destruct (save_manifest io overwrite df f1) as [o2 f2]. simpl in *.
      exact Htwice.
  - intros e log overwrite fpath ->. reflexivity.
Qed.

End ManifestFileClaims.

Lemma existing_manifest_policy_witness :
  let run_on :=
    generate_manifest.run ManifestSamples.rows_io Samples.tables
      ManifestSamples.catalog ManifestSamples.SESSIONS ManifestSamples.df_imaging
      ManifestSamples.tabular_files ManifestSamples.df_group
      ReversalSpec.listed_twice in
  (run_on false None).1.1 = inr generate_manifest.file_written
  /\ (run_on false (run_on false None).1.2).1.2 = (run_on false None).1.2
  /\ (run_on false (run_on false None).1.2).1.1 <> inr generate_manifest.file_written
  /\ (run_on false (Some [])).1 = (inl generate_manifest.FileExistsError, Some []).
Proof.
  intros run_on.
  destruct (existing_manifest_policy ManifestSamples.rows_io Samples.tables
              ManifestSamples.catalog ManifestSamples.SESSIONS
              ManifestSamples.df_imaging ManifestSamples.tabular_files
              ManifestSamples.df_group ReversalSpec.listed_twice)
    as (_ & Hdiffers & Hround & _).
  destruct (generate_manifest.build_manifest Samples.tables ManifestSamples.catalog
              ManifestSamples.SESSIONS ManifestSamples.df_imaging
              ManifestSamples.tabular_files ManifestSamples.df_group
              ReversalSpec.listed_twice []) as [[e|df] log] eqn:Hbuild;
    [vm_compute in Hbuild; discriminate Hbuild|].
  destruct (Hround df log eq_refl eq_refl) as [_ Htwice].
  split; [vm_compute; reflexivity|].
  destruct (Htwice false None) as [H1 H2].
  split; [exact H1|]. split; [exact H2|].
  subst run_on. rewrite (Hdiffers [] df log eq_refl); [reflexivity|].
  vm_compute in Hbuild. injection Hbuild as <- _. discriminate.
Defined.

(** C4, as it is stated, fails: the comparison is between frames, not
    between bytes.  A file that differs from what would be written only in
    a detail that reading ignores makes [run] return without raising. *)
Lemma same_table_other_bytes_not_raised :
  ~ ManifestSpec.raises_unless_same_bytes ManifestSamples.layout_io Samples.tables
      ManifestSamples.catalog ManifestSamples.SESSIONS ManifestSamples.df_imaging
      ManifestSamples.tabular_files ManifestSamples.df_group
      ReversalSpec.listed_twice.
Proof.
  intros H.
  destruct (generate_manifest.build_manifest Samples.tables ManifestSamples.catalog
              ManifestSamples.SESSIONS ManifestSamples.df_imaging
              ManifestSamples.tabular_files ManifestSamples.df_group
              ReversalSpec.listed_twice []) as [[e|df] log] eqn:Hbuild;
    [vm_compute in Hbuild; discriminate Hbuild|].
  specialize (H df log (true, map snd df) Hbuild).
  unfold generate_manifest.run in H. rewrite Hbuild in H.
  assert (df = generate_manifest.range_index (map snd df)) as Hindex.
  { symmetry. apply range_index_of_frame.
    exact (build_manifest_index _ _ _ _ _ _ _ _ _ _ Hbuild). }
  unfold generate_manifest.save_manifest in H. simpl in H.
  rewrite bool_decide_eq_true_2 in H by exact Hindex.
  assert ((true, map snd df) <> (false, map snd df)) as Hne by discriminate.
  specialize (H Hne). discriminate H.
Qed.

(* ===================================================================== *)
(** * More of the classifier                                              *)
(* ===================================================================== *)

Section ClassifierSteps.

Import filter_image_descriptions ClassifierSpec.

Lemma elem_of_value_counts (l : list string) (d : string) :
  d ∈ value_counts l <-> d ∈ l.
Proof. apply elem_of_drop_duplicates. Qed.

Lemma elem_of_protocol_filter (pin pex : option (list string))
    (df : list ImagingInfo) (r : ImagingInfo) :
  r ∈ protocol_filter pin pex df <-> r ∈ df /\ passes_protocol pin pex r = true.
Proof.
  unfold protocol_filter, passes_protocol.
  destruct pin as [inc|], pex as [exc|]; rewrite ?elem_of_filter_bool, ?andb_true_iff;
    tauto.
Qed.

Lemma elem_of_remove_excluded_iff (ein : option (list string)) (l : list string)
    (d : string) :
  d ∈ remove_excluded ein l <-> d ∈ l /\ listed d ein = false.
Proof.
  unfold remove_excluded, listed. destruct ein as [[|x ex]|].
  - simpl. tauto.
  - rewrite elem_of_filter_bool, negb_true_iff. tauto.
  - tauto.
Qed.

Lemma elem_of_reject_iff (rej exc : option (list string)) (l : list string)
    (d : string) :
  d ∈ reject rej exc l <-> d ∈ l /\ survives rej exc d = true.
Proof.
  unfold reject, survives. destruct rej as [[|w ws]|]; try tauto.
  rewrite elem_of_drop_duplicates, elem_of_app, elem_of_filter_bool, orb_true_iff.
  destruct exc as [e|].
  - rewrite elem_of_filter_bool. tauto.
  - split; [intros [H|H]; [tauto|inversion H]|].
    intros [H1 [H2|H2]]; [tauto|discriminate].
Qed.

Lemma elem_of_within_modality (modality : string) (df : list ImagingInfo)
    (rej exc ein : option (list string)) (d : string) :
  d ∈ within_modality modality df rej exc ein
  <-> (exists r, r ∈ df /\ info_description r = d /\ info_modality r = modality)
      /\ listed d ein = false /\ survives rej exc d = true.
Proof.
  unfold within_modality.
  rewrite elem_of_reject_iff, elem_of_remove_excluded_iff, elem_of_value_counts.
  rewrite list_elem_of_fmap.
  assert ((exists r, d = info_description r
                     /\ r ∈ List.filter (in_modality modality) df)
          <-> exists r, r ∈ df /\ info_description r = d /\ info_modality r = modality)
    as ->; [|tauto].
  split; intros (r & H).
  - destruct H as [-> H]. apply elem_of_filter_bool in H as [H1 H2].
    apply String.eqb_eq in H2. now exists r.
  - destruct H as (H1 & <- & H2). exists r. split; [reflexivity|].
    apply elem_of_filter_bool. split; [exact H1|]. now apply String.eqb_eq.
Qed.

Lemma elem_of_other_modalities (modality : string) (eout : option (list string))
    (df : list ImagingInfo) (r : ImagingInfo) :
  r ∈ other_modalities modality eout df
  <-> r ∈ df /\ info_modality r <> modality /\ listed (info_description r) eout = false.
Proof.
  unfold other_modalities, listed.
  assert (forall r, negb (in_modality modality r) = true <-> info_modality r <> modality)
    as Hm.
  { intros r0. unfold in_modality. now rewrite negb_true_iff, String.eqb_neq. }
  destruct eout as [[|x ex]|]; rewrite ?elem_of_filter_bool, ?Hm, ?negb_true_iff;
    simpl; tauto.
Qed.

Lemma elem_of_descriptions_new (common descriptions : list string)
    (rows : list ImagingInfo) (d : string) :
  d ∈ descriptions_new common descriptions rows
  <-> (exists r, r ∈ rows /\ info_description r = d)
      /\ Str.lower_contains common d = true /\ d ∉ descriptions.
Proof.
  unfold descriptions_new. rewrite elem_of_value_counts, list_elem_of_fmap. split.
  - intros (r & -> & H). apply elem_of_filter_bool in H as [H1 H2].
    apply andb_true_iff in H2 as [H2 H3]. apply negb_true_iff, isin_false in H3.
    split; [now exists r|]. now split.
  - intros ((r & H1 & <-) & H2 & H3). exists r. split; [reflexivity|].
    apply elem_of_filter_bool. split; [exact H1|].
    apply andb_true_iff. split; [exact H2|]. now apply negb_true_iff, isin_false.
Qed.

(** The descriptions a call of [filter_descriptions] returns. *)
Lemma filter_descriptions_spec (T : Tables) (df : list ImagingInfo) (datatype : Key)
    (common : list string) (rej exc ein eout pin pex : option (list string))
    (d : string) :
  d ∈ filter_descriptions T df datatype common rej exc ein eout pin pex
  <-> exists r, r ∈ df /\ info_description r = d /\ passes_protocol pin pex r = true
      /\ ((info_modality r = DATATYPE_MODALITY_MAP T datatype
           /\ listed d ein = false /\ survives rej exc d = true)
          \/ (info_modality r <> DATATYPE_MODALITY_MAP T datatype
              /\ listed d eout = false /\ Str.lower_contains common d = true)).
Proof.
  rewrite elem_of_filter_descriptions, elem_of_descriptions_new.
  set (modality := DATATYPE_MODALITY_MAP T datatype).
  set (within := within_modality modality (protocol_filter pin pex df) rej exc ein).
  split.
  - intros [H|((r & Hr & Hd) & Hc & _)].
    + apply elem_of_within_modality in H as ((r & Hr & Hd & Hm) & Hin & Hs).
      apply elem_of_protocol_filter in Hr as [Hr Hp].
      exists r. split; [exact Hr|]. split; [exact Hd|]. split; [exact Hp|]. now left.
    + apply elem_of_other_modalities in Hr as (Hr & Hm & Hout).
      apply elem_of_protocol_filter in Hr as [Hr Hp]. rewrite Hd in Hout.
      exists r. split; [exact Hr|]. split; [exact Hd|]. split; [exact Hp|]. now right.
  - intros (r & Hr & Hd & Hp & [(Hm & Hin & Hs)|(Hm & Hout & Hc)]).
    + left. apply elem_of_within_modality.
      split; [|now split]. exists r.
      split; [now apply elem_of_protocol_filter|now split].
    + destruct (decide (d ∈ within)) as [Hw|Hw]; [now left|right].
      split; [|now split]. exists r. split; [|exact Hd].
      apply elem_of_other_modalities. rewrite Hd.
      split; [now apply elem_of_protocol_filter|now split].
Qed.

End ClassifierSteps.

Section ClassifierExtras.

Import filter_image_descriptions ClassifierSpec ClassifierFiles.

(** X1.  On text of ASCII and words that a regular expression reads as
    themselves, a description is returned by [filter_descriptions] exactly
    when some row that passes the protocol filters carries it and either the
    row is of the modality of the target, the description is not listed in
    [exclude_in] and it passes the rejection step, or the row is of another
    modality, the description is not listed in [exclude_out] and it matches
    the common substrings. *)
Theorem filter_descriptions_characterised (T : Tables) (df : list ImagingInfo)
    (datatype : Key) (common : list string)
    (rej exc ein eout pin pex : option (list string)) (d : string) :
  modelled df common rej exc pin pex = true ->
  d ∈ filter_descriptions T df datatype common rej exc ein eout pin pex
  <-> exists r, r ∈ df /\ info_description r = d /\ passes_protocol pin pex r = true
      /\ ((info_modality r = DATATYPE_MODALITY_MAP T datatype
           /\ listed d ein = false /\ survives rej exc d = true)
          \/ (info_modality r <> DATATYPE_MODALITY_MAP T datatype
              /\ listed d eout = false /\ Str.lower_contains common d = true)).
Proof. intros _. apply filter_descriptions_spec. Qed.

Lemma filter_descriptions_characterised_witness :
  filter_descriptions Samples.tables ClassifierSamples.df_protocols DATATYPE_DWI
    ["dti"] (Some ["calibration"]) None None None (Some ["2d"]) None
  = ["DTI_gated"; "ep2d_DTI_rest"]
  /\ "ep2d_DTI_rest"
     ∈ filter_descriptions Samples.tables ClassifierSamples.df_protocols DATATYPE_DWI
         ["dti"] (Some ["calibration"]) None None None (Some ["2d"]) None.
Proof.
  split; [vm_compute; reflexivity|].
  apply (filter_descriptions_characterised Samples.tables ClassifierSamples.df_protocols
           DATATYPE_DWI ["dti"] (Some ["calibration"]) None None None (Some ["2d"])
           None "ep2d_DTI_rest"); [vm_compute; reflexivity|].
  exists (ClassifierSamples.scan "ep2d_DTI_rest" "fMRI" "2D").
  split; [apply list_elem_of_further, list_elem_of_further, list_elem_of_here|].
  split; [reflexivity|]. split; [vm_compute; reflexivity|].
  right. split; [vm_compute; discriminate|].
  split; [reflexivity|vm_compute; reflexivity].
Defined.

(** X2.  The rejection step does not reach the descriptions recovered from
    other modalities: on text of ASCII and words that a regular expression
    reads as themselves, a description on a row of another modality that
    matches the common substrings is returned even when it matches a
    rejected substring and no exception. *)
Theorem recovered_despite_rejection (T : Tables) (df : list ImagingInfo)
    (datatype : Key) (common : list string)
    (rej exc ein eout pin pex : option (list string)) (r : ImagingInfo) :
  modelled df common rej exc pin pex = true ->
  r ∈ df -> passes_protocol pin pex r = true ->
  info_modality r <> DATATYPE_MODALITY_MAP T datatype ->
  listed (info_description r) eout = false ->
  Str.lower_contains common (info_description r) = true ->
  survives rej exc (info_description r) = false ->
  info_description r ∈ filter_descriptions T df datatype common rej exc ein eout pin pex.
Proof.
  intros _ Hr Hp Hm Hout Hc _. apply filter_descriptions_spec.
  exists r. split; [exact Hr|]. split; [reflexivity|]. split; [exact Hp|].
  right. now split.
Qed.

Lemma recovered_despite_rejection_witness :
  survives (Some ["t2"; "flair"; "star"]) None "T1_T2_ratio" = false
  /\ "T1_T2_ratio"
     ∈ filter_descriptions Samples.tables Samples.df_two_contrasts SUFFIX_T1 ["t1"]
         (Some ["t2"; "flair"; "star"]) None None None None None.
Proof.
  split; [vm_compute; reflexivity|].
  apply (recovered_despite_rejection Samples.tables Samples.df_two_contrasts SUFFIX_T1
           ["t1"] (Some ["t2"; "flair"; "star"]) None None None None None
           (Samples.info "T1_T2_ratio" "DTI")).
  - vm_compute. reflexivity.
  - apply list_elem_of_here.
  - reflexivity.
  - vm_compute. discriminate.
  - reflexivity.
  - vm_compute. reflexivity.
  - vm_compute. reflexivity.
Defined.

(** X3.  A description listed in [exclude_in] that occurs on rows of the
    modality of the target only is not returned. *)
Theorem excluded_within_modality_not_returned (T : Tables) (df : list ImagingInfo)
    (datatype : Key) (common : list string)
    (rej exc eout pin pex : option (list string)) (excluded : list string)
    (d : string) :
  d ∈ excluded ->
  (forall r, r ∈ df -> info_description r = d ->
             info_modality r = DATATYPE_MODALITY_MAP T datatype) ->
  d ∉ filter_descriptions T df datatype common rej exc (Some excluded) eout pin pex.
Proof.
  intros Hd Hall H. apply filter_descriptions_spec in H
    as (r & Hr & Hdesc & _ & [(_ & Hin & _)|(Hm & _)]).
  - simpl in Hin. apply isin_false in Hin. contradiction.
  - apply Hm. now apply Hall.
Qed.

Lemma excluded_within_modality_not_returned_witness :
  ("T1 MPRAGE"
   ∉ filter_descriptions Samples.tables Samples.df_two_contrasts SUFFIX_T2 ["t2"]
       None None (Some ["T1 MPRAGE"]) None None None)
  /\ ("T1 MPRAGE"
      ∈ filter_descriptions Samples.tables Samples.df_two_contrasts SUFFIX_T2 ["t2"]
          None None None None None None).
Proof.
  split.
  - apply (excluded_within_modality_not_returned Samples.tables
             Samples.df_two_contrasts SUFFIX_T2 ["t2"] None None None None None
             ["T1 MPRAGE"] "T1 MPRAGE").
    + apply list_elem_of_here.
    + intros r Hr Hd.
      repeat (apply elem_of_cons in Hr as [->|Hr]; [try discriminate Hd; reflexivity|]).
      inversion Hr.
  - vm_compute. apply list_elem_of_here.
Defined.

Lemma filter_filter_implied {A : Type} (f g : A -> bool) (l : list A) :
  (forall x, f x = true -> g x = true) ->
  List.filter f (List.filter g l) = List.filter f l.
Proof.
  intros H. induction l as [|x l IH]; [reflexivity|]. simpl.
  destruct (g x) eqn:Hg; simpl.
  - now rewrite IH.
  - destruct (f x) eqn:Hf; [|exact IH]. apply H in Hf. congruence.
Qed.

(** X4.  With [protocol_include] given, on a call that the embedding
    follows (the protocol column holds text in some row, so that the [.str]
    accessor is there), the rows whose protocol cell is empty count for
    nothing: the call returns what it returns on the frame without them. *)
Theorem protocol_include_drops_missing (T : Tables) (df : list ImagingInfo)
    (datatype : Key) (common included : list string)
    (rej exc ein eout pex : option (list string)) :
  modelled df common rej exc (Some included) pex = true ->
  filter_descriptions T df datatype common rej exc ein eout (Some included) pex
  = filter_descriptions T (List.filter has_protocol df) datatype common rej exc ein
      eout (Some included) pex.
Proof.
  intros _. unfold filter_descriptions.
  assert (protocol_filter (Some included) pex (List.filter has_protocol df)
          = protocol_filter (Some included) pex df) as ->; [|reflexivity].
  unfold protocol_filter. rewrite filter_filter_implied; [reflexivity|].
  intros r. unfold protocol_contains, has_protocol. now destruct (info_protocol r).
Qed.

Lemma protocol_include_drops_missing_witness :
  List.filter has_protocol ClassifierSamples.df_protocols
  <> ClassifierSamples.df_protocols
  /\ filter_descriptions Samples.tables ClassifierSamples.df_protocols DATATYPE_DWI
       ["dti"] None None None None (Some [""]) None
     = filter_descriptions Samples.tables
         (List.filter has_protocol ClassifierSamples.df_protocols) DATATYPE_DWI
         ["dti"] None None None None (Some [""]) None
  /\ "DTI_localizer"
     ∉ filter_descriptions Samples.tables ClassifierSamples.df_protocols DATATYPE_DWI
         ["dti"] None None None None (Some [""]) None.
Proof.
  split; [vm_compute; discriminate|].
  split.
  - apply (protocol_include_drops_missing Samples.tables ClassifierSamples.df_protocols
             DATATYPE_DWI ["dti"] [""] None None None None None).
    vm_compute. reflexivity.
  - vm_compute. intros H.
    repeat (apply elem_of_cons in H as [H|H]; [discriminate H|]). inversion H.
Defined.

Lemma lower_ascii_idemp (c : ascii) :
  Str.lower_ascii (Str.lower_ascii c) = Str.lower_ascii c.
Proof. destruct c as [[] [] [] [] [] [] [] []]; reflexivity. Qed.

Lemma lower_idemp (s : string) : Str.lower (Str.lower s) = Str.lower s.
Proof.
  induction s as [|c s IH]; simpl; [reflexivity|]. now rewrite lower_ascii_idemp, IH.
Qed.

Lemma lower_join (words : list string) :
  Str.lower (Str.join "|" words) = Str.join "|" (map Str.lower words).
Proof.
  induction words as [|w [|w' ws] IH]; try reflexivity.
  change (Str.join "|" (w :: w' :: ws))
    with (w ++ "|" ++ Str.join "|" (w' :: ws))%string.
  rewrite lower_app.
  change (Str.lower ("|" ++ Str.join "|" (w' :: ws)))
    with ("|" ++ Str.lower (Str.join "|" (w' :: ws)))%string.
  now rewrite IH.
Qed.

(** X5.  The matching of substrings does not see the case of the letters:
    two lists of words, and two strings, that agree once in lower case are
    matched alike. *)
Theorem matching_ignores_case (words words' : list string) (s s' : string) :
  map Str.lower words = map Str.lower words' ->
  Str.lower s = Str.lower s' ->
  Str.lower_contains words s = Str.lower_contains words' s'.
Proof.
  intros Hw Hs. unfold Str.lower_contains. now rewrite !lower_join, Hw, Hs.
Qed.

Lemma matching_ignores_case_witness :
  Str.lower_contains ["DTI"; "Dw"] "AX_dti_32" = Str.lower_contains ["dti"; "DW"] "ax_DTI_32"
  /\ Str.lower_contains ["DTI"; "Dw"] "AX_dti_32" = true.
Proof.
  split; [|vm_compute; reflexivity].
  apply (matching_ignores_case ["DTI"; "Dw"] ["dti"; "DW"] "AX_dti_32" "ax_DTI_32");
    vm_compute; reflexivity.
Defined.

Lemma Json_nested_ind (P : Json -> Prop) :
  (forall l, P (JList l)) ->
  (forall items, Forall (fun kv : string * Json => P kv.2) items -> P (JDict items)) ->
  forall j, P j.
Proof.
  intros Hl Hd. fix IH 1. intros [l|items]; [apply Hl|]. apply Hd.
  induction items as [|[k v] items IHitems]; constructor; [apply IH|exact IHitems].
Qed.

Lemma _get_all_descriptions_app (j : Json) (acc : list string) :
  _get_all_descriptions j acc = acc ++ _get_all_descriptions j [].
Proof.
  revert acc. induction j as [l|items IH] using Json_nested_ind; intros acc.
  - reflexivity.
  - simpl. revert acc. induction IH as [|[k v] items Hv _ IHitems]; intros acc.
    + now rewrite app_nil_r.
    + simpl in *. rewrite IHitems, (IHitems (_get_all_descriptions v [])), Hv.
      now rewrite app_assoc.
Qed.

Lemma _get_all_descriptions_dict (items : list (string * Json)) (acc : list string) :
  _get_all_descriptions (JDict items) acc
  = acc ++ concat (map (fun kv : string * Json => _get_all_descriptions kv.2 []) items).
Proof.
  revert acc. induction items as [|[k v] items IH]; intros acc.
  - simpl. now rewrite app_nil_r.
  - change (_get_all_descriptions (JDict ((k, v) :: items)) acc)
      with (_get_all_descriptions (JDict items) (_get_all_descriptions v acc)).
    rewrite IH, (_get_all_descriptions_app v acc). simpl. now rewrite app_assoc.
Qed.

(** X6.  [get_all_descriptions] at any depth: the list handed down is only
    extended at its end, a list contributes itself, and a dictionary the
    contributions of its values, one after the other in the order of the
    keys. *)
Theorem get_all_descriptions_flattens :
  (forall j acc, _get_all_descriptions j acc = acc ++ get_all_descriptions j)
  /\ (forall l, get_all_descriptions (JList l) = l)
  /\ (forall items,
        get_all_descriptions (JDict items)
        = concat (map (fun kv : string * Json => get_all_descriptions kv.2) items)).
Proof.
  unfold get_all_descriptions. split; [|split].
  - intros j acc. apply _get_all_descriptions_app.
  - reflexivity.
  - intros items. now rewrite _get_all_descriptions_dict.
Qed.


(** X8.  The classifier is not idempotent: after a run that wrote its
    files, a second run without the overwrite flag raises on the first of
    them and leaves both as the first run wrote them. *)
Theorem classifier_second_run_raises (T : Tables) (df : list ImagingInfo)
    (overwrite : bool) (files : OutputFiles) :
  (run_files T df overwrite files).1 = inr tt ->
  run_files T df false (run_files T df overwrite files).2
  = (inl (File_exists file_descriptions), (run_files T df overwrite files).2).
Proof.
  unfold run_files. destruct (run T df) as [descriptions df_ignored]. unfold save.
  destruct files as [[d|] [i|]], overwrite; simpl; intros H;
    first [discriminate H|reflexivity].
Qed.

Lemma classifier_second_run_raises_witness :
  let empty := {| fpath_out_descriptions := None; fpath_out_ignored := None |} in
  (run_files Samples.tables Samples.df_spec_example false empty).1 = inr tt
  /\ (run_files Samples.tables Samples.df_spec_example false
        (run_files Samples.tables Samples.df_spec_example false empty).2).1
     = inl (File_exists file_descriptions).
Proof.
  intros empty. split; [reflexivity|].
  rewrite (classifier_second_run_raises Samples.tables Samples.df_spec_example false
             empty); reflexivity.
Defined.

End ClassifierExtras.

(* ===================================================================== *)
(** * More of the manifest builder                                        *)
(* ===================================================================== *)

Section BuilderSteps.

Import filter_image_descriptions generate_manifest ReversalSpec ManifestSpec.

Lemma elem_of_values (table : gmap string string) (s : string) :
  s ∈ (list_to_set (map snd (map_to_list table)) : gset string)
  <-> exists k, table !! k = Some s.
Proof.
  rewrite elem_of_list_to_set, list_elem_of_fmap. split.
  - intros ([k v] & -> & H). apply elem_of_map_to_list in H. now exists k.
  - intros (k & H). exists (k, s). split; [reflexivity|].
    now apply elem_of_map_to_list.
Qed.

Lemma validate_visit_session_map_ok (sm : gmap string string) (SESSIONS : list string)
    (log : list Warning) :
  (forall s, s ∈ SESSIONS -> exists visit, sm !! visit = Some s) ->
  validate_visit_session_map sm SESSIONS log = (inr tt, log).
Proof.
  intros H. unfold validate_visit_session_map.
  destruct (decide _) as [_|Hne]; [reflexivity|]. exfalso. apply Hne.
  apply set_eq. intros s. rewrite elem_of_difference, elem_of_list_to_set, elem_of_values.
  split; [|intros Hs; now apply not_elem_of_empty in Hs].
  intros [Hs Hn]. exfalso. apply Hn, H, Hs.
Qed.

Lemma validate_visit_session_map_error (sm : gmap string string)
    (SESSIONS : list string) (log : list Warning) (s : string) :
  s ∈ SESSIONS -> (forall visit, sm !! visit <> Some s) ->
  validate_visit_session_map sm SESSIONS log
  = (inl ValueError_invalid_visit_session_map, log).
Proof.
  intros Hs Hn. unfold validate_visit_session_map.
  destruct (decide _) as [He|_]; [|reflexivity]. exfalso.
  assert (s ∈ (list_to_set SESSIONS ∖ list_to_set (map snd (map_to_list sm))
               : gset string)) as Hin.
  { rewrite elem_of_difference, elem_of_list_to_set, elem_of_values.
    split; [exact Hs|]. intros [k Hk]. now apply (Hn k). }
  rewrite He in Hin. now apply not_elem_of_empty in Hin.
Qed.

(** The lookup holds only what the reversal assigned. *)
Lemma last_write_Some (d k : string) (ws : list (string * string)) :
  last_write d ws None = Some k -> (d, k) ∈ ws.
Proof.
  assert (forall current, last_write d ws current = Some k ->
            (d, k) ∈ ws \/ current = Some k) as H.
  { induction ws as [|[d' k'] ws IH]; intros current; simpl; [now right|].
    intros Hl. apply IH in Hl as [Hl|Hl]; [left; now apply list_elem_of_further|].
    destruct (decide (d' = d)) as [->|Hne]; [|now right].
    injection Hl as ->. left. apply list_elem_of_here. }
  intros Hl. apply H in Hl as [Hl|Hl]; [exact Hl|discriminate].
Qed.

Lemma last_write_is_Some (d k : string) (ws : list (string * string))
    (current : option string) :
  (d, k) ∈ ws -> is_Some (last_write d ws current).
Proof.
  intros Hin. apply list_elem_of_split in Hin as (a & b & ->).
  rewrite last_write_app. simpl. rewrite decide_True by reflexivity.
  assert (forall c, is_Some c -> is_Some (last_write d b c)) as H.
  { induction b as [|[d' k'] b IH]; intros c Hc; simpl; [exact Hc|].
    apply IH. destruct (decide (d' = d)); [eauto|exact Hc]. }
  apply H. eauto.
Qed.

Lemma reverse_mapping_lookup (datatypes : list string) (m : list (string * Json))
    (d : string) :
  (reverse_mapping datatypes m).1 !! d = last_write d (writes datatypes m) None.
Proof. now rewrite reverse_mapping_writes, lookup_foldl_assign. Qed.

(** What the lookup holds is a recognised datatype. *)
Lemma reverse_mapping_range (datatypes : list string) (m : list (string * Json))
    (d k : string) :
  (reverse_mapping datatypes m).1 !! d = Some k -> k ∈ datatypes.
Proof.
  rewrite reverse_mapping_lookup. intros H. apply last_write_Some in H.
  apply elem_of_writes in H as (v & _ & Hk & _). now apply isin_true.
Qed.

(** The warnings of a run of assignments that starts with an empty log. *)
Lemma foldl_assign_no_warning (ws : list (string * string)) (m : gmap string string) :
  (foldl assign (m, []) ws).2 = []
  <-> NoDup (map fst ws) /\ forall d, d ∈ map fst ws -> m !! d = None.
Proof.
  revert m. induction ws as [|[d k] ws IH]; intros m.
  - simpl. split; [intros _; split; [constructor|]|reflexivity].
    intros d Hd. inversion Hd.
  - cbn [foldl map fst]. unfold assign at 2. unfold reverse_step. cbn [fst snd].
    destruct (decide (is_Some (m !! d))) as [Hs|Hn].
    + split.
      * intros H. exfalso.
        assert (duplicate_description d
                ∈ (foldl assign (<[d:=k]> m, [] ++ [duplicate_description d]) ws).2)
          as Hin by (apply foldl_assign_log; simpl; apply list_elem_of_here).
        rewrite H in Hin. inversion Hin.
      * intros [_ H]. exfalso. destruct Hs as [x Hx].
        rewrite (H d) in Hx by apply list_elem_of_here. discriminate.
    + rewrite IH, NoDup_cons. apply eq_None_not_Some in Hn. split.
      * intros [Hnd H]. split.
        -- split; [|exact Hnd]. intros Hin. specialize (H d Hin).
           rewrite lookup_insert_eq in H. discriminate.
        -- intros d' Hd'. apply elem_of_cons in Hd' as [->|Hd']; [exact Hn|].
           specialize (H d' Hd').
           destruct (decide (d = d')) as [->|Hne]; [exact Hn|].
           now rewrite lookup_insert_ne in H.
      * intros [[Hd Hnd] H]. split; [exact Hnd|]. intros d' Hd'.
        destruct (decide (d = d')) as [->|Hne]; [contradiction|].
        rewrite lookup_insert_ne by exact Hne. apply H. now apply list_elem_of_further.
Qed.

Lemma elem_of_get_datatype_list (descriptions : list string)
    (ddm : gmap string string) (d : string) :
  d ∈ get_datatype_list descriptions ddm
  <-> exists description, description ∈ descriptions /\ ddm !! description = Some d.
Proof.
  unfold get_datatype_list.
  now rewrite elem_of_sorted, elem_of_drop_duplicates, list_elem_of_omap.
Qed.

End BuilderSteps.

Section BuilderExtras.

Import filter_image_descriptions generate_manifest ReversalSpec ManifestSpec.

(** X9.  [validate_visit_session_map] accepts the configured sessions
    exactly when each of them is the session of some visit code of the
    table; it raises [ValueError] otherwise, and logs nothing either way. *)
Theorem validate_visit_session_map_spec (visit_session_map : gmap string string)
    (SESSIONS : list string) (log : list Warning) :
  (validate_visit_session_map visit_session_map SESSIONS log = (inr tt, log)
   <-> forall s, s ∈ SESSIONS -> exists visit, visit_session_map !! visit = Some s)
  /\ (validate_visit_session_map visit_session_map SESSIONS log = (inr tt, log)
      \/ validate_visit_session_map visit_session_map SESSIONS log
         = (inl ValueError_invalid_visit_session_map, log)).
Proof.
  split.
  - split; [|apply validate_visit_session_map_ok].
    intros Hok s Hs.
    destruct (decide (s ∈ (list_to_set (map snd (map_to_list visit_session_map))
                           : gset string))) as [Hin|Hout].
    + now apply elem_of_values.
    + rewrite (validate_visit_session_map_error visit_session_map SESSIONS log s Hs)
        in Hok; [discriminate|].
      intros visit Hv. apply Hout, elem_of_values. now exists visit.
  - unfold validate_visit_session_map. destruct (decide _); [now left|now right].
Qed.

(** X10.  A configured session that the session table does not give to any
    visit stops [run] at once: [ValueError], nothing logged, the manifest
    file as it was, whatever the other inputs. *)
Theorem invalid_session_stops_run {File : Type} (io : CsvIO File) (T : Tables)
    (read_manifest : Catalog) (SESSIONS : list string) (df_imaging : list ImagingRow)
    (tabular_files : list (list Tabular)) (df_group : list Status)
    (js : list (string * Json)) (overwrite : bool) (fpath_manifest : option File)
    (s : string) :
  s ∈ SESSIONS -> (forall visit, VISIT_SESSION_MAP !! visit <> Some s) ->
  run io T read_manifest SESSIONS df_imaging tabular_files df_group js overwrite
    fpath_manifest
  = (inl ValueError_invalid_visit_session_map, fpath_manifest, []).
Proof.
  intros Hs Hn. unfold run, build_manifest, mbind, M_bind, bind.
  now rewrite (validate_visit_session_map_error VISIT_SESSION_MAP SESSIONS [] s Hs Hn).
Qed.

Lemma invalid_session_stops_run_witness :
  run ManifestSamples.rows_io Samples.tables ManifestSamples.catalog ["1"; "2"]
    ManifestSamples.df_imaging ManifestSamples.tabular_files ManifestSamples.df_group
    listed_twice true None
  = (inl ValueError_invalid_visit_session_map, None, []).
Proof.
  apply (invalid_session_stops_run ManifestSamples.rows_io Samples.tables
           ManifestSamples.catalog ["1"; "2"] ManifestSamples.df_imaging
           ManifestSamples.tabular_files ManifestSamples.df_group listed_twice true
           None "2").
  - apply list_elem_of_further, list_elem_of_here.
  - intros visit Hv. unfold VISIT_SESSION_MAP in Hv.
    apply elem_of_list_to_map_2 in Hv.
    repeat (apply elem_of_cons in Hv as [Hv|Hv]; [discriminate Hv|]).
    inversion Hv.
Defined.

(** X11.  [get_datatype_list] returns, in ascending order and each once,
    the datatypes of the descriptions that the lookup knows; a description
    it does not know adds nothing. *)
Theorem get_datatype_list_spec (descriptions : list string)
    (description_datatype_map : gmap string string) :
  (forall datatype,
     datatype ∈ get_datatype_list descriptions description_datatype_map
     <-> exists description,
           description ∈ descriptions
           /\ description_datatype_map !! description = Some datatype)
  /\ ascending (get_datatype_list descriptions description_datatype_map)
  /\ NoDup (get_datatype_list descriptions description_datatype_map).
Proof.
  split; [intros d; apply elem_of_get_datatype_list|]. unfold get_datatype_list.
  split; [apply ascending_sorted|apply NoDup_sorted, NoDup_drop_duplicates].
Qed.

(** X12.  The lookup holds a description exactly when a recognised key of
    the mapping runs over it, and what it holds for it is a recognised key
    that runs over it: a key outside [DATATYPES] adds nothing. *)
Theorem reversal_holds_only_recognised (datatypes : list string)
    (m : list (string * Json)) (d : string) :
  (is_Some ((reverse_mapping datatypes m).1 !! d)
   <-> exists datatype descriptions,
         (datatype, descriptions) ∈ m /\ datatype ∈ datatypes
         /\ d ∈ iterate descriptions)
  /\ (forall datatype,
        (reverse_mapping datatypes m).1 !! d = Some datatype ->
        datatype ∈ datatypes
        /\ exists descriptions, (datatype, descriptions) ∈ m /\ d ∈ iterate descriptions).
Proof.
  rewrite reverse_mapping_lookup. split; [split|].
  - intros [k Hk]. apply last_write_Some, elem_of_writes in Hk as (v & Hin & Hrec & Hd).
    exists k, v. split; [exact Hin|]. split; [now apply isin_true|exact Hd].
  - intros (k & v & Hin & Hrec & Hd). apply (last_write_is_Some d k).
    apply elem_of_writes. exists v. split; [exact Hin|].
    split; [now apply isin_true|exact Hd].
  - intros k Hk. apply last_write_Some, elem_of_writes in Hk as (v & Hin & Hrec & Hd).
    split; [now apply isin_true|]. now exists v.
Qed.

(** X13.  The reversal logs no warning exactly when no description is
    assigned twice. *)
Theorem reversal_warns_only_on_repeats (datatypes : list string)
    (m : list (string * Json)) :
  (reverse_mapping datatypes m).2 = [] <-> NoDup (map fst (writes datatypes m)).
Proof.
  rewrite reverse_mapping_writes, foldl_assign_no_warning. split; [tauto|].
  intros H. split; [exact H|]. intros d _. apply lookup_empty.
Qed.

End BuilderExtras.

Section GroupFill.

Import generate_manifest ManifestSpec.

Lemma drop_duplicates_singleton (l : list string) (g : string) :
  Str.drop_duplicates l = [g] <-> l <> [] /\ forall x, x ∈ l -> x = g.
Proof.
  split.
  - intros H. split.
    + intros ->. discriminate H.
    + intros x Hx. apply elem_of_drop_duplicates in Hx. rewrite H in Hx.
      now apply list_elem_of_singleton in Hx.
  - intros [Hne Hall].
    pose proof (NoDup_drop_duplicates l) as Hnd.
    assert (forall x, x ∈ Str.drop_duplicates l -> x = g) as Hall'
      by (intros x Hx; apply Hall; now apply elem_of_drop_duplicates).
    destruct (Str.drop_duplicates l) as [|a [|b rest]] eqn:Hd.
    + exfalso. destruct l as [|x l]; [congruence|].
      assert (x ∈ Str.drop_duplicates (x :: l)) as Hx
        by (apply elem_of_drop_duplicates, list_elem_of_here).
      rewrite Hd in Hx. inversion Hx.
    + f_equal. apply Hall', list_elem_of_here.
    + exfalso. apply NoDup_cons in Hnd as [Hnotin _]. apply Hnotin.
      rewrite (Hall' a) by apply list_elem_of_here.
      rewrite <- (Hall' b) by apply list_elem_of_further, list_elem_of_here.
      apply list_elem_of_here.
Qed.

(** X14.  The lookup of a missing group in the imaging frame keeps the
    subject and the visit of the row, leaves a group that is there alone,
    and fills a missing one in exactly when the imaging rows of the subject
    exist and all carry the same group. *)
Theorem fill_group_spec (df_imaging : list Imaging) (row : TabularGroup) :
  tab_key (fill_group df_imaging row) = tab_key row
  /\ (forall group, tab_group row = Some group -> fill_group df_imaging row = row)
  /\ (tab_group row = None ->
      forall group,
        tab_group (fill_group df_imaging row) = Some group
        <-> (exists r, r ∈ df_imaging
                       /\ img_participant_id r = tab_participant_id row)
            /\ (forall r, r ∈ df_imaging ->
                  img_participant_id r = tab_participant_id row ->
                  img_group r = group)).
Proof.
  split; [apply fill_group_key|]. split.
  - intros group H. apply fill_group_present. now rewrite H.
  - intros Hnone group. unfold fill_group. rewrite Hnone.
    set (groups := map img_group
                     (List.filter
                        (fun r => String.eqb (img_participant_id r)
                                    (tab_participant_id row)) df_imaging)).
    assert ((groups <> [] /\ forall x, x ∈ groups -> x = group)
            <-> (exists r, r ∈ df_imaging
                           /\ img_participant_id r = tab_participant_id row)
                /\ (forall r, r ∈ df_imaging ->
                      img_participant_id r = tab_participant_id row ->
                      img_group r = group)) as Hgroups.
    { subst groups. split.
      - intros [Hne Hall]. split.
        + destruct (List.filter _ df_imaging) as [|r l] eqn:Hf; [now simpl in Hne|].
          assert (r ∈ List.filter
                        (fun r => String.eqb (img_participant_id r)
                                    (tab_participant_id row)) df_imaging) as Hr
            by (rewrite Hf; apply list_elem_of_here).
          apply elem_of_filter_bool in Hr as [Hr Hs]. apply String.eqb_eq in Hs.
          now exists r.
        + intros r Hr Hs. apply Hall, list_elem_of_fmap. exists r.
          split; [reflexivity|]. apply elem_of_filter_bool.
          split; [exact Hr|now apply String.eqb_eq].
      - intros [(r & Hr & Hs) Hall]. split.
        + intros Hnil.
          assert (img_group r ∈ map img_group
                    (List.filter
                       (fun r => String.eqb (img_participant_id r)
                                   (tab_participant_id row)) df_imaging)) as Hin.
          { apply list_elem_of_fmap. exists r. split; [reflexivity|].
            apply elem_of_filter_bool. split; [exact Hr|now apply String.eqb_eq]. }
          rewrite Hnil in Hin. inversion Hin.
        + intros x Hx. apply list_elem_of_fmap in Hx as (r' & -> & Hr').
          apply elem_of_filter_bool in Hr' as [Hr' Hs']. apply String.eqb_eq in Hs'.
          now apply Hall. }
    rewrite <- Hgroups, <- drop_duplicates_singleton.
    destruct (Str.drop_duplicates groups) as [|g [|g' rest]]; simpl.
    + rewrite Hnone. split; discriminate.
    + split; [intros [= ->]; reflexivity|intros [= ->]; reflexivity].
    + rewrite Hnone. split; discriminate.
Qed.

End GroupFill.

Section ManifestRows.

Import filter_image_descriptions generate_manifest ManifestSpec.

(** A merged row either has no imaging side or takes its session and its
    datatypes from a row of the imaging frame with the same pair. *)
Lemma merge_outer_rows (df_tabular : list TabularGroup)
    (df_imaging : list ImagingAvailability) (x : Merged) :
  x ∈ merge_outer df_tabular df_imaging ->
  (mg_session x = None /\ mg_datatype x = None
   /\ mg_key x ∉ map av_key df_imaging)
  \/ exists i, i ∈ df_imaging /\ mg_key x = av_key i
               /\ mg_session x = Some (av_session i)
               /\ mg_datatype x = Some (av_datatype i).
Proof.
  unfold merge_outer. rewrite elem_of_app. intros [H|H].
  - apply list_elem_of_In, in_flat_map in H as (t & _ & H).
    destruct (List.filter (same_key t) df_imaging) as [|i0 l] eqn:Hf.
    + apply list_elem_of_In, list_elem_of_singleton in H. subst x. left.
      split; [reflexivity|]. split; [reflexivity|].
      intros Hin. apply list_elem_of_fmap in Hin as (i & Hk & Hi).
      assert (i ∈ List.filter (same_key t) df_imaging) as Hi'.
      { apply elem_of_filter_bool. split; [exact Hi|]. apply same_key_true.
        now rewrite <- Hk. }
      rewrite Hf in Hi'. inversion Hi'.
    + apply list_elem_of_In, list_elem_of_fmap in H as (i & -> & Hi). right.
      rewrite <- Hf in Hi. apply elem_of_filter_bool in Hi as [Hi Hk].
      apply same_key_true in Hk. exists i. split; [exact Hi|].
      split; [symmetry; exact Hk|]. now split.
  - apply list_elem_of_fmap in H as (i & -> & Hi). right.
    apply elem_of_filter_bool in Hi as [Hi _]. exists i. now repeat split.
Qed.

(** A row of the aggregated frame stands for rows of the frame it
    aggregates. *)
Lemma aggregate_rows (ddm : gmap string string) (rows : list Imaging)
    (i : ImagingAvailability) :
  i ∈ aggregate ddm rows ->
  (exists r, r ∈ rows /\ img_session r = Some (av_session i) /\ img_key r = av_key i)
  /\ av_datatype i
     = get_datatype_list
         (map img_description
            (List.filter
               (fun r => bool_decide
                           (group_key r
                            = Some (av_participant_id i, (av_visit i, av_session i))))
               rows))
         ddm.
Proof.
  unfold aggregate. intros H. apply list_elem_of_fmap in H as ([s [v e]] & -> & Hk).
  apply elem_of_aggregate_keys in Hk as (r & Hr & Hkey). split; [|reflexivity].
  exists r. split; [exact Hr|]. unfold group_key in Hkey.
  destruct (img_session r) as [e'|]; [|discriminate]. injection Hkey as <- <- <-.
  now split.
Qed.

(** Each row of the manifest comes from a row of the outer merge. *)
Lemma manifest_row_origin (df_tabular : list TabularGroup)
    (df_imaging : list ImagingAvailability) (df_manifest : Frame ManifestRow)
    (i : nat) (r : ManifestRow) :
  map without_bids_id df_manifest
  = map without_bids_id (sorted_manifest df_tabular df_imaging) ->
  (i, r) ∈ df_manifest ->
  exists x, x ∈ merge_outer df_tabular df_imaging
            /\ participant_id r = mg_participant_id x
            /\ visit r = mg_visit x
            /\ session r = option_map PATTERN_BIDS_SESSION (mg_session x)
            /\ datatype r = default [] (mg_datatype x)
            /\ participant_dicom_dir r = None.
Proof.
  intros H Hin.
  assert (without_bids_id (i, r) ∈ map without_bids_id df_manifest) as Hw
    by (apply list_elem_of_fmap; now exists (i, r)).
  rewrite H in Hw. apply list_elem_of_fmap in Hw as ([j r'] & Heq & Hr').
  assert (r' ∈ map snd (sorted_manifest df_tabular df_imaging)) as Hsnd
    by (apply list_elem_of_fmap; now exists (j, r')).
  unfold sorted_manifest in Hsnd. rewrite sort_manifest_Permutation in Hsnd.
  apply list_elem_of_fmap in Hsnd as (x & -> & Hx).
  exists x. split; [exact Hx|]. unfold without_bids_id in Heq. simpl in Heq.
  injection Heq as _ H1 H2 H3 H4 H5. rewrite H1, H2, H3, H4, H5.
  repeat split; now destruct (mg_datatype x).
Qed.

End ManifestRows.

Section ManifestExtras.

Import filter_image_descriptions generate_manifest ManifestSpec.

Lemma filtered_imaging_kept (SESSIONS : list string) (rows : list Imaging) (r : Imaging) :
  r ∈ filtered_imaging SESSIONS rows
  <-> r ∈ rows
      /\ (exists s, img_session r = Some s /\ s ∈ SESSIONS)
      /\ img_group r ∈ GROUPS_KEEP.
Proof.
  unfold filtered_imaging. rewrite !elem_of_filter_bool, isin_true.
  unfold isin_option. destruct (img_session r) as [s|].
  - rewrite isin_true. split.
    + intros [[H1 H2] H3]. split; [exact H1|]. split; [now exists s|exact H3].
    + intros (H1 & (s' & [= <-] & H2) & H3). tauto.
  - split; [intros [[_ H] _]; discriminate|].
    intros (_ & (s & H & _) & _). discriminate.
Qed.

(** X15.  In a manifest that is built, every row has an empty DICOM
    directory; it has either no session and no datatype, or the session
    ["ses-" ++ s] of a configured session [s]; and its list of datatypes
    holds recognised datatypes only, in ascending order, each once. *)
Theorem manifest_rows_wellformed (T : Tables) (read_manifest : Catalog)
    (SESSIONS : list string) (df_imaging : list ImagingRow)
    (tabular_files : list (list Tabular)) (df_group : list Status)
    (js : list (string * Json)) (log log' : list Warning)
    (df_manifest : Frame ManifestRow) :
  build_manifest T read_manifest SESSIONS df_imaging tabular_files df_group js log
  = (inr df_manifest, log') ->
  forall i r, (i, r) ∈ df_manifest ->
    participant_dicom_dir r = None
    /\ ((session r = None /\ datatype r = [])
        \/ exists s, s ∈ SESSIONS /\ session r = Some (PATTERN_BIDS_SESSION s))
    /\ (forall d, d ∈ datatype r -> d ∈ DATATYPES T)
    /\ ascending (datatype r) /\ NoDup (datatype r).
Proof.
  intros H i r Hin. apply build_manifest_inr in H as (rows & _ & _ & H).
  destruct (manifest_row_origin _ _ _ i r H Hin)
    as (x & Hx & _ & _ & Hs & Hd & Hdir).
  split; [exact Hdir|].
  destruct (merge_outer_rows _ _ x Hx) as [(Hxs & Hxd & _)|(a & Ha & _ & Hxs & Hxd)].
  - rewrite Hxs in Hs. rewrite Hxd in Hd. simpl in Hs, Hd. rewrite Hd.
    split; [now left|]. split; [intros d Hd'; inversion Hd'|].
    split; constructor.
  - rewrite Hxs in Hs. rewrite Hxd in Hd. simpl in Hs, Hd.
    unfold aggregated_imaging in Ha.
    destruct (aggregate_rows _ _ a Ha) as [(r0 & Hr0 & Hsess & _) Hdt].
    apply filtered_imaging_kept in Hr0 as (_ & (s & Hs0 & HsS) & _).
    split.
    + right. exists s. split; [exact HsS|]. rewrite Hs. do 2 f_equal. congruence.
    + rewrite Hd, Hdt. split.
      * intros d Hd'. apply elem_of_get_datatype_list in Hd' as (desc & _ & Hl).
        now apply reverse_mapping_range in Hl.
      * unfold get_datatype_list.
        split; [apply ascending_sorted|apply NoDup_sorted, NoDup_drop_duplicates].
Qed.

Lemma manifest_rows_wellformed_witness :
  exists df_manifest r,
    (build_manifest Samples.tables ManifestSamples.catalog ManifestSamples.SESSIONS
       ManifestSamples.df_imaging ManifestSamples.tabular_files
       ManifestSamples.df_group ReversalSpec.listed_twice []).1 = inr df_manifest
    /\ (1, r) ∈ df_manifest
    /\ session r = Some "ses-5"
    /\ participant_dicom_dir r = None
    /\ (forall d, d ∈ datatype r -> d ∈ DATATYPES Samples.tables).
Proof.
  destruct (build_manifest Samples.tables ManifestSamples.catalog
              ManifestSamples.SESSIONS ManifestSamples.df_imaging
              ManifestSamples.tabular_files ManifestSamples.df_group
              ReversalSpec.listed_twice []) as [[e|df_manifest] log] eqn:Hbuild;
    [vm_compute in Hbuild; discriminate Hbuild|].
  pose proof (manifest_rows_wellformed _ _ _ _ _ _ _ _ _ _ Hbuild) as Hall.
  vm_compute in Hbuild. injection Hbuild as <- _.
  eexists _, _. split; [reflexivity|].
  split; [apply list_elem_of_further, list_elem_of_here|].
  split; [reflexivity|].
  match goal with
  | |- participant_dicom_dir ?r = None /\ _ =>
      destruct (Hall 1 r) as (Hdir & _ & Hdt & _);
        [apply list_elem_of_further, list_elem_of_here|]
  end.
  split; [exact Hdir|exact Hdt].
Defined.

(** X16.  The manifest holds no row of its own making: the (subject,
    visit) pair of each row is a pair of the filtered tabular frame or of
    the filtered imaging frame. *)
Theorem manifest_rows_come_from_frames (T : Tables) (read_manifest : Catalog)
    (SESSIONS : list string) (df_imaging : list ImagingRow)
    (tabular_files : list (list Tabular)) (df_group : list Status)
    (js : list (string * Json)) (log log' : list Warning)
    (df_manifest : Frame ManifestRow) :
  build_manifest T read_manifest SESSIONS df_imaging tabular_files df_group js log
  = (inr df_manifest, log') ->
  exists rows,
    (normalize_imaging VISIT_IMAGING_MAP VISIT_SESSION_MAP GROUP_IMAGING_MAP
       df_imaging []).1 = inr rows
    /\ forall i r, (i, r) ∈ df_manifest ->
         row_key r ∈ map tab_key (filtered_tabular tabular_files df_group rows)
         \/ row_key r ∈ map img_key (filtered_imaging SESSIONS rows).
Proof.
  intros H. apply build_manifest_inr in H as (rows & Hnorm & Hrows & H).
  exists rows. split; [apply Hnorm|]. intros i r Hin.
  destruct (manifest_row_origin _ _ _ i r H Hin) as (x & Hx & Hp & Hv & _).
  assert (NoDup (map av_key (aggregated_imaging T SESSIONS js rows))) as Hnd.
  { apply (NoDup_aggregated_imaging T SESSIONS js VISIT_SESSION_MAP).
    intros r0 Hr0. apply list_elem_of_lookup in Hr0 as [j Hj].
    destruct (Forall2_lookup_r _ _ _ _ _ Hrows Hj) as (r1 & _ & Hn). apply Hn. }
  assert (row_key r ∈ map mg_key
            (merge_outer (filtered_tabular tabular_files df_group rows)
               (aggregated_imaging T SESSIONS js rows))) as Hkey.
  { apply list_elem_of_fmap. exists x. split; [|exact Hx].
    unfold row_key, mg_key. now rewrite Hp, Hv. }
  apply elem_of_merge_outer in Hkey as [Hkey|Hkey]; [now left|right|exact Hnd].
  now apply elem_of_aggregated_imaging in Hkey.
Qed.

Lemma manifest_rows_come_from_frames_witness :
  exists df_manifest rows,
    (build_manifest Samples.tables ManifestSamples.catalog ManifestSamples.SESSIONS
       ManifestSamples.df_imaging ManifestSamples.tabular_files
       ManifestSamples.df_group ReversalSpec.listed_twice []).1 = inr df_manifest
    /\ (normalize_imaging VISIT_IMAGING_MAP VISIT_SESSION_MAP GROUP_IMAGING_MAP
          ManifestSamples.df_imaging []).1 = inr rows
    /\ length df_manifest = 4
    /\ forall i r, (i, r) ∈ df_manifest ->
         row_key r ∈ map tab_key
                       (filtered_tabular ManifestSamples.tabular_files
                          ManifestSamples.df_group rows)
         \/ row_key r ∈ map img_key (filtered_imaging ManifestSamples.SESSIONS rows).
Proof.
  destruct (build_manifest Samples.tables ManifestSamples.catalog
              ManifestSamples.SESSIONS ManifestSamples.df_imaging
              ManifestSamples.tabular_files ManifestSamples.df_group
              ReversalSpec.listed_twice []) as [[e|df_manifest] log] eqn:Hbuild;
    [vm_compute in Hbuild; discriminate Hbuild|].
  destruct (manifest_rows_come_from_frames _ _ _ _ _ _ _ _ _ _ Hbuild)
    as (rows & Hnorm & Hall).
  exists df_manifest, rows. split; [reflexivity|]. split; [exact Hnorm|].
  split; [|exact Hall].
  vm_compute in Hbuild. injection Hbuild as <- _. reflexivity.
Defined.

(** X17.  The catalog decides the identifiers and nothing else: two
    catalogs under which the manifest is built give the same rows, in the
    same order and with the same index, up to the identifier column. *)
Theorem catalog_decides_bids_id_only (T : Tables) (read_manifest read_manifest' : Catalog)
    (SESSIONS : list string) (df_imaging : list ImagingRow)
    (tabular_files : list (list Tabular)) (df_group : list Status)
    (js : list (string * Json)) (log1 log2 log1' log2' : list Warning)
    (df_manifest df_manifest' : Frame ManifestRow) :
  build_manifest T read_manifest SESSIONS df_imaging tabular_files df_group js log1
  = (inr df_manifest, log1') ->
  build_manifest T read_manifest' SESSIONS df_imaging tabular_files df_group js log2
  = (inr df_manifest', log2') ->
  map without_bids_id df_manifest = map without_bids_id df_manifest'.
Proof.
  intros H1 H2.
  apply build_manifest_inr in H1 as (rows1 & Hn1 & _ & H1).
  apply build_manifest_inr in H2 as (rows2 & Hn2 & _ & H2).
  assert (rows1 = rows2) as ->.
  { specialize (Hn1 []). specialize (Hn2 []). congruence. }
  congruence.
Qed.

End ManifestExtras.

Section RunExtras.

Import filter_image_descriptions generate_manifest ManifestSpec.

Lemma catalog_decides_bids_id_only_witness :
  exists df_manifest df_manifest',
    (build_manifest Samples.tables ManifestSamples.catalog ManifestSamples.SESSIONS
       ManifestSamples.df_imaging ManifestSamples.tabular_files
       ManifestSamples.df_group ReversalSpec.listed_twice []).1 = inr df_manifest
    /\ (build_manifest Samples.tables BuilderSamples.other_catalog
          ManifestSamples.SESSIONS ManifestSamples.df_imaging
          ManifestSamples.tabular_files ManifestSamples.df_group
          ReversalSpec.listed_twice []).1 = inr df_manifest'
    /\ df_manifest <> df_manifest'
    /\ map without_bids_id df_manifest = map without_bids_id df_manifest'.
Proof.
  destruct (build_manifest Samples.tables ManifestSamples.catalog
              ManifestSamples.SESSIONS ManifestSamples.df_imaging
              ManifestSamples.tabular_files ManifestSamples.df_group
              ReversalSpec.listed_twice []) as [[e|df1] log1] eqn:H1;
    [vm_compute in H1; discriminate H1|].
  destruct (build_manifest Samples.tables BuilderSamples.other_catalog
              ManifestSamples.SESSIONS ManifestSamples.df_imaging
              ManifestSamples.tabular_files ManifestSamples.df_group
              ReversalSpec.listed_twice []) as [[e|df2] log2] eqn:H2;
    [vm_compute in H2; discriminate H2|].
  exists df1, df2. split; [reflexivity|]. split; [reflexivity|].
  split; [|exact (catalog_decides_bids_id_only _ _ _ _ _ _ _ _ _ _ _ _ _ _ H1 H2)].
  vm_compute in H1, H2. injection H1 as <- _. injection H2 as <- _. discriminate.
Defined.

(** X18.  [run] changes the manifest file only when it reports that it
    wrote it, which it does only when there was no file or the overwrite
    flag is set; the file then holds the manifest that was built. *)
Theorem manifest_file_changes_only_when_written {File : Type} (io : CsvIO File)
    (T : Tables) (read_manifest : Catalog) (SESSIONS : list string)
    (df_imaging : list ImagingRow) (tabular_files : list (list Tabular))
    (df_group : list Status) (js : list (string * Json)) (overwrite : bool)
    (fpath_manifest : option File) :
  let result :=
    run io T read_manifest SESSIONS df_imaging tabular_files df_group js overwrite
      fpath_manifest in
  result.1.2 = fpath_manifest
  \/ (result.1.1 = inr file_written
      /\ (fpath_manifest = None \/ overwrite = true)
      /\ exists df_manifest,
           (build_manifest T read_manifest SESSIONS df_imaging tabular_files df_group
              js []).1 = inr df_manifest
           /\ result.1.2 = Some (to_csv io (map snd df_manifest))).
Proof.
  unfold run.
  destruct (build_manifest T read_manifest SESSIONS df_imaging tabular_files df_group
              js []) as [[e|df] log]; [now left|].
  unfold save_manifest. destruct fpath_manifest as [file|]; simpl.
  - destruct (bool_decide _); [now left|].
    destruct overwrite; simpl; [|now left].
    right. split; [reflexivity|]. split; [now right|]. now exists df.
  - right. split; [reflexivity|]. split; [now left|]. now exists df.
Qed.

End RunExtras.

Section CatalogExtras.

Import filter_image_descriptions generate_manifest ManifestSpec.

Lemma normalize_imaging_log_indep (vm sm gm : gmap string string)
    (df : list ImagingRow) (log1 log2 : list Warning) :
  (normalize_imaging vm sm gm df log1).1 = (normalize_imaging vm sm gm df log2).1.
Proof.
  unfold normalize_imaging.
  destruct (lookup_all vm (map Visit df)) as [v|visits]; [reflexivity|].
  unfold mbind, M_bind, bind.
  match goal with
  | |- context [warn_if ?b ?w log1] =>
      destruct (warn_if_inr b w log1) as [l1 ->];
      destruct (warn_if_inr b w log2) as [l2 ->]
  end.
  now destruct (lookup_all gm (map Research_Group df)).
Qed.

(** X20.  With the visit and session tables of the module, a
    normalisation that goes through logs nothing and gives every row a
    session: each visit code of the visit table has its session. *)
Theorem module_tables_leave_no_session_missing (group_imaging_map : gmap string string)
    (df : list ImagingRow) (log log' : list Warning) (rows : list Imaging) :
  normalize_imaging VISIT_IMAGING_MAP VISIT_SESSION_MAP group_imaging_map df log
  = (inr rows, log') ->
  log' = log /\ forall row, row ∈ rows -> is_Some (img_session row).
Proof.
  intros H. pose proof (normalize_imaging_inr _ _ _ _ _ _ _ H) as [Hrows _].
  split.
  - unfold normalize_imaging in H.
    destruct (lookup_all VISIT_IMAGING_MAP (map Visit df)) as [v|visits] eqn:Hv;
      [discriminate|].
    apply bind_inr in H as ([] & log1 & Hw & H).
    destruct (lookup_all group_imaging_map (map Research_Group df));
      [discriminate|].
    unfold ret in H. injection H as _ <-.
    assert (list_to_set visits ∖ dom VISIT_SESSION_MAP = (∅ : gset string)) as He.
    { apply set_eq. intros v. rewrite elem_of_difference, elem_of_list_to_set.
      split; [|intros Hin; now apply not_elem_of_empty in Hin].
      intros [Hin Hn]. exfalso. apply Hn, elem_of_dom.
      apply lookup_all_inr in Hv. apply list_elem_of_lookup in Hin as [i Hi].
      destruct (Forall2_lookup_r _ _ _ _ _ Hv Hi) as (label & _ & Hl).
      exact (visit_codes_have_sessions label v Hl). }
    rewrite He in Hw. rewrite bool_decide_eq_false_2 in Hw by (intros Hne; now apply Hne).
    simpl in Hw. unfold ret in Hw. now injection Hw as <-.
  - intros row Hrow. apply list_elem_of_lookup in Hrow as [i Hi].
    destruct (Forall2_lookup_r _ _ _ _ _ Hrows Hi) as (r & _ & Hn).
    destruct Hn as (Hvisit & _ & Hs & _). rewrite Hs.
    exact (visit_codes_have_sessions _ _ Hvisit).
Qed.

Lemma module_tables_leave_no_session_missing_witness :
  exists rows,
    normalize_imaging VISIT_IMAGING_MAP VISIT_SESSION_MAP GROUP_IMAGING_MAP
      ManifestSamples.df_imaging [] = (inr rows, [])
    /\ length rows = 3
    /\ forall row, row ∈ rows -> is_Some (img_session row).
Proof.
  destruct (normalize_imaging VISIT_IMAGING_MAP VISIT_SESSION_MAP GROUP_IMAGING_MAP
              ManifestSamples.df_imaging []) as [[e|rows] log] eqn:Hnorm;
    [vm_compute in Hnorm; discriminate Hnorm|].
  destruct (module_tables_leave_no_session_missing _ _ _ _ _ Hnorm) as [-> Hall].
  exists rows. split; [reflexivity|]. split; [|exact Hall].
  vm_compute in Hnorm. injection Hnorm as <-. reflexivity.
Defined.

(** [build_manifest] up to the catalog: when the sessions are valid, there
    is a tabular file and the normalisation goes through, what is left is
    the loop over the sessions. *)
Lemma build_manifest_steps (T : Tables) (read_manifest : Catalog)
    (SESSIONS : list string) (df_imaging : list ImagingRow)
    (tabular_files : list (list Tabular)) (df_group : list Status)
    (js : list (string * Json)) (log : list Warning) (rows : list Imaging) :
  (forall s, s ∈ SESSIONS -> exists visit, VISIT_SESSION_MAP !! visit = Some s) ->
  tabular_files <> [] ->
  (normalize_imaging VISIT_IMAGING_MAP VISIT_SESSION_MAP GROUP_IMAGING_MAP
     df_imaging []).1 = inr rows ->
  exists log',
    build_manifest T read_manifest SESSIONS df_imaging tabular_files df_group js log
    = populate_bids_id read_manifest
        (map snd (sorted_manifest (filtered_tabular tabular_files df_group rows)
                    (aggregated_imaging T SESSIONS js rows)))
        (Str.drop_duplicates
           (omap mg_session
              (merge_outer (filtered_tabular tabular_files df_group rows)
                 (aggregated_imaging T SESSIONS js rows))))
        (sorted_manifest (filtered_tabular tabular_files df_group rows)
           (aggregated_imaging T SESSIONS js rows))
        log'.
Proof.
  intros Hvalid Hfiles Hnorm.
  unfold build_manifest, aggregated_imaging, sorted_manifest, filtered_tabular,
    mbind, M_bind, bind.
  rewrite (validate_visit_session_map_ok _ _ log Hvalid).
  rewrite (read_tabular_value _ log Hfiles).
  destruct (reverse_mapping (DATATYPES T) js) as [ddm warnings]. unfold warn_all.
  destruct (normalize_imaging VISIT_IMAGING_MAP VISIT_SESSION_MAP GROUP_IMAGING_MAP
              df_imaging (log ++ warnings)) as [res log2] eqn:Hn.
  pose proof (normalize_imaging_log_indep VISIT_IMAGING_MAP VISIT_SESSION_MAP
                GROUP_IMAGING_MAP df_imaging (log ++ warnings) []) as Hindep.
  rewrite Hn, Hnorm in Hindep. simpl in Hindep. subst res.
  destruct (add_group_value (load_tabular tabular_files) df_group rows log2)
    as [log3 ->].
  destruct (keep_imaging_value SESSIONS rows log3) as [log4 ->].
  destruct (aggregate_imaging_value (DATATYPES T) ddm
              (filtered_imaging SESSIONS rows) log4) as [log5 ->].
  match goal with
  | |- context [warn_if ?b ?w log5] => destruct (warn_if_inr b w log5) as [log6 ->]
  end.
  now exists log6.
Qed.

Lemma merge_outer_sessions (df_tabular : list TabularGroup)
    (df_imaging : list ImagingAvailability) (i : ImagingAvailability) :
  i ∈ df_imaging ->
  av_session i ∈ omap mg_session (merge_outer df_tabular df_imaging).
Proof.
  intros Hi. apply list_elem_of_omap. unfold merge_outer.
  destruct (existsb (fun t => same_key t i) df_tabular) eqn:Hex.
  - apply existsb_exists in Hex as (t & Ht & Hk).
    exists {| mg_participant_id := tab_participant_id t;
              mg_visit := tab_visit t;
              mg_session := Some (av_session i);
              mg_datatype := Some (av_datatype i);
              mg_merge := both |}.
    split; [|reflexivity]. apply elem_of_app. left.
    apply list_elem_of_In, in_flat_map. exists t. split; [exact Ht|].
    assert (i ∈ List.filter (same_key t) df_imaging) as Hin
      by (apply elem_of_filter_bool; now split).
    destruct (List.filter (same_key t) df_imaging) as [|i0 l] eqn:Hf;
      [inversion Hin|].
    apply list_elem_of_In.
    exact (list_elem_of_fmap_2
             (fun i => {| mg_participant_id := tab_participant_id t;
                          mg_visit := tab_visit t;
                          mg_session := Some (av_session i);
                          mg_datatype := Some (av_datatype i);
                          mg_merge := both |}) _ _ Hin).
  - exists {| mg_participant_id := av_participant_id i;
              mg_visit := av_visit i;
              mg_session := Some (av_session i);
              mg_datatype := Some (av_datatype i);
              mg_merge := right_only |}.
    split; [|reflexivity]. apply elem_of_app. right.
    apply (list_elem_of_fmap_2
             (fun i => {| mg_participant_id := av_participant_id i;
                          mg_visit := av_visit i;
                          mg_session := Some (av_session i);
                          mg_datatype := Some (av_datatype i);
                          mg_merge := right_only |})).
    apply elem_of_filter_bool. split; [exact Hi|]. now rewrite Hex.
Qed.

(** X21.  When the sessions are valid, there is a tabular file, the
    normalisation goes through and an imaging row survives the two filters,
    a catalog that finds nothing makes [build_manifest] raise
    [RuntimeError]: no manifest is returned. *)
Theorem empty_catalog_raises (T : Tables) (read_manifest : Catalog)
    (SESSIONS : list string) (df_imaging : list ImagingRow)
    (tabular_files : list (list Tabular)) (df_group : list Status)
    (js : list (string * Json)) (log : list Warning)
    (rows : list Imaging) (r : Imaging) :
  (forall snapshot session, read_manifest snapshot session = []) ->
  (forall s, s ∈ SESSIONS -> exists visit, VISIT_SESSION_MAP !! visit = Some s) ->
  tabular_files <> [] ->
  (normalize_imaging VISIT_IMAGING_MAP VISIT_SESSION_MAP GROUP_IMAGING_MAP
     df_imaging []).1 = inr rows ->
  r ∈ filtered_imaging SESSIONS rows ->
  (build_manifest T read_manifest SESSIONS df_imaging tabular_files df_group js log).1
  = inl RuntimeError_bids_id.
Proof.
  intros Hempty Hvalid Hfiles Hnorm Hr.
  destruct (build_manifest_steps T read_manifest SESSIONS df_imaging tabular_files
              df_group js log rows Hvalid Hfiles Hnorm) as [log' ->].
  assert (exists i, i ∈ aggregated_imaging T SESSIONS js rows) as [i Hi].
  { assert (img_key r ∈ map av_key (aggregated_imaging T SESSIONS js rows)) as Hk.
    { apply elem_of_aggregated_imaging, list_elem_of_fmap. now exists r. }
    apply list_elem_of_fmap in Hk as (i & _ & Hi). now exists i. }
  pose proof (merge_outer_sessions (filtered_tabular tabular_files df_group rows)
                _ i Hi) as Hs.
  apply elem_of_drop_duplicates in Hs.
  destruct (Str.drop_duplicates _) as [|s sessions]; [inversion Hs|].
  simpl. now rewrite Hempty.
Qed.

Lemma empty_catalog_raises_witness :
  (build_manifest Samples.tables BuilderSamples.empty_catalog ManifestSamples.SESSIONS
     ManifestSamples.df_imaging ManifestSamples.tabular_files
     ManifestSamples.df_group ReversalSpec.listed_twice []).1
  = inl RuntimeError_bids_id.
Proof.
  destruct (normalize_imaging VISIT_IMAGING_MAP VISIT_SESSION_MAP GROUP_IMAGING_MAP
              ManifestSamples.df_imaging []) as [[e|rows] log] eqn:Hnorm;
    [vm_compute in Hnorm; discriminate Hnorm|].
  assert (exists r, r ∈ filtered_imaging ManifestSamples.SESSIONS rows) as [r Hr].
  { vm_compute in Hnorm. injection Hnorm as <- _.
    eexists. apply elem_of_filter_bool. split.
    - apply elem_of_filter_bool. split; [apply list_elem_of_here|reflexivity].
    - reflexivity. }
  apply (empty_catalog_raises Samples.tables BuilderSamples.empty_catalog
           ManifestSamples.SESSIONS ManifestSamples.df_imaging
           ManifestSamples.tabular_files ManifestSamples.df_group
           ReversalSpec.listed_twice [] rows r).
  - reflexivity.
  - intros s Hs. apply elem_of_cons in Hs as [->|Hs]; [now exists "BL"|].
    apply elem_of_cons in Hs as [->|Hs]; [now exists "V04"|]. inversion Hs.
  - discriminate.
  - now rewrite Hnorm.
  - exact Hr.
Defined.

End CatalogExtras.
